(** * Daybound: update distribution and storage synchronisation

    A shallow embedding of the subsystem that decides, on every new-tab
    open, between the bundled page and the cached remote page, and of the
    key-value layer underneath it:

    - [compareSemver]                         (src/utils/otaConfig.ts)
    - [isInBackoff], [recordFailure], [clearFailures], the routing
      decision, [settle] and the host side of the bridge (the OTA shell)
    - [runCheck], [precacheRemoteApp]         (app/components/OtaUpdater.tsx)
    - [StorageBridgeClient]                   (src/utils/storageBridge.ts)
    - [getStrategy], [ensureBridge], [storageGet], [storageSet] and
      [usePersistentState]                    (hooks/useStorage)
    - [getCityName], [getRegionName]          (src/utils/timezoneUtils)

    Conventions.  JavaScript strings are modelled by [string] (bytes, so
    the ASCII part of the language); [localStorage] is a [gmap string
    string] together with a flag telling whether the browser denies access
    to it, in which case every call throws; a number produced by
    [parseInt] is an integer or NaN; asynchronous code is cut at its
    [await] points and driven by the events that settle them. *)

From Stdlib Require Import ZArith QArith Lia List Bool Ascii String.
From stdpp Require Import base option gmap strings list fin_maps.

Open Scope string_scope.
Open Scope Z_scope.

(* ===================================================================== *)
(** * JavaScript strings and numbers *)
(* ===================================================================== *)

Module JS.

(** ** Characters *)

(** WhiteSpace and LineTerminator code points below 128. *)
Definition isWhiteSpace (c : ascii) : bool :=
  let n := nat_of_ascii c in
  ((9 <=? n) && (n <=? 13))%nat || (n =? 32)%nat.

(** Hexadecimal digit, upper or lower case. *)
Definition hexDigitOf (c : ascii) : option Z :=
  let n := nat_of_ascii c in
  if ((48 <=? n) && (n <=? 57))%nat then Some (Z.of_nat (n - 48))
  else if ((65 <=? n) && (n <=? 70))%nat then Some (Z.of_nat (n - 55))
  else if ((97 <=? n) && (n <=? 102))%nat then Some (Z.of_nat (n - 87))
  else None.

Definition digitInRadix (radix : Z) (c : ascii) : option Z :=
  match hexDigitOf c with
  | Some d => if d <? radix then Some d else None
  | None => None
  end.

(** ** Scanning *)

Fixpoint trimStart (s : string) : string :=
  match s with
  | String c r => if isWhiteSpace c then trimStart r else s
  | EmptyString => EmptyString
  end.

Fixpoint trimEnd (s : string) : string :=
  match s with
  | String c r =>
      match trimEnd r with
      | EmptyString => if isWhiteSpace c then EmptyString else String c EmptyString
      | r' => String c r'
      end
  | EmptyString => EmptyString
  end.

Definition trim (s : string) : string := trimEnd (trimStart s).

(** The longest prefix of digits of [s] in the given radix, as digit
    values, and what follows it. *)
Fixpoint digitsPrefix (radix : Z) (s : string) : list Z * string :=
  match s with
  | String c r =>
      match digitInRadix radix c with
      | Some d => let '(ds, rest) := digitsPrefix radix r in (d :: ds, rest)
      | None => ([], s)
      end
  | EmptyString => ([], EmptyString)
  end.

Definition valueOfDigits (radix : Z) (ds : list Z) : Z :=
  fold_left (fun acc d => radix * acc + d) ds 0.

(** A leading [+] or [-]: whether it is a minus, and the rest. *)
Definition stripSign (s : string) : bool * string :=
  match s with
  | String "-" r => (true, r)
  | String "+" r => (false, r)
  | _ => (false, s)
  end.

(** [s.split(sep)] for a one-character separator: never empty, and
    the empty text gives one empty segment. *)
Fixpoint split (sep : ascii) (s : string) : list string :=
  match s with
  | EmptyString => [EmptyString]
  | String c r =>
      if Ascii.eqb c sep then EmptyString :: split sep r
      else match split sep r with
           | h :: t => String c h :: t
           | [] => [String c EmptyString]
           end
  end.

(** [parts.join(sep)]. *)
Fixpoint join (sep : ascii) (parts : list string) : string :=
  match parts with
  | [] => EmptyString
  | [p] => p
  | p :: rest => p ++ String sep (join sep rest)
  end.

(** ** Integers as [parseInt] and [String] see them *)

(** The result of [parseInt]: an integer, or NaN ([None]).  Integers are
    exact here; the rounding of IEEE doubles beyond 2^53 is not modelled. *)
Definition IntOrNaN : Type := option Z.

(** [parseInt(s, 10)]: leading white space is skipped, then an optional
    sign, then the longest run of decimal digits; no digit gives NaN. *)
Definition parseInt (s : string) : IntOrNaN :=
  let '(neg, u) := stripSign (trimStart s) in
  match digitsPrefix 10 u with
  | ([], _) => None
  | (ds, _) => Some (if neg then - valueOfDigits 10 ds else valueOfDigits 10 ds)
  end.

(** The character of a decimal digit. *)
Definition digitChar (d : Z) : ascii := ascii_of_nat (48 + Z.to_nat d).

(** Decimal digits of a natural number, most significant first, put in
    front of [acc]; [fuel] bounds the number of digits. *)
Fixpoint digitsOfPos (fuel : nat) (n : Z) (acc : string) : string :=
  match fuel with
  | O => acc
  | S f =>
      let acc' := String (digitChar (n mod 10)) acc in
      if n <? 10 then acc' else digitsOfPos f (n / 10) acc'
  end.

(** The text made of the digits [dl], followed by [acc]. *)
Fixpoint charsOf (dl : list Z) (acc : string) : string :=
  match dl with
  | [] => acc
  | d :: r => String (digitChar d) (charsOf r acc)
  end.

Definition isDigit (d : Z) : Prop := 0 <= d < 10.

Definition stringOfNat (n : Z) : string :=
  digitsOfPos (S (Z.to_nat (Z.log2 n))) n EmptyString.

(** [String(n)] for an integer [n]. *)
Definition stringOfInt (n : Z) : string :=
  if n <? 0 then String "-" (stringOfNat (- n)) else stringOfNat n.

(** [String(x)] for the result of integer arithmetic. *)
Definition String_ (x : IntOrNaN) : string :=
  match x with
  | Some n => stringOfInt n
  | None => "NaN"
  end.

(** [a < b] and [a > b] on such numbers: both false as soon as one side
    is NaN. *)
Definition ltInt (a b : IntOrNaN) : bool :=
  match a, b with
  | Some x, Some y => x <? y
  | _, _ => false
  end.

Definition gtInt (a b : IntOrNaN) : bool := ltInt b a.

Definition addInt (a b : IntOrNaN) : IntOrNaN :=
  match a, b with
  | Some x, Some y => Some (x + y)
  | _, _ => None
  end.

Definition subInt (a b : IntOrNaN) : IntOrNaN :=
  match a, b with
  | Some x, Some y => Some (x - y)
  | _, _ => None
  end.

(** ** Numbers as [Number] sees them *)

(** A JavaScript number: NaN, an infinity, or a finite value, kept as an
    exact rational (rounding to the nearest double is not modelled). *)
Inductive Num : Type :=
  | NaN
  | Infinite (negative : bool)
  | Finite (q : Q).

Definition ltNum (a b : Num) : bool :=
  match a, b with
  | NaN, _ | _, NaN => false
  | Infinite true, Infinite true => false
  | Infinite true, _ => true
  | _, Infinite true => false
  | Infinite false, _ => false
  | Finite _, Infinite false => true
  | Finite x, Finite y => match Qcompare x y with Lt => true | _ => false end
  end.

Definition gtNum (a b : Num) : bool := ltNum b a.

Definition negNum (neg : bool) (q : Q) : Q := if neg then Qopp q else q.

(** The exponent part of a decimal literal, [e] or [E], an optional sign
    and at least one digit, up to the end of the text; [Some 0] when the
    text is empty. *)
Definition exponentPart (s : string) : option Z :=
  match s with
  | EmptyString => Some 0
  | String c r =>
      if Ascii.eqb c "e" || Ascii.eqb c "E" then
        let '(neg, u) := stripSign r in
        match digitsPrefix 10 u with
        | ([], _) => None
        | (ds, EmptyString) =>
            Some (if neg then - valueOfDigits 10 ds else valueOfDigits 10 ds)
        | (_, _) => None
        end
      else None
  end.

Definition pow10 (e : Z) : Q :=
  if e <? 0 then 1 # Z.to_pos (10 ^ (- e)) else inject_Z (10 ^ e).

(** StrUnsignedDecimalLiteral without [Infinity]: digits, an optional
    fraction, an optional exponent; or a fraction alone. *)
Definition unsignedDecimal (s : string) : option Q :=
  let '(ip, r1) := digitsPrefix 10 s in
  let '(hasDot, r2) :=
    match r1 with
    | String "." r => (true, r)
    | _ => (false, r1)
    end in
  let '(fp, r3) := if hasDot then digitsPrefix 10 r2 else ([], r2) in
  match ip, fp with
  | [], [] => None
  | _, _ =>
      match exponentPart r3 with
      | Some e =>
          let mant :=
            Qplus (inject_Z (valueOfDigits 10 ip))
                  (Qmult (inject_Z (valueOfDigits 10 fp))
                         (pow10 (- Z.of_nat (List.length fp)))) in
          Some (Qmult mant (pow10 e))
      | None => None
      end
  end.

(** [0x], [0o] and [0b] literals, which take no sign. *)
Definition nonDecimal (s : string) : option Z :=
  match s with
  | String "0" (String p r) =>
      let radix :=
        if Ascii.eqb p "x" || Ascii.eqb p "X" then Some 16
        else if Ascii.eqb p "o" || Ascii.eqb p "O" then Some 8
        else if Ascii.eqb p "b" || Ascii.eqb p "B" then Some 2
        else None in
      match radix with
      | Some k =>
          match digitsPrefix k r with
          | ([], _) => None
          | (ds, EmptyString) => Some (valueOfDigits k ds)
          | (_, _) => None
          end
      | None => None
      end
  | _ => None
  end.

(** [Number(s)] for a string [s] (StringToNumber): white space is
    trimmed on both sides; the empty text is 0; anything that is not a
    numeric literal is NaN. *)
Definition Number (s : string) : Num :=
  let t := trim s in
  match t with
  | EmptyString => Finite 0
  | _ =>
      match nonDecimal t with
      | Some n => Finite (inject_Z n)
      | None =>
          let '(neg, u) := stripSign t in
          if String.eqb u "Infinity" then Infinite neg
          else match unsignedDecimal u with
               | Some q => Finite (negNum neg q)
               | None => NaN
               end
      end
  end.

End JS.

(* ===================================================================== *)
(** * SemverComparator (src/utils/otaConfig.ts) *)
(* ===================================================================== *)

Module OtaConfig.

Definition BUNDLED_VERSION : string := "1.0.0".
Definition LS_USE_REMOTE : string := "daybound_ota_use_remote".
Definition LS_REMOTE_VERSION : string := "daybound_ota_remote_version".
Definition LS_FAIL_COUNT : string := "daybound_ota_fail_count".
Definition LS_FAIL_TS : string := "daybound_ota_fail_ts".

(** [p[i] ?? 0]: only a missing element is replaced by 0, a NaN stays. *)
Definition partAt (p : list JS.Num) (i : nat) : JS.Num :=
  match p !! i with
  | Some v => v
  | None => JS.Finite 0
  end.

(** The body of [for (let i = 0; i < 3; i++)], entered at index [i] with
    [todo] iterations left. *)
Fixpoint compareFrom (pa pb : list JS.Num) (i todo : nat) : Z :=
  match todo with
  | O => 0
  | S todo' =>
      let va := partAt pa i in
      let vb := partAt pb i in
      if JS.gtNum va vb then 1
      else if JS.ltNum va vb then -1
      else compareFrom pa pb (S i) todo'
  end.

Definition parts (v : string) : list JS.Num :=
  map JS.Number (JS.split "." v).

Definition compareSemver (a b : string) : Z :=
  compareFrom (parts a) (parts b) 0 3.

(** The text [a] with its segment number [i] replaced by ["0"]: what the
    specification compares a malformed version with. *)
Definition zeroSegment (i : nat) (a : string) : string :=
  JS.join "." (<[i := "0"]> (JS.split "." a)).

(** Neither [va > vb] nor [va < vb] at index [i]: the loop goes on to the
    next index. *)
Definition unordered (pa pb : list JS.Num) (i : nat) : Prop :=
  JS.gtNum (partAt pa i) (partAt pb i) = false /\
  JS.ltNum (partAt pa i) (partAt pb i) = false.

End OtaConfig.

(* ===================================================================== *)
(** * localStorage *)
(* ===================================================================== *)

Module LocalStorage.

Inductive Write : Type :=
  | SetItem (key value : string)
  | RemoveItem (key : string).

(** The store of one origin.  When [denied] is set the browser refuses
    access and every call throws.  [journal] lists the writes that went
    through, oldest first; it is an observer of the model, the page cannot
    read it.  (A write refused for lack of quota is not modelled.) *)
Record t : Type := mk {
  items : gmap string string;
  denied : bool;
  journal : list Write
}.

(** A call either returns or throws; the store it leaves behind is kept
    in both cases. *)
Inductive Completion (A : Type) : Type :=
  | Return (a : A)
  | Throw.
Arguments Return {A} a.
Arguments Throw {A}.

Definition M (A : Type) : Type := t -> Completion A * t.

Definition ret {A} (a : A) : M A := fun st => (Return a, st).

Definition throw {A} : M A := fun st => (Throw, st).

Definition bind {A B} (c : M A) (k : A -> M B) : M B :=
  fun st =>
    match c st with
    | (Return a, st') => k a st'
    | (Throw, st') => (Throw, st')
    end.

(** [try { body } catch (e) { handler }]. *)
Definition tryCatch {A} (body handler : M A) : M A :=
  fun st =>
    match body st with
    | (Return a, st') => (Return a, st')
    | (Throw, st') => handler st'
    end.

Definition getItem (key : string) : M (option string) :=
  fun st => if denied st then (Throw, st) else (Return (items st !! key), st).

Definition setItem (key value : string) : M unit :=
  fun st =>
    if denied st then (Throw, st)
    else (Return tt,
          mk (<[key := value]> (items st)) false
             (journal st ++ [SetItem key value])).

Definition removeItem (key : string) : M unit :=
  fun st =>
    if denied st then (Throw, st)
    else (Return tt,
          mk (delete key (items st)) false (journal st ++ [RemoveItem key])).

(** The writes a computation adds to the journal when run on [st]. *)
Definition written {A} (c : M A) (st : t) : list Write :=
  drop (length (journal st)) (journal (snd (c st))).

(** The key a write is about. *)
Definition target (w : Write) : string :=
  match w with
  | SetItem k _ => k
  | RemoveItem k => k
  end.

(** Whether some write of the list is about [key]. *)
Definition touches (key : string) (ws : list Write) : bool :=
  existsb (fun w => String.eqb (target w) key) ws.

End LocalStorage.

#[global] Instance storage_ret : MRet LocalStorage.M := @LocalStorage.ret.
#[global] Instance storage_bind : MBind LocalStorage.M :=
  fun A B k c => LocalStorage.bind c k.

(* ===================================================================== *)
(** * The OTA shell: backoff, routing decision, settle *)
(* ===================================================================== *)

Module Shell.
Import LocalStorage.

Definition REMOTE_APP_URL : string := "https://app.daybound.com".
Definition IFRAME_TIMEOUT : Z := 800.
Definition OTA_USE_REMOTE : string := "daybound_ota_use_remote".
Definition OTA_REMOTE_VER : string := "daybound_ota_remote_version".
Definition OTA_FAIL_COUNT : string := "daybound_ota_fail_count".
Definition OTA_FAIL_TS : string := "daybound_ota_fail_ts".
Definition MAX_FAILURES : Z := 3.
Definition BACKOFF_MS : Z := 5 * 60 * 1000.

(** [v || d] for the result of [getItem]: [null] and the empty string are
    falsy. *)
Definition orElse (v : option string) (d : string) : string :=
  match v with
  | None => d
  | Some EmptyString => d
  | Some s => s
  end.

(** [isInBackoff()], run when [Date.now()] is [now]. *)
Definition isInBackoff (now : Z) : M bool :=
  tryCatch
    (c ← getItem OTA_FAIL_COUNT;
     let count := JS.parseInt (orElse c "0") in
     if JS.ltInt count (Some MAX_FAILURES) then ret false
     else
       t ← getItem OTA_FAIL_TS;
       let ts := JS.parseInt (orElse t "0") in
       if JS.gtInt (JS.subInt (Some now) ts) (Some BACKOFF_MS) then
         setItem OTA_FAIL_COUNT "0";; ret false
       else ret true)
    (ret false).

Definition recordFailure (now : Z) : M unit :=
  tryCatch
    (v ← getItem OTA_FAIL_COUNT;
     let c := JS.parseInt (orElse v "0") in
     setItem OTA_FAIL_COUNT (JS.String_ (JS.addInt c (Some 1)));;
     setItem OTA_FAIL_TS (JS.String_ (Some now)))
    (ret tt).

Definition clearFailures : M unit :=
  tryCatch
    (removeItem OTA_FAIL_COUNT;; removeItem OTA_FAIL_TS)
    (ret tt).

(** [useRemote], as computed before the decision. *)
Definition readUseRemote : M bool :=
  tryCatch
    (v ← getItem OTA_USE_REMOTE;
     ret (match v with Some s => String.eqb s "true" | None => false end))
    (ret false).

(** [navigator.onLine !== false]; [None] stands for a browser that does
    not report the property. *)
Definition isOnline (onLine : option bool) : bool :=
  match onLine with
  | Some false => false
  | _ => true
  end.

(** The two counters and the flag as the code reads them. *)
Definition failCount (st : LocalStorage.t) : JS.IntOrNaN :=
  JS.parseInt (orElse (items st !! OTA_FAIL_COUNT) "0").

Definition failTimestamp (st : LocalStorage.t) : JS.IntOrNaN :=
  JS.parseInt (orElse (items st !! OTA_FAIL_TS) "0").

Definition useRemoteFlag (st : LocalStorage.t) : bool :=
  if denied st then false
  else bool_decide (items st !! OTA_USE_REMOTE = Some "true").

(** The store after the reset branch of [isInBackoff]. *)
Definition resetCount (st : LocalStorage.t) : LocalStorage.t :=
  mk (<[OTA_FAIL_COUNT := "0"]> (items st)) false
     (journal st ++ [SetItem OTA_FAIL_COUNT "0"]).

(** The store after one recorded failure at time [now] and the removal of
    the flag. *)
Definition failed (now : Z) (st : LocalStorage.t) : LocalStorage.t :=
  let count := JS.String_ (JS.addInt (failCount st) (Some 1)) in
  mk (delete OTA_USE_REMOTE
        (<[OTA_FAIL_TS := JS.String_ (Some now)]>
           (<[OTA_FAIL_COUNT := count]> (items st))))
     false
     (journal st ++ [SetItem OTA_FAIL_COUNT count;
                     SetItem OTA_FAIL_TS (JS.String_ (Some now));
                     RemoveItem OTA_USE_REMOTE]).

(** The store after the two counters were removed. *)
Definition cleared (st : LocalStorage.t) : LocalStorage.t :=
  mk (delete OTA_FAIL_TS (delete OTA_FAIL_COUNT (items st))) false
     (journal st ++ [RemoveItem OTA_FAIL_COUNT; RemoveItem OTA_FAIL_TS]).

Inductive Route : Type :=
  | FastPath      (* goToBundled() at once *)
  | RemotePath.   (* the frame is pointed at the remote origin *)

(** The condition [!useRemote || !isOnline || isInBackoff()], with the
    short circuit of [||]: [isInBackoff] only runs when the two first
    tests are false. *)
Definition decideRoute (onLine : option bool) (now : Z) : M Route :=
  useRemote ← readUseRemote;
  if negb useRemote || negb (isOnline onLine) then ret FastPath
  else
    blocked ← isInBackoff now;
    if blocked : bool then ret FastPath else ret RemotePath.

(** ** The page *)

Inductive Location : Type :=
  | ShellHtml    (* the shell page itself *)
  | IndexHtml.   (* after [window.location.replace("index.html")] *)

Record Page : Type := mkPage {
  storage : LocalStorage.t;
  location : Location;
  frameSrc : option string;   (* [frame.src] once set *)
  settled : bool;
  timer : option Z;           (* delay of the pending timeout, if any *)
  loaderHidden : bool;
  hosting : bool              (* the bridge listener is registered *)
}.

Definition withStorage (p : Page) (st : LocalStorage.t) : Page :=
  mkPage st (location p) (frameSrc p) (settled p) (timer p)
         (loaderHidden p) (hosting p).

Definition goToBundled (p : Page) : Page :=
  mkPage (storage p) IndexHtml (frameSrc p) (settled p) (timer p)
         (loaderHidden p) (hosting p).

(** Runs a storage computation against the page's store. *)
Definition exec {A} (c : M A) (p : Page) : Page :=
  withStorage p (snd (c (storage p))).

(** [settle(success)], run when [Date.now()] is [now]. *)
Definition settle (success : bool) (now : Z) (p : Page) : Page :=
  if settled p then p
  else
    let p1 := mkPage (storage p) (location p) (frameSrc p) true None
                     (loaderHidden p) (hosting p) in
    if success then
      let p2 := exec clearFailures p1 in
      mkPage (storage p2) (location p2) (frameSrc p2) (settled p2)
             (timer p2) true (hosting p2)
    else
      let p2 := exec (recordFailure now) p1 in
      let p3 := exec (tryCatch (removeItem OTA_USE_REMOTE) (ret tt)) p2 in
      goToBundled p3.

(** The whole script, from the decision on, run on a fresh shell page. *)
Definition start (onLine : option bool) (now : Z) (p : Page) : Page :=
  match decideRoute onLine now (storage p) with
  | (Return FastPath, st) => goToBundled (withStorage p st)
  | (Return RemotePath, st) =>
      mkPage st (location p) (Some REMOTE_APP_URL) false
             (Some IFRAME_TIMEOUT) (loaderHidden p) true
  | (Throw, st) => withStorage p st
  end.

(** What can happen to the frame and the timer afterwards. *)
Inductive Signal : Type :=
  | FrameLoad
  | FrameError
  | TimerFires.

(** The three callbacks.  A timer that [clearTimeout] has cancelled, or
    that already ran, does not run. *)
Definition onSignal (now : Z) (s : Signal) (p : Page) : Page :=
  match s with
  | FrameLoad => settle true now p
  | FrameError => settle false now p
  | TimerFires =>
      match timer p with
      | Some _ =>
          settle false now
            (mkPage (storage p) (location p) (frameSrc p) (settled p) None
                    (loaderHidden p) (hosting p))
      | None => p
      end
  end.

(** A run: the signals in the order they arrive, each with the value of
    [Date.now()] at that moment. *)
Fixpoint run (sigs : list (Z * Signal)) (p : Page) : Page :=
  match sigs with
  | [] => p
  | (now, s) :: rest => run rest (onSignal now s p)
  end.

(** The two failure counters are written or removed together by the
    writes [ws]: both are touched, or neither is. *)
Definition together (ws : list Write) : Prop :=
  touches OTA_FAIL_COUNT ws = touches OTA_FAIL_TS ws.

(** ** Sample stores and pages *)

(** Three failures, the last one at time 0, and the flag set. *)
Definition threeFailures : LocalStorage.t :=
  mk (<[OTA_FAIL_COUNT := "3"]>
        (<[OTA_FAIL_TS := "0"]> (<[OTA_USE_REMOTE := "true"]> ∅)))
     false [].

(** The shell page when its script starts, the flag being set. *)
Definition flaggedPage : Page :=
  mkPage (mk (<[OTA_USE_REMOTE := "true"]> ∅) false []) ShellHtml None
         false None false false.

End Shell.

(* ===================================================================== *)
(** * Values that cross the bridge and JSON *)
(* ===================================================================== *)

(** The values the application persists, with the two library functions
    the code applies to them.  [JSON_parse] is partial: [None] stands for
    the SyntaxError thrown on a text that is not JSON.  [JSON_stringify]
    is taken on values that have a JSON text. *)
Class Json (V : Type) : Type := {
  json_eq_dec :: EqDecision V;
  null : V;
  JSON_parse : string -> option V;
  JSON_stringify : V -> string;
  (** the empty text is not JSON *)
  JSON_parse_empty : JSON_parse EmptyString = None
}.

(** [v !== null]. *)
Definition notNull `{Json V} (v : V) : bool := bool_decide (v <> null).

(** [x ?? null] for a property read that may give [undefined]. *)
Definition orNull `{Json V} (x : option V) : V :=
  match x with
  | Some v => v
  | None => null
  end.

Module Wire.

(** Browsing contexts a message can come from. *)
Inductive Window : Type :=
  | ParentWindow              (* [window.parent] of the embedded page: the shell *)
  | FrameWindow               (* [frame.contentWindow] *)
  | OtherWindow (n : nat).

#[global] Instance Window_eq_dec : EqDecision Window.
Proof. solve_decision. Defined.

Section Messages.
Context {V : Type}.

(** [{ newValue?, oldValue? }]. *)
Record Change : Type := mkChange {
  newValue : option V;
  oldValue : option V
}.

(** The object carried by a message: its string tag and the properties
    the handlers read, each absent ([None]) or present. *)
Record Message : Type := mkMessage {
  type : string;
  id : option string;
  keys : option (list string);
  data : option (gmap string V);
  changes : option (gmap string Change)
}.

(** A [MessageEvent].  [payload] is [None] when [event.data] is falsy or
    has no string [type]. *)
Record MessageEvent : Type := mkEvent {
  source : Window;
  origin : string;
  payload : option Message
}.

Definition tagged (t : string) : Message := mkMessage t None None None None.

End Messages.
Arguments Change V : clear implicits.
Arguments Message V : clear implicits.
Arguments MessageEvent V : clear implicits.

End Wire.

(* ===================================================================== *)
(** * The shell as bridge host *)
(* ===================================================================== *)

Module Host.
Import LocalStorage Wire.

Section WithJson.
Context `{Json V}.

(** A call to [chrome.storage.sync] whose callback has not run yet. *)
Inductive ChromeCall : Type :=
  | SyncGet (ks : list string) (reqId : option string)
  | SyncSet (d : gmap string V) (reqId : option string).

(** The listener is registered on the remote path only, after
    [frame.src] was assigned, so [frame] is not null there. *)
Record t : Type := mk {
  storage : LocalStorage.t;
  chromeSync : bool;             (* [chrome.storage.sync] is present *)
  sent : list (Message V);       (* posted to [frame.contentWindow] *)
  calls : list ChromeCall
}.

Definition post (m : Message V) (h : t) : t :=
  mk (storage h) (chromeSync h) (sent h ++ [m]) (calls h).

Definition call (c : ChromeCall) (h : t) : t :=
  mk (storage h) (chromeSync h) (sent h) (calls h ++ [c]).

(** The loop of the GET branch without [chrome.storage]. *)
Fixpoint readKeys (ks : list string) (res : gmap string V)
  : M (gmap string V) :=
  match ks with
  | [] => ret res
  | k :: rest =>
      res' ← tryCatch
        (v ← getItem k;
         match v with
         | None => ret res
         | Some text =>
             match JSON_parse text with
             | Some x => ret (<[k := x]> res)
             | None => throw
             end
         end)
        (ret res);
      readKeys rest res'
  end.

(** The loop of the SET branch without [chrome.storage].  The listener
    hands it the entries in the order of [map_to_list], where the code
    follows [Object.keys]; the store it leaves is the same, only the
    order of the writes in the journal can differ. *)
Fixpoint writeKeys (kvs : list (string * V)) : M unit :=
  match kvs with
  | [] => ret tt
  | (k, v) :: rest =>
      tryCatch (setItem k (JSON_stringify v)) (ret tt);;
      writeKeys rest
  end.

Definition resultMessage (reqId : option string) (d : gmap string V)
  : Message V :=
  mkMessage "daybound-storage-result" reqId None (Some d) None.

Definition ackMessage (reqId : option string) : Message V :=
  mkMessage "daybound-storage-set-ack" reqId None None None.

(** The [message] listener of the shell. *)
Definition onMessage (e : MessageEvent V) (h : t) : t :=
  if bool_decide (source e <> FrameWindow) then h
  else
    match payload e with
    | None => h
    | Some msg =>
        if String.eqb (type msg) "daybound-iframe-ready" then
          post (tagged "daybound-bridge-ready") h
        else if String.eqb (type msg) "daybound-storage-get" then
          let ks := default [] (keys msg) in
          if chromeSync h then call (SyncGet ks (id msg)) h
          else
            match readKeys ks ∅ (storage h) with
            | (Return res, st) =>
                post (resultMessage (id msg) res)
                     (mk st (chromeSync h) (sent h) (calls h))
            | (Throw, st) => mk st (chromeSync h) (sent h) (calls h)
            end
        else if String.eqb (type msg) "daybound-storage-set" then
          let d := default ∅ (data msg) in
          if chromeSync h then call (SyncSet d (id msg)) h
          else
            let st := snd (writeKeys (map_to_list d) (storage h)) in
            post (ackMessage (id msg))
                 (mk st (chromeSync h) (sent h) (calls h))
        else h
    end.

(** The callbacks of the two [chrome.storage.sync] calls. *)
Definition onSyncGetDone (reqId : option string)
    (result : option (gmap string V)) (h : t) : t :=
  post (resultMessage reqId (default ∅ result)) h.

Definition onSyncSetDone (reqId : option string) (h : t) : t :=
  post (ackMessage reqId) h.

(** The [chrome.storage.onChanged] listener. *)
Definition onChanged (chg : gmap string (Change V)) (area : string) (h : t)
  : t :=
  if negb (String.eqb area "sync") then h
  else post (mkMessage "daybound-storage-changed" None None None (Some chg)) h.

End WithJson.
Arguments t V : clear implicits.
Arguments ChromeCall V : clear implicits.

End Host.

(* ===================================================================== *)
(** * VersionChecker (app/components/OtaUpdater.tsx) *)
(* ===================================================================== *)

Module OtaUpdater.
Import LocalStorage OtaConfig.

(** What [res.json()] gives: a failure, or an object whose [version] is
    read; a falsy version is [None] or the empty string. *)
Inductive Body : Type :=
  | BadJson
  | Manifest (version : option string).

(** What [fetch] gives: a rejection (network failure, timeout), or a
    response with its [ok] flag. *)
Inductive Fetched : Type :=
  | FetchRejected
  | Response (ok : bool) (body : Body).

(** What [runCheck] does next once it has the manifest. *)
Inductive Next : Type :=
  | Stop
  | Precache (version : string).

(** [runCheck] up to [await precacheRemoteApp()]. *)
Definition checkVersion (f : Fetched) : M Next :=
  match f with
  | FetchRejected => throw
  | Response false _ => ret Stop
  | Response true BadJson => throw
  | Response true (Manifest None) => ret Stop
  | Response true (Manifest (Some EmptyString)) => ret Stop
  | Response true (Manifest (Some version)) =>
      if compareSemver version BUNDLED_VERSION <=? 0 then
        removeItem LS_USE_REMOTE;; ret Stop
      else
        cachedVersion ← getItem LS_REMOTE_VERSION;
        if bool_decide (cachedVersion = Some version) then
          setItem LS_USE_REMOTE "true";; ret Stop
        else ret (Precache version)
  end.

(** [runCheck] after [precacheRemoteApp()] has resolved with [success]. *)
Definition afterPrecache (version : string) (success : bool) : M unit :=
  if success then
    setItem LS_USE_REMOTE "true";;
    setItem LS_REMOTE_VERSION version;;
    removeItem LS_FAIL_COUNT;;
    removeItem LS_FAIL_TS
  else ret tt.

(** The whole of [runCheck], its [try]/[catch] included, for a fetch that
    settles with [f] and a pre-cache that resolves with [success]. *)
Definition runCheck (f : Fetched) (success : bool) : M unit :=
  tryCatch
    (next ← checkVersion f;
     match next with
     | Stop => ret tt
     | Precache version => afterPrecache version success
     end)
    (ret tt).

End OtaUpdater.

(* ===================================================================== *)
(** * StorageBridgeClient (src/utils/storageBridge.ts) *)
(* ===================================================================== *)

Module Client.
Import Wire.

Section WithValues.
Context {V : Type}.

(** What a promise of [get] or [set] resolves with: the data of the
    response, possibly [undefined] ([None]). *)
Definition Data : Type := option (gmap string V).

(** The function stored in the pending table.  [get] stores the [resolve]
    of its promise; [set] stores [() => resolve()], which drops its
    argument.  Promises are named by numbers. *)
Inductive PendingResolve : Type :=
  | Resolve (promise : nat)
  | ResolveVoid (promise : nat).

Definition promiseOf (k : PendingResolve) : nat :=
  match k with
  | Resolve p => p
  | ResolveVoid p => p
  end.

(** A change listener: its identity, and whether calling it throws. *)
Record Listener : Type := mkListener {
  listenerId : nat;
  throws : bool
}.

Record t : Type := mk {
  pending : gmap string PendingResolve;
  ready : bool;
  readyPromise : bool;              (* [readyPromise] is resolved *)
  changeListeners : list Listener;
  listening : bool;                 (* [handleMessage] is registered *)
  resolved : gmap nat Data;         (* the promises settled so far *)
  nextPromise : nat;
  posted : list (Message V);        (* sent to [window.parent] *)
  delivered : list (nat * option (gmap string (Change V)))
                                    (* calls made to change listeners *)
}.

(** The delay after which [waitForReady()] rejects, in ms. *)
Definition readyTimeout : Z := 500.

(** [new StorageBridgeClient()]. *)
Definition create : t :=
  mk ∅ false false [] true ∅ 0 [tagged "daybound-iframe-ready"] [].

(** Resolving a promise; a promise already settled keeps its value. *)
Definition fulfil (p : nat) (d : Data) (c : t) : t :=
  match resolved c !! p with
  | Some _ => c
  | None =>
      mk (pending c) (ready c) (readyPromise c) (changeListeners c)
         (listening c) (<[p := d]> (resolved c)) (nextPromise c) (posted c)
         (delivered c)
  end.

(** Calling a stored function with [d]. *)
Definition invoke (k : PendingResolve) (d : Data) (c : t) : t :=
  match k with
  | Resolve p => fulfil p d c
  | ResolveVoid p => fulfil p None c
  end.

Definition register (reqId : string) (k : PendingResolve) (m : Message V)
    (c : t) : t :=
  mk (<[reqId := k]> (pending c)) (ready c) (readyPromise c)
     (changeListeners c) (listening c) (resolved c) (S (nextPromise c))
     (posted c ++ [m]) (delivered c).

(** [get(keys)], where [crypto.randomUUID()] returns [uuid]: the promise
    handed back and the new state. *)
Definition get (uuid : string) (ks : list string) (c : t) : nat * t :=
  let p := nextPromise c in
  (p, register uuid (Resolve p)
        (mkMessage "daybound-storage-get" (Some uuid) (Some ks) None None) c).

(** [set(data)]. *)
Definition set (uuid : string) (d : gmap string V) (c : t) : nat * t :=
  let p := nextPromise c in
  (p, register uuid (ResolveVoid p)
        (mkMessage "daybound-storage-set" (Some uuid) None (Some d) None) c).

(** [onChanged(listener)]. *)
Definition onChanged (l : Listener) (c : t) : t :=
  mk (pending c) (ready c) (readyPromise c) (changeListeners c ++ [l])
     (listening c) (resolved c) (nextPromise c) (posted c) (delivered c).

(** The function [onChanged] returns. *)
Definition unsubscribe (l : Listener) (c : t) : t :=
  mk (pending c) (ready c) (readyPromise c)
     (filter (fun l' => listenerId l' <> listenerId l) (changeListeners c))
     (listening c) (resolved c) (nextPromise c) (posted c) (delivered c).

(** [destroy()], apart from the reset of the module's [_client]. *)
Definition destroy (c : t) : t :=
  mk ∅ (ready c) (readyPromise c) (changeListeners c) false (resolved c)
     (nextPromise c) (posted c) (delivered c).

(** The two response cases of the [switch]: look the id up, call the
    stored function, delete the entry. *)
Definition respond (reqId : option string) (d : Data) (c : t) : t :=
  match reqId with
  | None => c
  | Some i =>
      match pending c !! i with
      | Some k =>
          let c' := invoke k d c in
          mk (delete i (pending c')) (ready c') (readyPromise c')
             (changeListeners c') (listening c') (resolved c')
             (nextPromise c') (posted c') (delivered c')
      | None => c
      end
  end.

(** The loop over the change listeners; what a listener throws is
    swallowed. *)
Definition notify (chg : option (gmap string (Change V))) (c : t) : t :=
  mk (pending c) (ready c) (readyPromise c) (changeListeners c)
     (listening c) (resolved c) (nextPromise c) (posted c)
     (delivered c ++ map (fun l => (listenerId l, chg)) (changeListeners c)).

(** [handleMessage]. *)
Definition handleMessage (e : MessageEvent V) (c : t) : t :=
  if bool_decide (source e <> ParentWindow) then c
  else
    match payload e with
    | None => c
    | Some msg =>
        if String.eqb (type msg) "daybound-bridge-ready" then
          mk (pending c) true true (changeListeners c) (listening c)
             (resolved c) (nextPromise c) (posted c) (delivered c)
        else if String.eqb (type msg) "daybound-storage-result" then
          respond (id msg) (data msg) c
        else if String.eqb (type msg) "daybound-storage-set-ack" then
          respond (id msg) (Some ∅) c
        else if String.eqb (type msg) "daybound-storage-changed" then
          notify (changes msg) c
        else c
    end.

(** A [message] event on the window: the handler runs while it is
    registered. *)
Definition dispatch (e : MessageEvent V) (c : t) : t :=
  if listening c then handleMessage e c else c.

(** ** Invariant of the pending table *)

(** Every function in the table belongs to a promise that is still
    open and was handed out by this client; two entries never share a
    promise; the promises not handed out yet are open. *)
Record wellFormed (c : t) : Prop := {
  pending_open : forall i k, pending c !! i = Some k ->
      resolved c !! promiseOf k = None /\ (promiseOf k < nextPromise c)%nat;
  pending_distinct : forall i j k k',
      pending c !! i = Some k -> pending c !! j = Some k' -> i <> j ->
      promiseOf k <> promiseOf k';
  fresh_open : forall p, (nextPromise c <= p)%nat -> resolved c !! p = None
}.

(** What the stored function passes on to its promise when called with
    [d]. *)
Definition passed (k : PendingResolve) (d : Data) : Data :=
  match k with
  | Resolve _ => d
  | ResolveVoid _ => None
  end.

(** [msg] is one of the two responses and [d] is what its case of the
    [switch] calls the stored function with. *)
Definition isResponse (msg : Message V) (d : Data) : Prop :=
  (type msg = "daybound-storage-result" /\ d = data msg) \/
  (type msg = "daybound-storage-set-ack" /\ d = Some ∅).

(** The states a client goes through. *)
Inductive reachable : t -> Prop :=
  | reach_create : reachable create
  | reach_get c uuid ks : reachable c -> reachable (snd (get uuid ks c))
  | reach_set c uuid d : reachable c -> reachable (snd (set uuid d c))
  | reach_onChanged c l : reachable c -> reachable (onChanged l c)
  | reach_unsubscribe c l : reachable c -> reachable (unsubscribe l c)
  | reach_message c e : reachable c -> reachable (dispatch e c)
  | reach_destroy c : reachable c -> reachable (destroy c).

End WithValues.
Arguments t V : clear implicits.
Arguments Data V : clear implicits.

End Client.

(* ===================================================================== *)
(** * PersistentStateStore (hooks/useStorage) *)
(* ===================================================================== *)

Module UseStorage.
Import Wire.

Inductive StorageStrategy : Type :=
  | Chrome    (* "chrome": chrome.storage.sync *)
  | Bridge    (* "bridge": postMessage bridge *)
  | Local.    (* "local": localStorage *)

#[global] Instance StorageStrategy_eq_dec : EqDecision StorageStrategy.
Proof. solve_decision. Defined.

(** What the two context tests of storageBridge.ts find. *)
Record Env : Type := mkEnv {
  hasChromeStorage : bool;
  isInsideIframe : bool
}.

Definition detectStorageStrategy (e : Env) : StorageStrategy :=
  if hasChromeStorage e then Chrome
  else if isInsideIframe e then Bridge
  else Local.

(** The promise [_bridgeReady]; its body catches everything, so it is
    never rejected. *)
Inductive BridgeReady : Type :=
  | Waiting
  | Resolved (ok : bool).

Section WithJson.
Context `{Json V}.

(** The module state of useStorage and of storageBridge, and the stores
    the process reaches. *)
Record Process : Type := mkProcess {
  env : Env;
  _client : option (Client.t V);
  _strategy : option StorageStrategy;
  _bridgeReady : option BridgeReady;
  handshakeTimer : option Z;       (* delay of the pending timer, if any *)
  localStorage : LocalStorage.t;
  syncSets : list (string * V)     (* calls to [chrome.storage.sync.set] *)
}.

Definition setClient (c : Client.t V) (p : Process) : Process :=
  mkProcess (env p) (Some c) (_strategy p) (_bridgeReady p)
            (handshakeTimer p) (localStorage p) (syncSets p).

Definition setLocalStorage (st : LocalStorage.t) (p : Process) : Process :=
  mkProcess (env p) (_client p) (_strategy p) (_bridgeReady p)
            (handshakeTimer p) st (syncSets p).

Definition getStrategy (p : Process) : StorageStrategy * Process :=
  match _strategy p with
  | Some s => (s, p)
  | None =>
      let s := detectStorageStrategy (env p) in
      (s, mkProcess (env p) (_client p) (Some s) (_bridgeReady p)
                    (handshakeTimer p) (localStorage p) (syncSets p))
  end.

Definition getStorageBridgeClient (p : Process) : Client.t V * Process :=
  match _client p with
  | Some c => (c, p)
  | None => (Client.create, setClient Client.create p)
  end.

(** [ensureBridge()].  The first call gets the client, building it if
    need be, and calls [waitForReady()], which starts its timer and
    races it against [readyPromise]; the promise is memoized. *)
Definition ensureBridge (p : Process) : Process :=
  match _bridgeReady p with
  | Some _ => p
  | None =>
      let '(c, p1) := getStorageBridgeClient p in
      mkProcess (env p1) (_client p1) (_strategy p1)
                (Some (if Client.readyPromise c then Resolved true
                       else Waiting))
                (Some Client.readyTimeout) (localStorage p1) (syncSets p1)
  end.

(** The timer of [waitForReady] fires: the race is lost if it is still
    open, [waitForReady] rejects and the [catch] of [ensureBridge] runs. *)
Definition onHandshakeTimer (p : Process) : Process :=
  match handshakeTimer p with
  | Some _ =>
      match _bridgeReady p with
      | Some Waiting =>
          mkProcess (env p) (_client p) (Some Local) (Some (Resolved false))
                    None (localStorage p) (syncSets p)
      | _ =>
          mkProcess (env p) (_client p) (_strategy p) (_bridgeReady p)
                    None (localStorage p) (syncSets p)
      end
  | None => p
  end.

(** A [message] event on the window of the process. *)
Definition onMessage (e : MessageEvent V) (p : Process) : Process :=
  match _client p with
  | None => p
  | Some c =>
      let c' := Client.dispatch e c in
      mkProcess (env p) (Some c') (_strategy p)
                (match _bridgeReady p with
                 | Some Waiting =>
                     Some (if Client.readyPromise c' then Resolved true
                           else Waiting)
                 | other => other
                 end)
                (handshakeTimer p) (localStorage p) (syncSets p)
  end.

(** ** storageGet and storageSet *)

(** How a call settles: the promise is fulfilled with a value, or
    rejected. *)
Inductive Outcome : Type :=
  | Returned (v : V)
  | Threw.

(** Where a call stands. *)
Inductive Stage : Type :=
  | AwaitEnsureBridge              (* [await ensureBridge()] *)
  | AwaitSyncGet                   (* callback of [chrome.storage.sync.get] *)
  | AwaitClientGet (promise : nat) (* [await client.get([key])] *)
  | AwaitSettled (o : Outcome)     (* settled, continuation not yet run *)
  | Finished.

(** [(result?.[key] as T) ?? null]. *)
Definition pick (key : string) (result : option (gmap string V)) : V :=
  orNull (result ≫= (fun d => d !! key)).

(** The [local] case of [storageGet]. *)
Definition readLocal (key : string) (st : LocalStorage.t)
  : Outcome * LocalStorage.t :=
  match LocalStorage.getItem key st with
  | (LocalStorage.Throw, st') => (Threw, st')
  | (LocalStorage.Return None, st') => (Returned null, st')
  | (LocalStorage.Return (Some EmptyString), st') => (Returned null, st')
  | (LocalStorage.Return (Some saved), st') =>
      match JSON_parse saved with
      | Some v => (Returned v, st')
      | None => (Threw, st')
      end
  end.

(** [storageGet(key, strategy)] up to its first suspension; [uuid] is
    what [crypto.randomUUID()] returns if it is called. *)
Definition storageGet (key : string) (strategy : StorageStrategy)
    (uuid : string) (p : Process) : Stage * Process :=
  match strategy with
  | Chrome => (AwaitSyncGet, p)
  | Bridge =>
      let '(c, p1) := getStorageBridgeClient p in
      let '(promise, c') := Client.get uuid [key] c in
      (AwaitClientGet promise, setClient c' p1)
  | Local =>
      let '(o, st) := readLocal key (localStorage p) in
      (AwaitSettled o, setLocalStorage st p)
  end.

(** [storageSet(key, value, strategy)]; the promise it returns is only
    used to log a rejection. *)
Definition storageSet (key : string) (value : V) (strategy : StorageStrategy)
    (uuid : string) (p : Process) : Process :=
  match strategy with
  | Chrome =>
      mkProcess (env p) (_client p) (_strategy p) (_bridgeReady p)
                (handshakeTimer p) (localStorage p)
                (syncSets p ++ [(key, value)])
  | Bridge =>
      let '(c, p1) := getStorageBridgeClient p in
      let '(_, c') := Client.set uuid {[key := value]} c in
      setClient c' p1
  | Local =>
      setLocalStorage
        (snd (LocalStorage.setItem key (JSON_stringify value)
                                   (localStorage p))) p
  end.

(** ** The hook *)

(** The React state of one use of the hook. *)
Record Hook : Type := mkHook {
  state : V;
  loading : bool;
  isLoaded : bool
}.

(** One run of the effect: its [cancelled] variable, where [load] stands,
    and, once it is over, how the read had settled. *)
Record Run : Type := mkRun {
  cancelled : bool;
  stage : Stage;
  readOutcome : option Outcome
}.

(** The first render: [useState(initialValue)] and [useState(true)]. *)
Definition render (initialValue : V) : Hook := mkHook initialValue true false.

(** [load] from the point where [storageGet] has settled with [o]: the
    test on the loaded value, the [catch] and the [finally]. *)
Definition complete (o : Outcome) (isCancelled : bool) (h : Hook) : Hook :=
  let h1 :=
    match o with
    | Returned loadedValue =>
        if negb isCancelled && notNull loadedValue
        then mkHook loadedValue (loading h) (isLoaded h)
        else h
    | Threw => h
    end in
  if isCancelled then h1 else mkHook (state h1) false true.

(** The effect: [load()] up to its first suspension. *)
Definition loadStart (key uuid : string) (p : Process) : Run * Process :=
  let '(strategy, p1) := getStrategy p in
  if bool_decide (strategy = Bridge) then
    (mkRun false AwaitEnsureBridge None, ensureBridge p1)
  else
    let '(stg, p2) := storageGet key strategy uuid p1 in
    (mkRun false stg None, p2).

(** The cleanup of the effect. *)
Definition teardown (r : Run) : Run := mkRun true (stage r) (readOutcome r).

(** What wakes a suspended [load]: the callback of
    [chrome.storage.sync.get] with its result, or the settling of the
    promise it awaits. *)
Inductive Wake : Type :=
  | SyncGetDone (result : option (gmap string V))
  | PromiseSettled.

Definition finish (o : Outcome) (r : Run) (h : Hook) : Run * Hook :=
  (mkRun (cancelled r) Finished (Some o), complete o (cancelled r) h).

(** One continuation of [load].  Nothing happens while what is awaited
    is not there. *)
Definition resume (key uuid : string) (w : Wake)
    (x : Process * Run * Hook) : Process * Run * Hook :=
  let '(p, r, h) := x in
  match stage r, w with
  | AwaitEnsureBridge, PromiseSettled =>
      match _bridgeReady p with
      | Some (Resolved ok) =>
          let strategy := if ok then Bridge else Local in
          let '(stg, p') := storageGet key strategy uuid p in
          (p', mkRun (cancelled r) stg None, h)
      | _ => x
      end
  | AwaitSyncGet, SyncGetDone result =>
      let '(r', h') := finish (Returned (pick key result)) r h in (p, r', h')
  | AwaitClientGet promise, PromiseSettled =>
      match _client p ≫= (fun c => Client.resolved c !! promise) with
      | Some d =>
          let '(r', h') := finish (Returned (pick key d)) r h in (p, r', h')
      | None => x
      end
  | AwaitSettled o, PromiseSettled =>
      let '(r', h') := finish o r h in (p, r', h')
  | _, _ => x
  end.

(** [setValue(newValue)]. *)
Definition setValue (key : string) (newValue : V) (uuid : string)
    (x : Process * Hook) : Process * Hook :=
  let '(p, h) := x in
  let h' := mkHook newValue (loading h) (isLoaded h) in
  let '(strategy, p1) := getStrategy p in
  (storageSet key newValue strategy uuid p1, h').

(** ** Runs *)

(** What can happen in the process while a [load] is under way. *)
Inductive Event : Type :=
  | Message (e : MessageEvent V)
  | HandshakeTimer
  | Woken (w : Wake) (uuid : string)
  | Teardown.

Definition step (key : string) (ev : Event)
    (x : Process * Run * Hook) : Process * Run * Hook :=
  let '(p, r, h) := x in
  match ev with
  | Message e => (onMessage e p, r, h)
  | HandshakeTimer => (onHandshakeTimer p, r, h)
  | Woken w uuid => resume key uuid w x
  | Teardown => (p, teardown r, h)
  end.

Definition steps (key : string) (evs : list Event)
    (x : Process * Run * Hook) : Process * Run * Hook :=
  fold_left (fun acc ev => step key ev acc) evs x.

(** The first use of the hook: the render, then the effect. *)
Definition usePersistentState (key : string) (initialValue : V)
    (uuid : string)
    (p : Process) : Process * Run * Hook :=
  let '(r, p') := loadStart key uuid p in (p', r, render initialValue).

(** ** Everything that can run in the process *)

Inductive Op : Type :=
  | OpGetStrategy
  | OpEnsureBridge
  | OpMessage (e : MessageEvent V)
  | OpHandshakeTimer
  | OpStorageGet (key : string) (strategy : StorageStrategy) (uuid : string)
  | OpStorageSet (key : string) (value : V) (strategy : StorageStrategy)
                 (uuid : string).

Definition apply (o : Op) (p : Process) : Process :=
  match o with
  | OpGetStrategy => snd (getStrategy p)
  | OpEnsureBridge => ensureBridge p
  | OpMessage e => onMessage e p
  | OpHandshakeTimer => onHandshakeTimer p
  | OpStorageGet key strategy uuid => snd (storageGet key strategy uuid p)
  | OpStorageSet key value strategy uuid =>
      storageSet key value strategy uuid p
  end.

Definition applyAll (ops : list Op) (p : Process) : Process :=
  fold_left (fun acc o => apply o acc) ops p.

(** The shell has acknowledged the client of the process. *)
Definition acknowledged (p : Process) : bool :=
  match _client p with
  | Some c => Client.readyPromise c
  | None => false
  end.


(** The race of [waitForReady] is open, or won by the acknowledgment. *)
Definition racing (p : Process) : Prop :=
  handshakeTimer p = Some Client.readyTimeout /\
  (_bridgeReady p = Some Waiting \/
   (_bridgeReady p = Some (Resolved true) /\ acknowledged p = true)).

(** The handshake failed and the strategy was set to local. *)
Definition downgraded (p : Process) : Prop :=
  _bridgeReady p = Some (Resolved false) /\ _strategy p = Some Local.

Definition processOf (x : Process * Run * Hook) : Process := fst (fst x).
Definition runOf (x : Process * Run * Hook) : Run := snd (fst x).
Definition hookOf (x : Process * Run * Hook) : Hook := snd x.

(** How the hook relates to the run of its effect: untouched while the
    run is under way; once it is over, what [complete] made of the first
    render, or still the first render if the run had been cancelled. *)
Definition consistent (initialValue : V) (x : Process * Run * Hook) : Prop :=
  let '(_, r, h) := x in
  match stage r with
  | Finished =>
      exists o, readOutcome r = Some o /\
        (h = complete o false (render initialValue) \/
         (cancelled r = true /\ h = render initialValue))
  | _ => h = render initialValue /\ readOutcome r = None
  end.

(** A fresh use of the hook whose read is settled when it starts, run to
    its end. *)
Definition freshLoad (key : string) (initialValue : V) (uuid : string)
    (p : Process) : Process * Run * Hook :=
  steps key [Woken PromiseSettled uuid]
        (usePersistentState key initialValue uuid p).


End WithJson.
Arguments Process V : clear implicits.
Arguments Outcome V : clear implicits.
Arguments Stage V : clear implicits.
Arguments Hook V : clear implicits.
Arguments Run V : clear implicits.
Arguments Wake V : clear implicits.
Arguments Event V : clear implicits.
Arguments Op V : clear implicits.

End UseStorage.

(* ===================================================================== *)
(** * Sample values *)
(* ===================================================================== *)

Module Sample.
Import Wire.

(** JSON restricted to [null] and the integers written the way
    [JSON.stringify] writes them. *)
Definition parseIntJson (text : string) : option (option Z) :=
  if String.eqb text "null" then Some None
  else match JS.parseInt text with
       | Some n =>
           if String.eqb (JS.stringOfInt n) text then Some (Some n) else None
       | None => None
       end.

Definition stringifyIntJson (v : option Z) : string :=
  match v with
  | Some n => JS.stringOfInt n
  | None => "null"
  end.

#[global] Instance IntJson : Json (option Z) := {|
  json_eq_dec := _;
  null := None;
  JSON_parse := parseIntJson;
  JSON_stringify := stringifyIntJson;
  JSON_parse_empty := eq_refl
|}.

(** A client with two [get] calls in flight. *)
Definition twoInFlight : Client.t (option Z) :=
  snd (Client.get "b" ["settings"]
         (snd (Client.get "a" ["timezone_config"] Client.create))).

(** The response to the second of them, coming from the shell. *)
Definition dataB : Client.Data (option Z) := Some {["settings" := Some 7]}.

Definition messageB : Message (option Z) :=
  mkMessage "daybound-storage-result" (Some "b") None dataB None.

Definition responseB : MessageEvent (option Z) :=
  mkEvent ParentWindow "chrome-extension://daybound" (Some messageB).

(** A host without [chrome.storage], and a write request that comes
    through the frame from a document of another origin. *)
Definition plainHost : Host.t (option Z) :=
  Host.mk (LocalStorage.mk ∅ false []) false [] [].

(** A process in a plain tab: no extension store, no parent frame. *)
Definition plainTab : UseStorage.Process (option Z) :=
  UseStorage.mkProcess (UseStorage.mkEnv false false) None
    (Some UseStorage.Local) None None (LocalStorage.mk ∅ false []) [].

(** A process inside a frame, before anything ran. *)
Definition framed : UseStorage.Process (option Z) :=
  UseStorage.mkProcess (UseStorage.mkEnv false true) None None None None
    (LocalStorage.mk ∅ false []) [].

(** The same process once [getStrategy] has run. *)
Definition framedBridge : UseStorage.Process (option Z) :=
  snd (UseStorage.getStrategy framed).

(** An acknowledgment of the shell. *)
Definition readyAck : MessageEvent (option Z) :=
  mkEvent ParentWindow "chrome-extension://daybound"
    (Some (tagged "daybound-bridge-ready")).

Definition foreignSet : MessageEvent (option Z) :=
  mkEvent FrameWindow "https://evil.example"
    (Some (mkMessage "daybound-storage-set" (Some "1") None
                     (Some {["app_settings" := Some 7]}) None)).

End Sample.

(* ===================================================================== *)
(** * The integers a double holds exactly *)
(* ===================================================================== *)

Module Doubles.

(** [Number.MAX_SAFE_INTEGER], 2^53 - 1.  Up to this magnitude every
    integer is a double, and sums and differences that stay within it are
    exact, so the exact integers and rationals of [JS] are what the code
    computes. *)
Definition MAX_SAFE_INTEGER : Z := 9007199254740991.

(** [Number.isSafeInteger(n)]. *)
Definition isSafeInteger (n : Z) : Prop :=
  - MAX_SAFE_INTEGER <= n <= MAX_SAFE_INTEGER.

(** A safe integer that is not negative: a version number, a value of
    [Date.now()]. *)
Definition isSafeNatural (n : Z) : Prop := 0 <= n <= MAX_SAFE_INTEGER.

End Doubles.

(* ===================================================================== *)
(** * Version texts *)
(* ===================================================================== *)

Module Versions.

(** The text [a.b.c] of three natural numbers, each written the way
    [String] writes it. *)
Definition versionText (a b c : Z) : string :=
  JS.stringOfNat a ++ String "." (JS.stringOfNat b ++ String "." (JS.stringOfNat c)).

(** The order of two triples of integers, first difference first, as
    [-1], [0] or [1]. *)
Definition compareTriple (a1 a2 a3 b1 b2 b3 : Z) : Z :=
  if b1 <? a1 then 1 else if a1 <? b1 then -1
  else if b2 <? a2 then 1 else if a2 <? b2 then -1
  else if b3 <? a3 then 1 else if a3 <? b3 then -1
  else 0.

End Versions.

(* ===================================================================== *)
(** * Stores the shell and the checker leave behind *)
(* ===================================================================== *)

Module Counters.
Import LocalStorage Shell.

(** The store after one recorded failure at time [now]. *)
Definition recorded (now : Z) (st : LocalStorage.t) : LocalStorage.t :=
  let count := JS.String_ (JS.addInt (failCount st) (Some 1)) in
  mk (<[OTA_FAIL_TS := JS.String_ (Some now)]>
        (<[OTA_FAIL_COUNT := count]> (items st)))
     false
     (journal st ++ [SetItem OTA_FAIL_COUNT count;
                     SetItem OTA_FAIL_TS (JS.String_ (Some now))]).

(** Failures in a row, one at each of the times [times]. *)
Definition recordAll (times : list Z) (st : LocalStorage.t) : LocalStorage.t :=
  fold_left (fun acc now => snd (recordFailure now acc)) times st.

(** A store that can be read and holds nothing. *)
Definition emptyStore : LocalStorage.t := mk ∅ false [].

(** A store whose two counters are not numbers. *)
Definition corruptCounters : LocalStorage.t :=
  mk (<[OTA_FAIL_COUNT := "abc"]> (<[OTA_FAIL_TS := "xyz"]> ∅)) false [].

(** The shell page of a browser that denies access to [localStorage]. *)
Definition deniedPage : Page :=
  mkPage (mk (<[OTA_USE_REMOTE := "true"]> ∅) true []) ShellHtml None
         false None false false.

End Counters.

Module Checker.
Import LocalStorage OtaConfig OtaUpdater.

(** The fetch gave a manifest whose [version] is truthy. *)
Definition usable (f : Fetched) : Prop :=
  exists ch rest, f = Response true (Manifest (Some (String ch rest))).

(** The test [compareSemver(version, BUNDLED_VERSION) <= 0] fails. *)
Definition newer (version : string) : bool :=
  negb (compareSemver version BUNDLED_VERSION <=? 0).

(** The store after the flag was removed, after it was set, and after a
    successful pre-cache of [version]. *)
Definition flagRemoved (st : LocalStorage.t) : LocalStorage.t :=
  mk (delete LS_USE_REMOTE (items st)) false
     (journal st ++ [RemoveItem LS_USE_REMOTE]).

Definition flagSet (st : LocalStorage.t) : LocalStorage.t :=
  mk (<[LS_USE_REMOTE := "true"]> (items st)) false
     (journal st ++ [SetItem LS_USE_REMOTE "true"]).

Definition precached (version : string) (st : LocalStorage.t) : LocalStorage.t :=
  mk (delete LS_FAIL_TS
        (delete LS_FAIL_COUNT
           (<[LS_REMOTE_VERSION := version]>
              (<[LS_USE_REMOTE := "true"]> (items st)))))
     false
     (journal st ++ [SetItem LS_USE_REMOTE "true";
                     SetItem LS_REMOTE_VERSION version;
                     RemoveItem LS_FAIL_COUNT;
                     RemoveItem LS_FAIL_TS]).

(** A manifest that announces version 1.2.0. *)
Definition manifest120 : Fetched := Response true (Manifest (Some "1.2.0")).

End Checker.

(* ===================================================================== *)
(** * precacheRemoteApp (app/components/OtaUpdater.tsx) *)
(* ===================================================================== *)

Module Precache.

Definition PRECACHE_TIMEOUT_MS : Z := 15000.
Definition CLEANUP_DELAY_MS : Z := 1000.

(** The hidden iframe of [precacheRemoteApp] and the variables of its
    promise executor. *)
Record t : Type := mk {
  settled : bool;
  timeout : option Z;        (* delay of the pending load timeout, if any *)
  cleanupTimer : option Z;   (* delay of the pending cleanup, if any *)
  attached : bool;           (* the iframe is in the document *)
  src : option string;
  promise : option bool      (* what the promise resolved with, if it has *)
}.

(** The body of the executor. *)
Definition start : t :=
  mk false (Some PRECACHE_TIMEOUT_MS) None true
     (Some Shell.REMOTE_APP_URL) None.

(** [done(success)]. *)
Definition done (success : bool) (s : t) : t :=
  if settled s then s
  else mk true None (Some CLEANUP_DELAY_MS) (attached s) (src s)
          (match promise s with
           | Some r => Some r
           | None => Some success
           end).

(** [cleanup()]. *)
Definition cleanup (s : t) : t :=
  if attached s
  then mk (settled s) (timeout s) (cleanupTimer s) false (src s) (promise s)
  else s.

Inductive Signal : Type :=
  | Load
  | Error
  | TimeoutFires
  | CleanupFires.

(** The callbacks.  A timer that was cleared, or that already ran, does
    not run. *)
Definition onSignal (sig : Signal) (s : t) : t :=
  match sig with
  | Load => done true s
  | Error => done false s
  | TimeoutFires =>
      match timeout s with
      | Some _ =>
          done false (mk (settled s) None (cleanupTimer s) (attached s)
                         (src s) (promise s))
      | None => s
      end
  | CleanupFires =>
      match cleanupTimer s with
      | Some _ =>
          cleanup (mk (settled s) (timeout s) None (attached s) (src s)
                      (promise s))
      | None => s
      end
  end.

Definition run (sigs : list Signal) (s : t) : t :=
  fold_left (fun acc sig => onSignal sig acc) sigs s.

Definition isCleanup (sig : Signal) : bool :=
  match sig with
  | CleanupFires => true
  | _ => false
  end.

(** What the first load, error or timeout of a list of signals stands
    for. *)
Fixpoint verdict (sigs : list Signal) : option bool :=
  match sigs with
  | [] => None
  | Load :: _ => Some true
  | Error :: _ => Some false
  | TimeoutFires :: _ => Some false
  | CleanupFires :: rest => verdict rest
  end.

(** Whether a cleanup timer fires after the first load, error or
    timeout. *)
Fixpoint cleaned (sigs : list Signal) : bool :=
  match sigs with
  | [] => false
  | CleanupFires :: rest => cleaned rest
  | _ :: rest => existsb isCleanup rest
  end.

End Precache.

(* ===================================================================== *)
(** * The two ends of the bridge, put together *)
(* ===================================================================== *)

Module Channel.
Import Wire.

Section WithJson.
Context `{Json V}.

(** The request posted by [get] and by [set]. *)
Definition getRequest (uuid : string) (ks : list string) : Message V :=
  mkMessage "daybound-storage-get" (Some uuid) (Some ks) None None.

Definition setRequest (uuid : string) (d : gmap string V) : Message V :=
  mkMessage "daybound-storage-set" (Some uuid) None (Some d) None.

(** A message of the frame as the shell receives it, and a message of
    the shell as the frame receives it. *)
Definition fromFrame (m : Message V) : MessageEvent V :=
  mkEvent FrameWindow Shell.REMOTE_APP_URL (Some m).

Definition fromShell (m : Message V) : MessageEvent V :=
  mkEvent ParentWindow "chrome-extension://daybound" (Some m).




End WithJson.
End Channel.

Module ClientCalls.
Import Wire.

Section WithValues.
Context {V : Type}.

(** What can be done to a client. *)
Inductive Call : Type :=
  | CallGet (uuid : string) (ks : list string)
  | CallSet (uuid : string) (d : gmap string V)
  | CallOnChanged (l : Client.Listener)
  | CallUnsubscribe (l : Client.Listener)
  | CallDestroy
  | Deliver (e : MessageEvent V).

Definition perform (op : Call) (c : Client.t V) : Client.t V :=
  match op with
  | CallGet uuid ks => snd (Client.get uuid ks c)
  | CallSet uuid d => snd (Client.set uuid d c)
  | CallOnChanged l => Client.onChanged l c
  | CallUnsubscribe l => Client.unsubscribe l c
  | CallDestroy => Client.destroy c
  | Deliver e => Client.dispatch e c
  end.

Definition performAll (ops : list Call) (c : Client.t V) : Client.t V :=
  fold_left (fun acc op => perform op acc) ops c.



End WithValues.
Arguments Call V : clear implicits.

End ClientCalls.

(* ===================================================================== *)
(** * Further states of the storage layer *)
(* ===================================================================== *)

Module Handshake.
Import Wire UseStorage.

Section WithJson.
Context `{Json V}.

(** The race of [waitForReady] was won. *)
Definition won (p : Process V) : Prop :=
  _bridgeReady p = Some (Resolved true).

(** The client of the process, if it has one, still listens. *)
Definition clientListening (p : Process V) : bool :=
  match _client p with
  | Some c => Client.listening c
  | None => true
  end.

End WithJson.

(** A host with [chrome.storage.sync]. *)
Definition chromeHost : Host.t (option Z) :=
  Host.mk (LocalStorage.mk ∅ false []) true [] [].


(** A process in a plain tab whose browser denies access to
    [localStorage]. *)
Definition deniedTab : Process (option Z) :=
  mkProcess (mkEnv false false) None (Some Local) None None
            (LocalStorage.mk (<["settings" := "7"]> ∅) true []) [].

End Handshake.

(* ===================================================================== *)
(** * Zone names (src/utils/timezoneUtils) *)
(* ===================================================================== *)

Module TimezoneUtils.

(** [s.replace(/_/g, " ")]. *)
Fixpoint replaceUnderscores (s : string) : string :=
  match s with
  | EmptyString => EmptyString
  | String c r =>
      String (if Ascii.eqb c "_" then " "%char else c) (replaceUnderscores r)
  end.

(** [getCityName(timezone)].  [parts[parts.length - 1]] is [undefined]
    when [parts] is empty, and calling [replace] on it would throw;
    [None] stands for that. *)
Definition getCityName (timezone : string) : option string :=
  let parts := JS.split "/" timezone in
  replaceUnderscores <$> parts !! (length parts - 1)%nat.

(** [getRegionName(timezone)]. *)
Definition getRegionName (timezone : string) : string :=
  match JS.split "/" timezone with
  | first :: _ :: _ => first
  | _ => EmptyString
  end.

(** The character [c] occurs in [s]. *)
Fixpoint contains (c : ascii) (s : string) : bool :=
  match s with
  | EmptyString => false
  | String a r => Ascii.eqb a c || contains c r
  end.

End TimezoneUtils.

(* ===================================================================== *)
(** * Further sample values *)
(* ===================================================================== *)

Module Fixtures.
Import Wire.

(** The shell page on the remote path, waiting for its frame, when
    version 1.2.0 has been pre-cached. *)
Definition cachedPage : Shell.Page :=
  Shell.mkPage
    (LocalStorage.mk
       (<[Shell.OTA_USE_REMOTE := "true"]>
          (<[Shell.OTA_REMOTE_VER := "1.2.0"]> ∅)) false [])
    Shell.ShellHtml (Some Shell.REMOTE_APP_URL) false
    (Some Shell.IFRAME_TIMEOUT) false true.





End Fixtures.

(* ===================================================================== *)
(** * Facts about the JavaScript layer *)
(* ===================================================================== *)

Module JSFacts.
Import JS.

Ltac digit_cases d Hd :=
  assert (d = 0 \/ d = 1 \/ d = 2 \/ d = 3 \/ d = 4 \/
          d = 5 \/ d = 6 \/ d = 7 \/ d = 8 \/ d = 9) as Hcases
    by (unfold isDigit in Hd; lia);
  repeat (destruct Hcases as [-> | Hcases]); try subst d.

Lemma digitChar_radix d : isDigit d -> digitInRadix 10 (digitChar d) = Some d.
Proof. intros Hd. digit_cases d Hd; reflexivity. Qed.

Lemma digitChar_not_space d : isDigit d -> isWhiteSpace (digitChar d) = false.
Proof. intros Hd. digit_cases d Hd; reflexivity. Qed.

Lemma digitChar_not_sign d r :
  isDigit d -> stripSign (String (digitChar d) r) = (false, String (digitChar d) r).
Proof. intros Hd. digit_cases d Hd; reflexivity. Qed.

Lemma charsOf_app dl1 dl2 acc :
  charsOf (dl1 ++ dl2) acc = charsOf dl1 (charsOf dl2 acc).
Proof. induction dl1 as [|d r IH]; simpl; [reflexivity | now rewrite IH]. Qed.

Lemma valueOfDigits_snoc dl d :
  valueOfDigits 10 (dl ++ [d]) = 10 * valueOfDigits 10 dl + d.
Proof. unfold valueOfDigits. now rewrite fold_left_app. Qed.

Lemma digitsOfPos_step f n acc :
  digitsOfPos (S f) n acc =
  if n <? 10 then String (digitChar (n mod 10)) acc
  else digitsOfPos f (n / 10) (String (digitChar (n mod 10)) acc).
Proof. reflexivity. Qed.

(** The printer writes digits only, and they spell [n]. *)
Lemma digitsOfPos_chars fuel : forall n acc,
  0 <= n < 10 ^ Z.of_nat (S fuel) ->
  exists dl, dl <> [] /\ Forall isDigit dl /\
             digitsOfPos (S fuel) n acc = charsOf dl acc /\
             valueOfDigits 10 dl = n.
Proof.
  induction fuel as [|f IH]; intros n acc Hn.
  - exists [n]. change (10 ^ Z.of_nat 1) with 10 in Hn.
    assert (Hm : n mod 10 = n) by (apply Z.mod_small; lia).
    assert (Hlt : (n <? 10) = true) by (apply Z.ltb_lt; lia).
    rewrite digitsOfPos_step, Hm, Hlt.
    split; [discriminate |].
    split; [constructor; [exact Hn | constructor] |].
    split; [reflexivity |].
    unfold valueOfDigits; simpl; lia.
  - rewrite digitsOfPos_step. destruct (n <? 10) eqn:Hlt.
    + apply Z.ltb_lt in Hlt.
      assert (Hm : n mod 10 = n) by (apply Z.mod_small; lia).
      exists [n]. rewrite Hm.
      split; [discriminate |].
      split; [constructor; [unfold isDigit; lia | constructor] |].
      split; [reflexivity |].
      unfold valueOfDigits; simpl; lia.
    + apply Z.ltb_ge in Hlt.
      assert (Hq : 0 <= n / 10 < 10 ^ Z.of_nat (S f)).
      { split; [apply Z.div_pos; lia |].
        apply Z.div_lt_upper_bound; [lia |].
        replace (Z.of_nat (S (S f))) with (Z.succ (Z.of_nat (S f))) in Hn by lia.
        rewrite Z.pow_succ_r in Hn by lia. lia. }
      destruct (IH (n / 10) (String (digitChar (n mod 10)) acc) Hq)
        as (dl & Hne & Hall & Heq & Hval).
      exists (dl ++ [n mod 10])%list.
      split; [destruct dl; discriminate |].
      split.
      { apply Forall_app; split; [exact Hall |].
        constructor; [| constructor].
        unfold isDigit. apply Z.mod_pos_bound. lia. }
      split.
      { rewrite Heq, charsOf_app. reflexivity. }
      rewrite valueOfDigits_snoc, Hval.
      pose proof (Z.div_mod n 10). lia.
Qed.

Lemma stringOfNat_chars n :
  0 <= n ->
  exists dl, dl <> [] /\ Forall isDigit dl /\
             stringOfNat n = charsOf dl EmptyString /\ valueOfDigits 10 dl = n.
Proof.
  intros Hn. unfold stringOfNat. apply digitsOfPos_chars.
  split; [exact Hn |].
  assert (Hl : 0 <= Z.log2 n) by apply Z.log2_nonneg.
  replace (Z.of_nat (S (Z.to_nat (Z.log2 n)))) with (Z.succ (Z.log2 n)) by lia.
  destruct (Z.eq_dec n 0) as [-> | Hnz].
  - reflexivity.
  - assert (H2 : n < 2 ^ Z.succ (Z.log2 n)) by (apply Z.log2_spec; lia).
    assert (H10 : 2 ^ Z.succ (Z.log2 n) <= 10 ^ Z.succ (Z.log2 n))
      by (apply Z.pow_le_mono_l; lia).
    lia.
Qed.

Lemma digitsPrefix_charsOf dl :
  Forall isDigit dl -> digitsPrefix 10 (charsOf dl EmptyString) = (dl, EmptyString).
Proof.
  induction 1 as [|d r Hd Hr IH]; [reflexivity |].
  cbn [charsOf digitsPrefix]. now rewrite (digitChar_radix d Hd), IH.
Qed.

Lemma parseInt_charsOf dl :
  dl <> [] -> Forall isDigit dl ->
  parseInt (charsOf dl EmptyString) = Some (valueOfDigits 10 dl).
Proof.
  intros Hne Hall. destruct dl as [|d r]; [congruence |].
  inversion Hall as [|? ? Hd Hr]; subst.
  unfold parseInt. cbn [charsOf trimStart].
  rewrite (digitChar_not_space d Hd), (digitChar_not_sign d _ Hd).
  change (String (digitChar d) (charsOf r EmptyString))
    with (charsOf (d :: r) EmptyString).
  now rewrite (digitsPrefix_charsOf (d :: r) Hall).
Qed.

Lemma parseInt_minus dl :
  dl <> [] -> Forall isDigit dl ->
  parseInt (String "-" (charsOf dl EmptyString)) = Some (- valueOfDigits 10 dl).
Proof.
  intros Hne Hall.
  assert (Hs : forall r, parseInt (String "-" r) =
            match digitsPrefix 10 r with
            | ([], _) => None
            | (ds, _) => Some (- valueOfDigits 10 ds)
            end) by reflexivity.
  rewrite Hs, (digitsPrefix_charsOf dl Hall).
  destruct dl; [congruence | reflexivity].
Qed.

(** Reading back what [String] printed gives the integer again. *)
Lemma parseInt_stringOfInt n : parseInt (stringOfInt n) = Some n.
Proof.
  unfold stringOfInt. destruct (n <? 0) eqn:Hneg.
  - apply Z.ltb_lt in Hneg.
    destruct (stringOfNat_chars (- n)) as (dl & Hne & Hall & Heq & Hval); [lia |].
    rewrite Heq, parseInt_minus by assumption. f_equal. lia.
  - apply Z.ltb_ge in Hneg.
    destruct (stringOfNat_chars n Hneg) as (dl & Hne & Hall & Heq & Hval).
    rewrite Heq, parseInt_charsOf by assumption. now f_equal.
Qed.

(** What [String] prints is never the empty text. *)
Lemma stringOfInt_nonempty n : stringOfInt n <> EmptyString.
Proof.
  unfold stringOfInt. destruct (n <? 0) eqn:Hneg; [discriminate |].
  apply Z.ltb_ge in Hneg.
  destruct (stringOfNat_chars n Hneg) as (dl & Hne & _ & Heq & _).
  rewrite Heq. destruct dl; [congruence | discriminate].
Qed.

End JSFacts.

(* ===================================================================== *)
(** * SemverComparator: properties *)
(* ===================================================================== *)

Module SemverFacts.
Import JS OtaConfig.

Example compareSemver_newer : compareSemver "1.2.3" "1.0.0" = 1.
Proof. reflexivity. Qed.

Example compareSemver_same : compareSemver "1.0.0" "1.0.0" = 0.
Proof. reflexivity. Qed.

Example compareSemver_short : compareSemver "2" "1.9.9" = 1.
Proof. reflexivity. Qed.

Lemma ltNum_NaN_l v : ltNum NaN v = false.
Proof. reflexivity. Qed.

Lemma ltNum_NaN_r v : ltNum v NaN = false.
Proof. destruct v as [| [|] |]; reflexivity. Qed.

Lemma compareFrom_greater pa pb n : forall i,
  compareFrom pa pb i n = 1 <->
  exists k, (i <= k < i + n)%nat /\ gtNum (partAt pa k) (partAt pb k) = true /\
            forall j, (i <= j < k)%nat -> unordered pa pb j.
Proof.
  induction n as [|n IH]; intros i; cbn [compareFrom].
  - split; [discriminate | intros (k & Hk & _); lia].
  - destruct (gtNum (partAt pa i) (partAt pb i)) eqn:Hg.
    + split; [intros _ | reflexivity].
      exists i. split; [lia |]. split; [exact Hg | intros j Hj; lia].
    + destruct (ltNum (partAt pa i) (partAt pb i)) eqn:Hl.
      * split; [discriminate |].
        intros (k & Hk & Hgk & Hbefore).
        destruct (decide (k = i)) as [-> | Hne]; [congruence |].
        destruct (Hbefore i) as [_ Hli]; [lia | congruence].
      * rewrite IH. split; intros (k & Hk & Hgk & Hbefore).
        -- exists k. split; [lia |]. split; [exact Hgk |].
           intros j Hj. destruct (decide (j = i)) as [-> | Hne].
           ++ split; assumption.
           ++ apply Hbefore. lia.
        -- destruct (decide (k = i)) as [-> | Hne]; [congruence |].
           exists k. split; [lia |]. split; [exact Hgk |].
           intros j Hj. apply Hbefore. lia.
Qed.

Lemma compareFrom_less pa pb n : forall i,
  compareFrom pa pb i n = -1 <->
  exists k, (i <= k < i + n)%nat /\
            gtNum (partAt pa k) (partAt pb k) = false /\
            ltNum (partAt pa k) (partAt pb k) = true /\
            forall j, (i <= j < k)%nat -> unordered pa pb j.
Proof.
  induction n as [|n IH]; intros i; cbn [compareFrom].
  - split; [discriminate | intros (k & Hk & _); lia].
  - destruct (gtNum (partAt pa i) (partAt pb i)) eqn:Hg.
    + split; [discriminate |].
      intros (k & Hk & Hgk & Hlk & Hbefore).
      destruct (decide (k = i)) as [-> | Hne]; [congruence |].
      destruct (Hbefore i) as [Hgi _]; [lia | congruence].
    + destruct (ltNum (partAt pa i) (partAt pb i)) eqn:Hl.
      * split; [intros _ | reflexivity].
        exists i. split; [lia |]. repeat split; try assumption.
        all: intros; lia.
      * rewrite IH. split; intros (k & Hk & Hgk & Hlk & Hbefore).
        -- exists k. split; [lia |]. split; [exact Hgk |]. split; [exact Hlk |].
           intros j Hj. destruct (decide (j = i)) as [-> | Hne].
           ++ split; assumption.
           ++ apply Hbefore. lia.
        -- destruct (decide (k = i)) as [-> | Hne]; [congruence |].
           exists k. split; [lia |]. split; [exact Hgk |]. split; [exact Hlk |].
           intros j Hj. apply Hbefore. lia.
Qed.

Lemma compareFrom_equal pa pb n : forall i,
  compareFrom pa pb i n = 0 <->
  forall j, (i <= j < i + n)%nat -> unordered pa pb j.
Proof.
  induction n as [|n IH]; intros i; cbn [compareFrom].
  - split; [intros _ j Hj; lia | reflexivity].
  - destruct (gtNum (partAt pa i) (partAt pb i)) eqn:Hg.
    + split; [discriminate |]. intros Hall.
      destruct (Hall i) as [Hgi _]; [lia | congruence].
    + destruct (ltNum (partAt pa i) (partAt pb i)) eqn:Hl.
      * split; [discriminate |]. intros Hall.
        destruct (Hall i) as [_ Hli]; [lia | congruence].
      * rewrite IH. split; intros Hall j Hj.
        -- destruct (decide (j = i)) as [-> | Hne];
             [split; assumption | apply Hall; lia].
        -- apply Hall. lia.
Qed.

Lemma compareFrom_range pa pb n : forall i,
  compareFrom pa pb i n = 1 \/ compareFrom pa pb i n = 0 \/
  compareFrom pa pb i n = -1.
Proof.
  induction n as [|n IH]; intros i; cbn [compareFrom]; [auto |].
  destruct (gtNum _ _); [auto |]. destruct (ltNum _ _); auto.
Qed.

Lemma partAt_missing (p : list Num) i : (length p <= i)%nat -> partAt p i = Finite 0.
Proof.
  intros Hi. unfold partAt. now rewrite (lookup_ge_None_2 p i Hi).
Qed.

Lemma partAt_parts a i seg :
  split "." a !! i = Some seg -> partAt (parts a) i = Number seg.
Proof.
  intros Hseg. unfold partAt, parts.
  now rewrite list_lookup_fmap, Hseg.
Qed.

(** C4, as stated, fails: a segment that is not numeric is not read as
    0.  In ["x.0.0"] the first segment gives NaN, which is neither
    greater nor less than 1, so the comparison with ["1.0.0"] goes on and
    returns 0, whereas ["0.0.0"] compared with ["1.0.0"] gives -1. *)
Lemma compareSemver_nan_is_not_zero :
  split "." "x.0.0" !! 0%nat = Some "x" /\
  Number "x" = NaN /\
  zeroSegment 0 "x.0.0" = "0.0.0" /\
  compareSemver "x.0.0" "1.0.0" = 0 /\
  compareSemver (zeroSegment 0 "x.0.0") "1.0.0" = -1.
Proof. repeat split. Qed.

(** C4, amended: [compareSemver] is total and returns 1, 0 or -1; each
    side is cut at the dots and every segment read with [Number], a
    missing segment counting as 0; major, minor and patch are compared in
    this order and the first index where one value is greater than the
    other decides; a segment that is not numeric gives NaN, which is
    neither greater nor less than any value, so its index decides
    nothing and the comparison goes on (it is not read as 0). *)
Theorem compareSemver_first_ordered_index (a b : string) :
  let pa := parts a in
  let pb := parts b in
  (compareSemver a b = 1 \/ compareSemver a b = 0 \/ compareSemver a b = -1) /\
  (forall i seg, split "." a !! i = Some seg -> partAt pa i = Number seg) /\
  (forall i, (length (split "." a) <= i)%nat -> partAt pa i = Finite 0) /\
  (compareSemver a b = 1 <->
     exists k, (k < 3)%nat /\ gtNum (partAt pa k) (partAt pb k) = true /\
               forall j, (j < k)%nat -> unordered pa pb j) /\
  (compareSemver a b = -1 <->
     exists k, (k < 3)%nat /\ ltNum (partAt pa k) (partAt pb k) = true /\
               forall j, (j < k)%nat -> unordered pa pb j) /\
  (compareSemver a b = 0 <-> forall j, (j < 3)%nat -> unordered pa pb j) /\
  (forall i, partAt pa i = NaN \/ partAt pb i = NaN -> unordered pa pb i).
Proof.
  intros pa pb. unfold compareSemver. fold pa pb.
  split; [apply compareFrom_range |].
  split; [intros i seg; apply partAt_parts |].
  split; [intros i Hi; apply partAt_missing; unfold pa, parts;
          now rewrite length_fmap |].
  split.
  { rewrite compareFrom_greater. split; intros (k & Hk & Hg & Hb);
      exists k; (split; [lia |]); (split; [exact Hg |]);
      intros j Hj; apply Hb; lia. }
  split.
  { rewrite compareFrom_less. split.
    - intros (k & Hk & Hg & Hl & Hb). exists k. split; [lia |].
      split; [exact Hl |]. intros j Hj; apply Hb; lia.
    - intros (k & Hk & Hl & Hb). exists k. split; [lia |].
      split; [| split; [exact Hl | intros j Hj; apply Hb; lia]].
      unfold gtNum. destruct (partAt pa k) as [| [|] | x],
        (partAt pb k) as [| [|] | y]; try reflexivity; try discriminate.
      cbn in Hl |- *. rewrite <- (Qcompare_antisym x y).
      destruct (Qcompare x y); try discriminate; reflexivity. }
  split.
  { rewrite compareFrom_equal. split; intros Hb j Hj; apply Hb; lia. }
  intros i [Hn | Hn]; unfold unordered, gtNum; rewrite Hn;
    split; auto using ltNum_NaN_l, ltNum_NaN_r.
Qed.

End SemverFacts.

(* ===================================================================== *)
(** * BackoffTracker and ShellRouter: properties *)
(* ===================================================================== *)

Module ShellFacts.
Import LocalStorage Shell.

Ltac storage_unfold :=
  unfold tryCatch, mbind, storage_bind, mret, storage_ret, bind, ret, throw,
         getItem, setItem, removeItem in *.

Lemma isInBackoff_readable now st :
  denied st = false ->
  isInBackoff now st =
    if JS.ltInt (failCount st) (Some MAX_FAILURES) then (Return false, st)
    else if JS.gtInt (JS.subInt (Some now) (failTimestamp st)) (Some BACKOFF_MS)
         then (Return false, resetCount st)
         else (Return true, st).
Proof.
  intros Hd. unfold isInBackoff, failCount, failTimestamp, resetCount.
  storage_unfold. rewrite Hd.
  destruct (JS.ltInt _ _); [reflexivity |].
  rewrite Hd.
  destruct (JS.gtInt _ _); [| reflexivity].
  rewrite Hd. reflexivity.
Qed.

Lemma isInBackoff_denied now st :
  denied st = true -> isInBackoff now st = (Return false, st).
Proof. intros Hd. unfold isInBackoff. storage_unfold. now rewrite Hd. Qed.

Lemma isInBackoff_returns now st :
  fst (isInBackoff now st) = Return true \/
  fst (isInBackoff now st) = Return false.
Proof.
  destruct (denied st) eqn:Hd.
  - rewrite isInBackoff_denied by assumption. now right.
  - rewrite isInBackoff_readable by assumption.
    destruct (JS.ltInt _ _); [now right |].
    destruct (JS.gtInt _ _); [now right | now left].
Qed.

Lemma readUseRemote_flag st : readUseRemote st = (Return (useRemoteFlag st), st).
Proof.
  unfold readUseRemote, useRemoteFlag. storage_unfold.
  destruct (denied st); [reflexivity |].
  destruct (items st !! OTA_USE_REMOTE) as [v |] eqn:Hv.
  - destruct (String.eqb_spec v "true") as [-> | Hne].
    + now rewrite bool_decide_eq_true_2.
    + rewrite bool_decide_eq_false_2; [reflexivity | congruence].
  - now rewrite bool_decide_eq_false_2.
Qed.

(** C3, as stated, fails at the end of the window: with three failures
    recorded at time 0, [isInBackoff] still answers true when 300000 ms
    have gone by, although [now - failTimestamp < 300000] is false. *)
Lemma isInBackoff_true_at_window_end :
  failCount threeFailures = Some 3 /\
  failTimestamp threeFailures = Some 0 /\
  ~ (300000 - 0 < BACKOFF_MS) /\
  isInBackoff 300000 threeFailures = (Return true, threeFailures).
Proof.
  split; [reflexivity |]. split; [reflexivity |].
  split; [unfold BACKOFF_MS; lia | vm_compute; reflexivity].
Qed.

(** C3, amended: on a store that can be read and whose two counters are
    absent or integers, [isInBackoff] answers true iff [failCount >= 3]
    and [now - failTimestamp <= 300000]; when [failCount >= 3] and
    [now - failTimestamp > 300000] it writes ["0"] to the fail count,
    nothing else, and answers false; in every other case it writes
    nothing. *)
Theorem isInBackoff_window (now : Z) (st : LocalStorage.t) (c t : Z) :
  denied st = false ->
  failCount st = Some c ->
  failTimestamp st = Some t ->
  (fst (isInBackoff now st) = Return true <-> 3 <= c /\ now - t <= 300000) /\
  (3 <= c -> 300000 < now - t ->
     isInBackoff now st = (Return false, resetCount st)) /\
  (~ (3 <= c /\ 300000 < now - t) -> snd (isInBackoff now st) = st).
Proof.
  intros Hd Hc Ht. rewrite isInBackoff_readable by assumption.
  rewrite Hc, Ht. unfold JS.gtInt, JS.ltInt, JS.subInt, MAX_FAILURES, BACKOFF_MS.
  destruct (Z.ltb_spec c 3) as [Hlt | Hge].
  - cbn [fst snd]. split; [split; [discriminate | lia] |].
    split; [lia | reflexivity].
  - destruct (Z.ltb_spec (5 * 60 * 1000) (now - t)) as [Hw | Hw]; cbn [fst snd].
    + split; [split; [discriminate | lia] |].
      split; [reflexivity | lia].
    + split; [split; [lia | reflexivity] |].
      split; [lia | reflexivity].
Qed.

Lemma isInBackoff_window_witness :
  denied threeFailures = false /\
  failCount threeFailures = Some 3 /\
  failTimestamp threeFailures = Some 0 /\
  (fst (isInBackoff 300000 threeFailures) = Return true <->
     3 <= 3 /\ 300000 - 0 <= 300000) /\
  (3 <= 3 -> 300000 < 300000 - 0 ->
     isInBackoff 300000 threeFailures = (Return false, resetCount threeFailures)) /\
  (~ (3 <= 3 /\ 300000 < 300000 - 0) ->
     snd (isInBackoff 300000 threeFailures) = threeFailures).
Proof.
  split; [reflexivity |]. split; [reflexivity |]. split; [reflexivity |].
  apply (isInBackoff_window 300000 threeFailures 3 0); reflexivity.
Defined.

(** Three failures in a row block the remote path, until the window
    has gone by. *)
Example three_failures_block :
  let st := snd (recordFailure 30
                   (snd (recordFailure 20
                           (snd (recordFailure 10 (mk ∅ false [])))))) in
  failCount st = Some 3 /\
  fst (isInBackoff 40 st) = Return true /\
  fst (isInBackoff 300031 st) = Return false.
Proof. vm_compute. repeat split. Qed.

(** A newer manifest and a pre-cache that succeeds: the flag is set, the
    version recorded, the counters removed. *)
Example runCheck_newer_version :
  let st := snd (OtaUpdater.runCheck
                   (OtaUpdater.Response true (OtaUpdater.Manifest (Some "1.2.3")))
                   true threeFailures) in
  items st !! OtaConfig.LS_USE_REMOTE = Some "true" /\
  items st !! OtaConfig.LS_REMOTE_VERSION = Some "1.2.3" /\
  items st !! OtaConfig.LS_FAIL_COUNT = None /\
  items st !! OtaConfig.LS_FAIL_TS = None.
Proof. vm_compute. repeat split. Qed.

(** A manifest that is not newer: the flag is removed. *)
Example runCheck_same_version :
  let st := snd (OtaUpdater.runCheck
                   (OtaUpdater.Response true (OtaUpdater.Manifest (Some "1.0.0")))
                   true threeFailures) in
  items st !! OtaConfig.LS_USE_REMOTE = None.
Proof. vm_compute. reflexivity. Qed.

(** ** The routing decision *)

Lemma decideRoute_eq onLine now st :
  decideRoute onLine now st =
    if negb (useRemoteFlag st) || negb (isOnline onLine) then (Return FastPath, st)
    else match isInBackoff now st with
         | (Return true, st') => (Return FastPath, st')
         | (Return false, st') => (Return RemotePath, st')
         | (Throw, st') => (Throw, st')
         end.
Proof.
  unfold decideRoute, mbind, storage_bind, bind.
  rewrite readUseRemote_flag.
  destruct (negb (useRemoteFlag st) || negb (isOnline onLine)); [reflexivity |].
  destruct (isInBackoff now st) as [[[|] |] st']; reflexivity.
Qed.

(** C1: the shell takes the fast path iff the flag cannot be read as
    ["true"], or the browser reports that it is offline, or
    [isInBackoff()] answers true; in every other case it takes the remote
    path.  On the fast path the page is replaced by the bundled one at
    once; on the remote path it stays and the frame is pointed at the
    remote origin. *)
Theorem fast_path_iff (onLine : option bool) (now : Z) (p : Page) :
  let st := storage p in
  let fast :=
    useRemoteFlag st = false \/ onLine = Some false \/
    fst (isInBackoff now st) = Return true in
  (fst (decideRoute onLine now st) = Return FastPath <-> fast) /\
  (fst (decideRoute onLine now st) = Return RemotePath <-> ~ fast) /\
  (fast -> location (start onLine now p) = IndexHtml /\
           frameSrc (start onLine now p) = frameSrc p) /\
  (~ fast -> location (start onLine now p) = location p /\
             frameSrc (start onLine now p) = Some REMOTE_APP_URL /\
             timer (start onLine now p) = Some IFRAME_TIMEOUT).
Proof.
  intros st fast. unfold start. fold st. rewrite decideRoute_eq.
  assert (Hon : isOnline onLine = false <-> onLine = Some false).
  { destruct onLine as [[|] |]; cbn; split; congruence. }
  subst fast.
  destruct (useRemoteFlag st) eqn:Hflag; cbn [negb orb].
  - destruct (isOnline onLine) eqn:Honl; cbn [negb].
    + assert (Hoff : onLine <> Some false)
        by (intros Heq; apply Hon in Heq; congruence).
      destruct (isInBackoff_returns now st) as [Hb | Hb];
        destruct (isInBackoff now st) as [r st'] eqn:Hrun;
        cbn [fst] in Hb; subst r; cbn [fst].
      * split; [split; auto |].
        split; [split; [discriminate | intros Hn; exfalso; apply Hn; auto] |].
        split; [intros _; split; reflexivity |].
        intros Hn; exfalso; apply Hn; auto.
      * assert (Hnot : ~ (true = false \/ onLine = Some false \/
                           Return false = Return true))
          by (intros [? | [? | ?]]; congruence).
        split; [split; [discriminate | intros Hf; exfalso; auto] |].
        split; [split; auto |].
        split; [intros Hf; exfalso; auto |].
        intros _. repeat split.
    + assert (Hoff : onLine = Some false) by (now apply Hon).
      cbn [fst].
      split; [split; auto |].
      split; [split; [discriminate | intros Hn; exfalso; apply Hn; auto] |].
      split; [intros _; split; reflexivity |].
      intros Hn; exfalso; apply Hn; auto.
  - cbn [fst].
    split; [split; auto |].
    split; [split; [discriminate | intros Hn; exfalso; apply Hn; auto] |].
    split; [intros _; split; reflexivity |].
    intros Hn; exfalso; apply Hn; auto.
Qed.

(** ** Who writes the two counters *)

Ltac run_storage :=
  storage_unfold;
  cbn [denied items journal snd fst storage location frameSrc settled timer
       loaderHidden hosting];
  rewrite <- ?app_assoc; rewrite ?drop_app_length, ?drop_all.

Lemma written_recordFailure now st :
  written (recordFailure now) st =
    if denied st then []
    else [SetItem OTA_FAIL_COUNT (JS.String_ (JS.addInt (failCount st) (Some 1)));
          SetItem OTA_FAIL_TS (JS.String_ (Some now))].
Proof.
  unfold written, recordFailure, failCount.
  destruct st as [it [|] j]; run_storage; reflexivity.
Qed.

Lemma written_clearFailures st :
  written clearFailures st =
    if denied st then [] else [RemoveItem OTA_FAIL_COUNT; RemoveItem OTA_FAIL_TS].
Proof.
  unfold written, clearFailures.
  destruct st as [it [|] j]; run_storage; reflexivity.
Qed.

Lemma written_isInBackoff now st :
  written (isInBackoff now) st = [] \/
  written (isInBackoff now) st = [SetItem OTA_FAIL_COUNT "0"].
Proof.
  unfold written. destruct (denied st) eqn:Hd.
  - rewrite isInBackoff_denied by assumption. left. cbn [snd]. apply drop_all.
  - rewrite isInBackoff_readable by assumption.
    destruct (JS.ltInt _ _); [left; cbn [snd]; apply drop_all |].
    destruct (JS.gtInt _ _); [right | left; cbn [snd]; apply drop_all].
    unfold resetCount. cbn [snd journal]. apply drop_app_length.
Qed.

Lemma written_runCheck f success st :
  together (written (OtaUpdater.runCheck f success) st).
Proof.
  unfold together, written, OtaUpdater.runCheck, OtaUpdater.checkVersion,
         OtaUpdater.afterPrecache.
  destruct st as [it d j].
  destruct f as [| [|] [| [[| ch v] |]]]; destruct d;
    try (run_storage; reflexivity).
  - destruct (OtaConfig.compareSemver (String ch v) OtaConfig.BUNDLED_VERSION <=? 0);
      run_storage; reflexivity.
  - destruct (OtaConfig.compareSemver (String ch v) OtaConfig.BUNDLED_VERSION <=? 0);
      run_storage; [reflexivity |].
    case_bool_decide; run_storage; [reflexivity |].
    destruct success; run_storage; reflexivity.
Qed.

(** C8, as stated, fails: the reset branch of [isInBackoff] writes the
    fail count and nothing else.  With three failures recorded at time 0
    and a call at time 300001, the only write is that of ["0"] to the
    fail count; the timestamp is neither written nor removed. *)
Lemma isInBackoff_resets_count_alone :
  written (isInBackoff 300001) threeFailures = [SetItem OTA_FAIL_COUNT "0"] /\
  touches OTA_FAIL_COUNT (written (isInBackoff 300001) threeFailures) = true /\
  touches OTA_FAIL_TS (written (isInBackoff 300001) threeFailures) = false /\
  ~ together (written (isInBackoff 300001) threeFailures).
Proof.
  assert (Hw : written (isInBackoff 300001) threeFailures =
               [SetItem OTA_FAIL_COUNT "0"]) by (vm_compute; reflexivity).
  unfold together. rewrite Hw.
  split; [reflexivity |]. split; [reflexivity |]. split; [reflexivity |].
  cbn. discriminate.
Qed.

(** C8, amended: [recordFailure], [clearFailures] and the checker (its
    success path included) write or remove the fail count and the fail
    timestamp together; [isInBackoff] is the exception: it writes nothing,
    or, in its reset branch, ["0"] to the fail count alone. *)
Theorem counters_written_together (now : Z) (f : OtaUpdater.Fetched)
    (success : bool) (st : LocalStorage.t) :
  together (written (recordFailure now) st) /\
  together (written clearFailures st) /\
  together (written (OtaUpdater.runCheck f success) st) /\
  (written (isInBackoff now) st = [] \/
   written (isInBackoff now) st = [SetItem OTA_FAIL_COUNT "0"]).
Proof.
  split; [| split; [| split]].
  - rewrite written_recordFailure. destruct (denied st); reflexivity.
  - rewrite written_clearFailures. destruct (denied st); reflexivity.
  - apply written_runCheck.
  - apply written_isInBackoff.
Qed.

(** ** settle *)

Lemma settled_fixed now s p :
  settled p = true -> timer p = None -> onSignal now s p = p.
Proof.
  intros Hs Ht. destruct s; unfold onSignal, settle; rewrite ?Ht, ?Hs; reflexivity.
Qed.

Lemma run_settled sigs : forall p,
  settled p = true -> timer p = None -> run sigs p = p.
Proof.
  induction sigs as [| [now s] rest IH]; intros p Hs Ht; [reflexivity |].
  cbn [run]. rewrite settled_fixed by assumption. now apply IH.
Qed.

Lemma settle_success now p :
  settled p = false -> denied (storage p) = false ->
  settle true now p =
    mkPage (cleared (storage p)) (location p) (frameSrc p) true None true
           (hosting p).
Proof.
  intros Hs Hd. destruct p as [[it d j] loc src stl tm lh ho].
  cbn in Hs, Hd. subst d stl.
  unfold settle, exec, withStorage, clearFailures, cleared.
  run_storage. reflexivity.
Qed.

Lemma settle_failure now p :
  settled p = false -> denied (storage p) = false ->
  settle false now p =
    mkPage (failed now (storage p)) IndexHtml (frameSrc p) true None
           (loaderHidden p) (hosting p).
Proof.
  intros Hs Hd. destruct p as [[it d j] loc src stl tm lh ho].
  cbn in Hs, Hd. subst d stl.
  unfold settle, exec, withStorage, goToBundled, recordFailure, failed, failCount.
  run_storage. reflexivity.
Qed.

Lemma orElse_stringOfInt n :
  orElse (Some (JS.stringOfInt n)) "0" = JS.stringOfInt n.
Proof.
  pose proof (JSFacts.stringOfInt_nonempty n) as Hn.
  unfold orElse. destruct (JS.stringOfInt n); [congruence | reflexivity].
Qed.

(** One more failure than before, dated [now], and no flag. *)
Lemma failCount_failed now st c :
  failCount st = Some c ->
  failCount (failed now st) = Some (c + 1) /\
  failTimestamp (failed now st) = Some now /\
  useRemoteFlag (failed now st) = false.
Proof.
  intros Hc.
  assert (Hit : items (failed now st) =
            delete OTA_USE_REMOTE
              (<[OTA_FAIL_TS := JS.stringOfInt now]>
                 (<[OTA_FAIL_COUNT := JS.stringOfInt (c + 1)]> (items st)))).
  { unfold failed. rewrite Hc. reflexivity. }
  unfold failCount at 1, failTimestamp, useRemoteFlag. rewrite Hit.
  split; [| split].
  - rewrite lookup_delete_ne by discriminate.
    rewrite lookup_insert_ne by discriminate.
    rewrite lookup_insert_eq, orElse_stringOfInt.
    apply JSFacts.parseInt_stringOfInt.
  - rewrite lookup_delete_ne by discriminate.
    rewrite lookup_insert_eq, orElse_stringOfInt.
    apply JSFacts.parseInt_stringOfInt.
  - rewrite lookup_delete_eq. reflexivity.
Qed.

(** On a page that waits for its frame, with a store that can be
    written, the first signal decides and the later ones change
    nothing. *)
Lemma settle_first_signal (now : Z) (s : Signal) (rest : list (Z * Signal))
    (p : Page) :
  settled p = false ->
  timer p = Some IFRAME_TIMEOUT ->
  denied (storage p) = false ->
  run ((now, s) :: rest) p =
    match s with
    | FrameLoad =>
        mkPage (cleared (storage p)) (location p) (frameSrc p) true None true
               (hosting p)
    | FrameError | TimerFires =>
        mkPage (failed now (storage p)) IndexHtml (frameSrc p) true None
               (loaderHidden p) (hosting p)
    end /\
  (items (cleared (storage p)) !! OTA_FAIL_COUNT = None /\
   items (cleared (storage p)) !! OTA_FAIL_TS = None /\
   items (cleared (storage p)) !! OTA_USE_REMOTE =
     items (storage p) !! OTA_USE_REMOTE) /\
  (forall c, failCount (storage p) = Some c ->
     failCount (failed now (storage p)) = Some (c + 1) /\
     failTimestamp (failed now (storage p)) = Some now) /\
  (forall onLine now',
     fst (decideRoute onLine now' (failed now (storage p))) = Return FastPath).
Proof.
  intros Hs Ht Hd. split; [| split; [| split]].
  - cbn [run]. destruct s; unfold onSignal; rewrite ?Ht.
    + rewrite settle_success by assumption. now apply run_settled.
    + rewrite settle_failure by assumption. now apply run_settled.
    + rewrite settle_failure by assumption. now apply run_settled.
  - unfold cleared. cbn [items].
    rewrite lookup_delete_ne, lookup_delete_eq by discriminate.
    rewrite lookup_delete_eq.
    rewrite !lookup_delete_ne by discriminate. auto.
  - intros c Hc. destruct (failCount_failed now _ c Hc) as (H1 & H2 & _). auto.
  - intros onLine now'. rewrite decideRoute_eq.
    assert (Hflag : useRemoteFlag (failed now (storage p)) = false)
      by (unfold useRemoteFlag, failed; cbn [denied items];
          now rewrite lookup_delete_eq).
    rewrite Hflag. reflexivity.
Qed.

(** On the remote path the page waits for its frame and its store can
    be written. *)
Lemma start_remote onLine t0 p :
  fst (decideRoute onLine t0 (storage p)) = Return RemotePath ->
  settled (start onLine t0 p) = false /\
  timer (start onLine t0 p) = Some IFRAME_TIMEOUT /\
  denied (storage (start onLine t0 p)) = false /\
  location (start onLine t0 p) = location p /\
  frameSrc (start onLine t0 p) = Some REMOTE_APP_URL /\
  hosting (start onLine t0 p) = true.
Proof.
  unfold start. rewrite decideRoute_eq.
  destruct (useRemoteFlag (storage p)) eqn:Hflag; cbn [negb orb]; [| discriminate].
  destruct (isOnline onLine); cbn [negb]; [| discriminate].
  assert (Hd : denied (storage p) = false).
  { unfold useRemoteFlag in Hflag. destruct (denied (storage p)); congruence. }
  rewrite (isInBackoff_readable t0 _ Hd).
  destruct (JS.ltInt _ _); cbn [fst].
  - intros _. cbn. repeat split; auto.
  - destruct (JS.gtInt _ _); cbn [fst]; [| discriminate].
    intros _. cbn. repeat split; auto.
Qed.

(** C2: on the remote path the first signal decides and the later ones
    change nothing.  If it is the load of the frame, the page stays, the
    frame is kept and the two counters are removed.  If it is the timer
    or an error of the frame, exactly one failure is recorded (the count
    goes up by one, the timestamp is the time of the signal), the flag
    is removed, so that the next open takes the fast path, and the page
    is replaced by the bundled one. *)
Theorem settle_once (onLine : option bool) (t0 now : Z) (s : Signal)
    (rest : list (Z * Signal)) (p : Page) :
  fst (decideRoute onLine t0 (storage p)) = Return RemotePath ->
  let q := start onLine t0 p in
  run ((now, s) :: rest) q =
    match s with
    | FrameLoad =>
        mkPage (cleared (storage q)) (location p) (Some REMOTE_APP_URL) true
               None true true
    | FrameError | TimerFires =>
        mkPage (failed now (storage q)) IndexHtml (Some REMOTE_APP_URL) true
               None (loaderHidden q) true
    end /\
  (items (cleared (storage q)) !! OTA_FAIL_COUNT = None /\
   items (cleared (storage q)) !! OTA_FAIL_TS = None /\
   items (cleared (storage q)) !! OTA_USE_REMOTE =
     items (storage q) !! OTA_USE_REMOTE) /\
  journal (storage (run ((now, s) :: rest) q)) =
    (journal (storage q) ++
     match s with
     | FrameLoad => [RemoveItem OTA_FAIL_COUNT; RemoveItem OTA_FAIL_TS]
     | FrameError | TimerFires =>
         [SetItem OTA_FAIL_COUNT
            (JS.String_ (JS.addInt (failCount (storage q)) (Some 1)));
          SetItem OTA_FAIL_TS (JS.String_ (Some now));
          RemoveItem OTA_USE_REMOTE]
     end)%list /\
  (forall c, failCount (storage q) = Some c ->
     failCount (failed now (storage q)) = Some (c + 1) /\
     failTimestamp (failed now (storage q)) = Some now) /\
  (forall onLine' now',
     fst (decideRoute onLine' now' (failed now (storage q))) = Return FastPath).
Proof.
  intros Hremote q.
  destruct (start_remote onLine t0 p Hremote)
    as (Hs & Ht & Hd & Hloc & Hsrc & Hhost).
  fold q in Hs, Ht, Hd, Hloc, Hsrc, Hhost.
  destruct (settle_first_signal now s rest q Hs Ht Hd)
    as (Hrun & Hclear & Hcount & Hnext).
  rewrite Hloc, Hsrc, Hhost in Hrun.
  split; [exact Hrun |]. split; [exact Hclear |].
  split; [| split; [exact Hcount | exact Hnext]].
  rewrite Hrun. destruct s; reflexivity.
Qed.

Lemma settle_once_witness :
  fst (decideRoute (Some true) 1000 (storage flaggedPage)) = Return RemotePath /\
  run [(1800, TimerFires); (1810, FrameLoad); (1820, FrameError)]
      (start (Some true) 1000 flaggedPage) =
    mkPage (failed 1800 (storage (start (Some true) 1000 flaggedPage)))
           IndexHtml (Some REMOTE_APP_URL) true None
           (loaderHidden (start (Some true) 1000 flaggedPage)) true.
Proof.
  assert (Hremote : fst (decideRoute (Some true) 1000 (storage flaggedPage)) =
                    Return RemotePath) by (vm_compute; reflexivity).
  split; [exact Hremote |].
  pose proof (settle_once (Some true) 1000 1800 TimerFires
                [(1810, FrameLoad); (1820, FrameError)] flaggedPage Hremote)
    as Honce.
  cbv zeta in Honce. destruct Honce as [Hrun _]. exact Hrun.
Defined.



End ShellFacts.

(* ===================================================================== *)
(** * StorageBridgeClient and host: properties *)
(* ===================================================================== *)

Module BridgeFacts.
Import Wire Client.

Section ClientFacts.
Context {V : Type}.
Implicit Types c : Client.t V.

Lemma wellFormed_create : wellFormed (@create V).
Proof.
  split; cbn; intros.
  - rewrite lookup_empty in *. discriminate.
  - rewrite lookup_empty in *. discriminate.
  - apply lookup_empty.
Qed.

Lemma wellFormed_register c u k m :
  wellFormed c -> promiseOf k = nextPromise c -> wellFormed (register u k m c).
Proof.
  intros [Ho Hd Hf] Hk. split; cbn [register pending resolved nextPromise].
  - intros i k0 Hi. destruct (decide (i = u)) as [-> | Hne].
    + rewrite lookup_insert_eq in Hi. injection Hi as <-. rewrite Hk.
      split; [apply Hf; lia | lia].
    + rewrite lookup_insert_ne in Hi by congruence.
      destruct (Ho i k0 Hi). split; [assumption | lia].
  - intros i j k1 k2 Hi Hj Hij.
    destruct (decide (i = u)) as [-> | Hni].
    + rewrite lookup_insert_eq in Hi. injection Hi as <-.
      rewrite lookup_insert_ne in Hj by congruence.
      destruct (Ho j k2 Hj). lia.
    + rewrite lookup_insert_ne in Hi by congruence.
      destruct (decide (j = u)) as [-> | Hnj].
      * rewrite lookup_insert_eq in Hj. injection Hj as <-.
        destruct (Ho i k1 Hi). lia.
      * rewrite lookup_insert_ne in Hj by congruence. eauto.
  - intros p Hp. apply Hf. lia.
Qed.

Lemma wellFormed_get c u ks : wellFormed c -> wellFormed (snd (get u ks c)).
Proof. intros Hw. apply wellFormed_register; [assumption | reflexivity]. Qed.

Lemma wellFormed_set c u d : wellFormed c -> wellFormed (snd (set u d c)).
Proof. intros Hw. apply wellFormed_register; [assumption | reflexivity]. Qed.

Lemma respond_known c i k d :
  wellFormed c -> pending c !! i = Some k ->
  respond (Some i) d c =
    mk (delete i (pending c)) (ready c) (readyPromise c) (changeListeners c)
       (listening c) (<[promiseOf k := passed k d]> (resolved c))
       (nextPromise c) (posted c) (delivered c).
Proof.
  intros [Ho _ _] Hi. unfold respond. rewrite Hi.
  destruct (Ho i k Hi) as [Hopen _].
  destruct k as [p | p]; cbn [invoke passed promiseOf] in *; unfold fulfil;
    rewrite Hopen; reflexivity.
Qed.

Lemma respond_unknown c i d : pending c !! i = None -> respond (Some i) d c = c.
Proof. intros Hi. unfold respond. now rewrite Hi. Qed.

Lemma wellFormed_respond c oi d : wellFormed c -> wellFormed (respond oi d c).
Proof.
  intros Hw. destruct oi as [i |]; [| exact Hw].
  destruct (pending c !! i) as [k |] eqn:Hi;
    [| rewrite respond_unknown by assumption; exact Hw].
  rewrite (respond_known c i k d Hw Hi). destruct Hw as [Ho Hd Hf].
  split; cbn [pending resolved nextPromise].
  - intros j k' Hj. destruct (decide (i = j)) as [-> | Hne].
    + rewrite lookup_delete_eq in Hj. discriminate.
    + rewrite lookup_delete_ne in Hj by assumption.
      destruct (Ho j k' Hj) as [Hopen Hlt]. split; [| exact Hlt].
      rewrite lookup_insert_ne; [exact Hopen |].
      apply (Hd i j k k' Hi Hj Hne).
  - intros j1 j2 k1 k2 H1 H2 Hne.
    destruct (decide (i = j1)) as [-> | Hn1];
      [rewrite lookup_delete_eq in H1; discriminate |].
    destruct (decide (i = j2)) as [-> | Hn2];
      [rewrite lookup_delete_eq in H2; discriminate |].
    rewrite lookup_delete_ne in H1, H2 by assumption. eauto.
  - intros p Hp. destruct (Ho i k Hi) as [_ Hlt].
    rewrite lookup_insert_ne by lia. now apply Hf.
Qed.

Lemma wellFormed_handleMessage c e :
  wellFormed c -> wellFormed (handleMessage e c).
Proof.
  intros Hw. unfold handleMessage.
  case_bool_decide; [exact Hw |].
  destruct (payload e) as [msg |]; [| exact Hw].
  destruct (String.eqb _ _); [destruct Hw; split; assumption |].
  destruct (String.eqb _ _); [now apply wellFormed_respond |].
  destruct (String.eqb _ _); [now apply wellFormed_respond |].
  destruct (String.eqb _ _); [destruct Hw; split; assumption | exact Hw].
Qed.

(** Every state a client goes through is well formed. *)
Lemma reachable_wellFormed c : reachable c -> wellFormed c.
Proof.
  induction 1 as [| c u ks _ IH | c u d _ IH | c l _ IH | c l _ IH
                  | c e _ IH | c _ IH].
  - apply wellFormed_create.
  - now apply wellFormed_get.
  - now apply wellFormed_set.
  - destruct IH; split; assumption.
  - destruct IH; split; assumption.
  - unfold dispatch. destruct (listening c);
      [now apply wellFormed_handleMessage | exact IH].
  - destruct IH as [Ho Hd Hf]. split; cbn [destroy pending resolved nextPromise].
    + intros i k Hi. rewrite lookup_empty in Hi. discriminate.
    + intros i j k k' Hi. rewrite lookup_empty in Hi. discriminate.
    + exact Hf.
Qed.

Lemma handleMessage_response c e msg d :
  source e = ParentWindow -> payload e = Some msg -> isResponse msg d ->
  handleMessage e c = respond (id msg) d c.
Proof.
  intros Hsrc Hmsg Hresp. unfold handleMessage.
  rewrite bool_decide_eq_false_2 by (rewrite Hsrc; auto).
  rewrite Hmsg. destruct Hresp as [[-> ->] | [-> ->]]; reflexivity.
Qed.

(** The source guard of the client. *)
Lemma client_drops_other_sources c e :
  source e <> ParentWindow -> handleMessage e c = c /\ dispatch e c = c.
Proof.
  intros Hsrc. assert (Hh : handleMessage e c = c).
  { unfold handleMessage. now rewrite bool_decide_eq_true_2. }
  split; [exact Hh |]. unfold dispatch. rewrite Hh. now destruct (listening c).
Qed.

(** C5: a response accepted by the client, carrying the id [i].  If [i]
    is in the pending table, the function stored under [i] is called with
    the data of the response, which settles its promise and no other; the
    entry is removed; the other entries stay, their promises still open;
    a second response with the same id changes nothing.  If [i] is not in
    the table, nothing changes at all. *)
Theorem response_settles_its_own_request c (e : MessageEvent V)
    (msg : Message V) (d : Data V) (i : string) :
  wellFormed c ->
  source e = ParentWindow ->
  payload e = Some msg ->
  isResponse msg d ->
  id msg = Some i ->
  (forall k, pending c !! i = Some k ->
     let c' := handleMessage e c in
     pending c' = delete i (pending c) /\
     resolved c' !! promiseOf k = Some (passed k d) /\
     (forall p, p <> promiseOf k -> resolved c' !! p = resolved c !! p) /\
     (forall j k', j <> i -> pending c !! j = Some k' ->
        pending c' !! j = Some k' /\ resolved c' !! promiseOf k' = None) /\
     (forall e' msg' d',
        source e' = ParentWindow -> payload e' = Some msg' ->
        isResponse msg' d' -> id msg' = Some i ->
        handleMessage e' c' = c')) /\
  (pending c !! i = None -> handleMessage e c = c).
Proof.
  intros Hw Hsrc Hmsg Hresp Hid.
  rewrite (handleMessage_response c e msg d Hsrc Hmsg Hresp), Hid.
  split; [| apply respond_unknown].
  intros k Hk. cbn zeta. rewrite (respond_known c i k d Hw Hk).
  cbn [pending resolved].
  split; [reflexivity |].
  split; [apply lookup_insert_eq |].
  split; [intros p Hp; now rewrite lookup_insert_ne |].
  split.
  - intros j k' Hji Hj. rewrite lookup_delete_ne by congruence.
    split; [exact Hj |].
    rewrite lookup_insert_ne.
    + apply (pending_open c Hw j k' Hj).
    + apply (pending_distinct c Hw i j k k' Hk Hj). congruence.
  - intros e' msg' d' Hsrc' Hmsg' Hresp' Hid'.
    rewrite (handleMessage_response _ e' msg' d' Hsrc' Hmsg' Hresp'), Hid'.
    apply respond_unknown. cbn [pending]. apply lookup_delete_eq.
Qed.

End ClientFacts.

Lemma response_settles_its_own_request_witness :
  wellFormed Sample.twoInFlight /\
  source Sample.responseB = ParentWindow /\
  resolved (handleMessage Sample.responseB Sample.twoInFlight) !! 1%nat =
    Some Sample.dataB /\
  resolved (handleMessage Sample.responseB Sample.twoInFlight) !! 0%nat = None /\
  pending (handleMessage Sample.responseB Sample.twoInFlight) !! "a" =
    Some (Resolve 0).
Proof.
  assert (Hw : wellFormed Sample.twoInFlight)
    by (apply wellFormed_get, wellFormed_get, wellFormed_create).
  assert (Hb : pending Sample.twoInFlight !! "b" = Some (Resolve 1))
    by (vm_compute; reflexivity).
  assert (Ha : pending Sample.twoInFlight !! "a" = Some (Resolve 0))
    by (vm_compute; reflexivity).
  assert (Hne : "a" <> "b") by discriminate.
  pose proof (response_settles_its_own_request Sample.twoInFlight
                Sample.responseB Sample.messageB Sample.dataB "b" Hw
                eq_refl eq_refl (or_introl (conj eq_refl eq_refl)) eq_refl)
    as [Hknown _].
  pose proof (Hknown (Resolve 1) Hb) as Hk. cbv zeta in Hk.
  destruct Hk as (_ & Hres & _ & Hother & _).
  pose proof (Hother "a" (Resolve 0) Hne Ha) as [Hp Hr].
  split; [exact Hw |]. split; [reflexivity |].
  split; [exact Hres |]. 
  split; [exact Hr | exact Hp].
Defined.

(** ** The host *)

Section HostFacts.
Context `{Json V}.

(** The source guard of the host. *)
Lemma host_drops_other_sources (e : MessageEvent V) (h : Host.t V) :
  source e <> FrameWindow -> Host.onMessage e h = h.
Proof. intros Hsrc. unfold Host.onMessage. now rewrite bool_decide_eq_true_2. Qed.

(** The host never looks at the origin of a message. *)
Lemma host_ignores_origin w o1 o2 (m : option (Message V)) (h : Host.t V) :
  Host.onMessage (mkEvent w o1 m) h = Host.onMessage (mkEvent w o2 m) h.
Proof. reflexivity. Qed.

End HostFacts.

(** C9 at the failing input: a write request that reaches the host
    through the frame from a document whose origin is not the remote
    origin is served: the value is written and an acknowledgment is
    posted back. *)
Theorem host_serves_foreign_origin :
  origin Sample.foreignSet <> Shell.REMOTE_APP_URL /\
  source Sample.foreignSet = FrameWindow /\
  Host.sent (Host.onMessage Sample.foreignSet Sample.plainHost) =
    [Host.ackMessage (Some "1")] /\
  LocalStorage.items
    (Host.storage (Host.onMessage Sample.foreignSet Sample.plainHost))
    !! "app_settings" = Some "7" /\
  Host.onMessage Sample.foreignSet Sample.plainHost <> Sample.plainHost.
Proof.
  split; [discriminate |]. split; [reflexivity |].
  assert (Hsent : Host.sent (Host.onMessage Sample.foreignSet Sample.plainHost) =
                  [Host.ackMessage (Some "1")]) by (vm_compute; reflexivity).
  split; [exact Hsent |].
  split; [vm_compute; reflexivity |].
  intros Heq. apply (f_equal Host.sent) in Heq. rewrite Hsent in Heq.
  vm_compute in Heq. discriminate Heq.
Qed.

End BridgeFacts.

(* ===================================================================== *)
(** * PersistentStateStore: properties *)
(* ===================================================================== *)

Module StorageFacts.
Import Wire UseStorage.

Section WithJson.
Context `{Json V}.
Implicit Types (p : Process V) (r : Run V) (h : Hook V).

(** ** The handshake *)

Lemma readyPromise_dispatch (e : MessageEvent V) (c : Client.t V) :
  Client.readyPromise c = true -> Client.readyPromise (Client.dispatch e c) = true.
Proof.
  intros Hr. unfold Client.dispatch, Client.handleMessage.
  destruct (Client.listening c); [| exact Hr].
  case_bool_decide; [exact Hr |].
  destruct (payload e) as [msg |]; [| exact Hr].
  destruct (String.eqb _ _); [reflexivity |].
  assert (Hresp : forall i d, Client.readyPromise (Client.respond i d c) = true).
  { intros [i |] d; unfold Client.respond; [| exact Hr].
    destruct (Client.pending c !! i) as [k |]; [| exact Hr].
    cbn [Client.readyPromise]. destruct k; unfold Client.invoke, Client.fulfil;
      destruct (Client.resolved c !! _); exact Hr. }
  destruct (String.eqb _ _); [apply Hresp |].
  destruct (String.eqb _ _); [apply Hresp |].
  destruct (String.eqb _ _); exact Hr.
Qed.

Lemma racing_ensureBridge p : _bridgeReady p = None -> racing (ensureBridge p).
Proof.
  intros Hb. unfold ensureBridge, racing, acknowledged, getStorageBridgeClient.
  rewrite Hb. destruct (_client p) as [c |] eqn:Hc; cbn.
  - rewrite Hc. split; [reflexivity |].
    destruct (Client.readyPromise c); auto.
  - split; [reflexivity |]. auto.
Qed.

Lemma racing_apply o p :
  o <> OpHandshakeTimer -> racing p -> racing (apply o p).
Proof.
  intros Ho [Ht Hr]. unfold racing, acknowledged in *.
  destruct o; cbn [apply]; try congruence.
  - unfold getStrategy. destruct (_strategy p); cbn; auto.
  - unfold ensureBridge. destruct Hr as [Hr | [Hr Hack]]; rewrite Hr; auto.
  - unfold onMessage.
    destruct (_client p) as [c |] eqn:Hc; [| rewrite Hc; auto].
    cbn. split; [exact Ht |].
    destruct Hr as [-> | [-> Hack]].
    + destruct (Client.readyPromise (Client.dispatch e c)) eqn:Hd; auto.
    + right. split; [reflexivity |]. now apply readyPromise_dispatch.
  - unfold storageGet, getStorageBridgeClient.
    destruct strategy; cbn.
    + auto.
    + destruct (_client p) as [c |] eqn:Hc; cbn; split; auto;
        destruct Hr as [Hr | [Hr Hack]]; auto; discriminate.
    + destruct (readLocal key (localStorage p)); cbn. auto.
  - unfold storageSet, getStorageBridgeClient.
    destruct strategy; cbn.
    + auto.
    + destruct (_client p) as [c |] eqn:Hc; cbn; split; auto;
        destruct Hr as [Hr | [Hr Hack]]; auto; discriminate.
    + auto.
Qed.

Lemma racing_applyAll ops : forall p,
  Forall (fun o => o <> OpHandshakeTimer) ops -> racing p -> racing (applyAll ops p).
Proof.
  induction ops as [| o ops IH]; intros p Hall Hr; [exact Hr |].
  inversion Hall; subst. cbn. apply IH; [assumption |]. now apply racing_apply.
Qed.

Lemma downgraded_apply o p : downgraded p -> downgraded (apply o p).
Proof.
  intros [Hb Hs]. unfold downgraded. destruct o; cbn [apply].
  - unfold getStrategy. rewrite Hs. auto.
  - unfold ensureBridge. rewrite Hb. auto.
  - unfold onMessage. destruct (_client p); cbn; [rewrite Hb |]; auto.
  - unfold onHandshakeTimer. destruct (handshakeTimer p); [| auto].
    rewrite Hb. cbn. auto.
  - unfold storageGet, getStorageBridgeClient. destruct strategy; cbn; auto.
    + destruct (_client p); cbn; auto.
    + destruct (readLocal key (localStorage p)); cbn; auto.
  - unfold storageSet, getStorageBridgeClient. destruct strategy; cbn; auto.
    destruct (_client p); cbn; auto.
Qed.

Lemma downgraded_applyAll ops : forall p, downgraded p -> downgraded (applyAll ops p).
Proof.
  induction ops as [| o ops IH]; intros p Hd; [exact Hd |].
  cbn. apply IH. now apply downgraded_apply.
Qed.

(** C6: [ensureBridge] is called for the first time; the 500 ms timer of
    [waitForReady] then fires before the client has taken an
    acknowledgment.  [waitForReady] rejects, the promise of
    [ensureBridge] resolves to false and the strategy becomes local;
    whatever runs afterwards in the process, an acknowledgment that
    comes late included, the strategy stays local and [ensureBridge]
    keeps answering false. *)
Theorem handshake_timeout_downgrades p (before after : list (Op V)) :
  _bridgeReady p = None ->
  Forall (fun o => o <> OpHandshakeTimer) before ->
  acknowledged (applyAll before (ensureBridge p)) = false ->
  let q := onHandshakeTimer (applyAll before (ensureBridge p)) in
  _bridgeReady q = Some (Resolved false) /\
  _strategy q = Some Local /\
  _bridgeReady (applyAll after q) = Some (Resolved false) /\
  _strategy (applyAll after q) = Some Local /\
  fst (getStrategy (applyAll after q)) = Local.
Proof.
  intros Hb Hbefore Hack q.
  assert (Hq : downgraded q).
  { destruct (racing_applyAll before (ensureBridge p) Hbefore
                (racing_ensureBridge p Hb)) as [Ht Hr].
    subst q. unfold onHandshakeTimer, downgraded. rewrite Ht.
    destruct Hr as [-> | [_ Hyes]]; [cbn; auto | congruence]. }
  destruct Hq as [Hq1 Hq2].
  destruct (downgraded_applyAll after q (conj Hq1 Hq2)) as [Ha1 Ha2].
  repeat split; try assumption.
  unfold getStrategy. now rewrite Ha2.
Qed.

(** ** The load *)

Lemma complete_cancelled o h : complete o true h = h.
Proof. unfold complete. destruct o; reflexivity. Qed.

Lemma storageGet_not_finished key s u p :
  fst (storageGet key s u p) <> Finished.
Proof.
  unfold storageGet. destruct s; cbn; try discriminate.
  - destruct (getStorageBridgeClient p). cbn. discriminate.
  - destruct (readLocal key (localStorage p)). cbn. discriminate.
Qed.


Lemma consistent_unfinished init p r h :
  stage r <> Finished -> h = render init -> readOutcome r = None ->
  consistent init (p, r, h).
Proof. intros Hs Hh Ho. unfold consistent. destruct (stage r); try easy. Qed.

Lemma consistent_usePersistentState key init u p :
  consistent init (usePersistentState key init u p).
Proof.
  unfold usePersistentState, loadStart. destruct (getStrategy p) as [s p1].
  case_bool_decide.
  - cbn. auto.
  - destruct (storageGet key s u p1) as [stg p2] eqn:Hg.
    apply consistent_unfinished; cbn; auto.
    change stg with (fst (stg, p2)). rewrite <- Hg. apply storageGet_not_finished.
Qed.

Lemma consistent_finish init o p r h :
  stage r <> Finished -> h = render init ->
  consistent init (p, fst (finish o r h), snd (finish o r h)).
Proof.
  intros Hs ->. unfold finish, consistent. cbn.
  exists o. split; [reflexivity |].
  destruct (cancelled r); [right | now left].
  split; [reflexivity | apply complete_cancelled].
Qed.

Lemma consistent_step key init ev x :
  consistent init x -> consistent init (step key ev x).
Proof.
  destruct x as [[p r] h]. intros Hc. destruct ev as [e | | w u |]; cbn [step].
  - exact Hc.
  - exact Hc.
  - unfold resume. unfold consistent in Hc.
    destruct (stage r) eqn:Hs.
    + destruct w; [unfold consistent; now rewrite Hs |].
      destruct (_bridgeReady p) as [[| ok] |];
        try (unfold consistent; now rewrite Hs).
      destruct (storageGet key (if ok then Bridge else Local) u p) as [stg p'] eqn:Hg.
      destruct Hc as [Hh Ho].
      apply consistent_unfinished; cbn; auto.
      change stg with (fst (stg, p')). rewrite <- Hg. apply storageGet_not_finished.
    + destruct w; [| unfold consistent; now rewrite Hs].
      destruct Hc as [Hh Ho].
      apply (consistent_finish init _ p r h); [congruence | assumption].
    + destruct w; [unfold consistent; now rewrite Hs |].
      destruct (_client p ≫= _) as [d |]; [| unfold consistent; now rewrite Hs].
      destruct Hc as [Hh Ho].
      apply (consistent_finish init _ p r h); [congruence | assumption].
    + destruct w; [unfold consistent; now rewrite Hs |].
      destruct Hc as [Hh Ho].
      apply (consistent_finish init _ p r h); [congruence | assumption].
    + destruct w; unfold consistent; now rewrite Hs.
  - unfold consistent in *. cbn [teardown stage readOutcome cancelled].
    destruct (stage r); try exact Hc.
    destruct Hc as (o & Ho & [Hh | [Hcan Hh]]); exists o; (split; [exact Ho |]).
    + now left.
    + right. now split.
Qed.

Lemma consistent_steps key init evs : forall x,
  consistent init x -> consistent init (steps key evs x).
Proof.
  induction evs as [| ev evs IH]; intros x Hx; [exact Hx |].
  cbn. apply IH. now apply consistent_step.
Qed.









(** ** Local strategy *)



Lemma freshLoad_local key init u p :
  _strategy p = Some Local ->
  freshLoad key init u p =
    let '(o, st) := readLocal key (localStorage p) in
    (setLocalStorage st p, mkRun false Finished (Some o),
     complete o false (render init)).
Proof.
  intros Hs. unfold freshLoad, usePersistentState, loadStart, getStrategy. rewrite Hs.
  rewrite bool_decide_eq_false_2 by discriminate.
  unfold storageGet. destruct (readLocal key (localStorage p)) as [o st].
  reflexivity.
Qed.



End WithJson.

Lemma handshake_timeout_downgrades_witness :
  _bridgeReady Sample.framedBridge = None /\
  _strategy Sample.framedBridge = Some Bridge /\
  acknowledged (applyAll [] (ensureBridge Sample.framedBridge)) = false /\
  _strategy
    (applyAll [OpMessage Sample.readyAck; OpGetStrategy; OpEnsureBridge]
       (onHandshakeTimer (applyAll [] (ensureBridge Sample.framedBridge)))) =
    Some Local.
Proof.
  split; [reflexivity |]. split; [reflexivity |]. split; [reflexivity |].
  pose proof (handshake_timeout_downgrades Sample.framedBridge []
                [OpMessage Sample.readyAck; OpGetStrategy; OpEnsureBridge]
                eq_refl ltac:(constructor) eq_refl) as Hdown.
  cbv zeta in Hdown. destruct Hdown as (_ & _ & _ & Hlocal & _).
  exact Hlocal.
Defined.



End StorageFacts.

(* ===================================================================== *)
(** * Further facts about compareSemver *)
(* ===================================================================== *)

Module SemverMore.
Import JS OtaConfig JSFacts SemverFacts Versions Doubles.

Lemma ltNum_irrefl v : ltNum v v = false.
Proof.
  destruct v as [| [|] | x]; try reflexivity.
  cbn. now rewrite (proj1 (Qeq_alt x x) (Qeq_refl x)).
Qed.

Lemma ltNum_asym a b : ltNum a b = true -> ltNum b a = false.
Proof.
  destruct a as [| [|] | x], b as [| [|] | y]; try reflexivity; try discriminate.
  cbn. rewrite <- (Qcompare_antisym x y).
  destruct (Qcompare x y); cbn; congruence.
Qed.

Lemma compareFrom_swap pa pb n : forall i,
  compareFrom pb pa i n = - compareFrom pa pb i n.
Proof.
  induction n as [| n IH]; intros i; cbn [compareFrom]; [reflexivity |].
  unfold gtNum.
  destruct (ltNum (partAt pb i) (partAt pa i)) eqn:Hg.
  - rewrite (ltNum_asym _ _ Hg). reflexivity.
  - destruct (ltNum (partAt pa i) (partAt pb i)) eqn:Hl; [reflexivity | apply IH].
Qed.

Lemma compareFrom_same pa n : forall i, compareFrom pa pa i n = 0.
Proof.
  induction n as [| n IH]; intros i; cbn [compareFrom]; [reflexivity |].
  unfold gtNum. rewrite ltNum_irrefl. apply IH.
Qed.

(** X1: [compareSemver] answers 0 on a version and itself, and swapping
    its two arguments negates its answer; this holds for every pair of
    strings, segments that are not numbers included. *)
Theorem compareSemver_antisymmetric (a b : string) :
  compareSemver a a = 0 /\ compareSemver b a = - compareSemver a b.
Proof.
  unfold compareSemver. split; [apply compareFrom_same | apply compareFrom_swap].
Qed.

Lemma digitChar_not_dot d : isDigit d -> Ascii.eqb (digitChar d) "." = false.
Proof. intros Hd. digit_cases d Hd; reflexivity. Qed.

Lemma charsOf_append dl s : charsOf dl s = charsOf dl EmptyString ++ s.
Proof. induction dl as [| d r IH]; cbn; [reflexivity | now rewrite IH]. Qed.

Lemma split_digits dl : Forall isDigit dl ->
  split "." (charsOf dl EmptyString) = [charsOf dl EmptyString].
Proof.
  induction 1 as [| d r Hd Hr IH]; [reflexivity |].
  cbn [charsOf split]. now rewrite (digitChar_not_dot d Hd), IH.
Qed.

Lemma split_digits_dot dl s : Forall isDigit dl ->
  split "." (charsOf dl (String "." s)) = charsOf dl EmptyString :: split "." s.
Proof.
  induction 1 as [| d r Hd Hr IH]; [reflexivity |].
  cbn [charsOf split]. now rewrite (digitChar_not_dot d Hd), IH.
Qed.

Lemma trimEnd_digits dl : Forall isDigit dl ->
  trimEnd (charsOf dl EmptyString) = charsOf dl EmptyString.
Proof.
  induction 1 as [| d r Hd Hr IH]; [reflexivity |].
  cbn [charsOf trimEnd]. rewrite IH.
  destruct (charsOf r EmptyString); [| reflexivity].
  now rewrite (digitChar_not_space d Hd).
Qed.

Lemma trim_digits dl : Forall isDigit dl ->
  trim (charsOf dl EmptyString) = charsOf dl EmptyString.
Proof.
  intros Hall. unfold trim.
  assert (Hs : trimStart (charsOf dl EmptyString) = charsOf dl EmptyString).
  { destruct Hall as [| d r Hd Hr]; [reflexivity |].
    cbn [charsOf trimStart]. now rewrite (digitChar_not_space d Hd). }
  rewrite Hs. now apply trimEnd_digits.
Qed.

Lemma nonDecimal_digits dl : Forall isDigit dl ->
  nonDecimal (charsOf dl EmptyString) = None.
Proof.
  intros Hall. destruct Hall as [| d r Hd Hr]; [reflexivity |].
  destruct Hr as [| d2 r2 Hd2 Hr2].
  - digit_cases d Hd; reflexivity.
  - cbn [charsOf]. digit_cases d Hd; try reflexivity.
    digit_cases d2 Hd2; reflexivity.
Qed.

Lemma not_Infinity d r : isDigit d ->
  String.eqb (String (digitChar d) r) "Infinity" = false.
Proof. intros Hd. digit_cases d Hd; reflexivity. Qed.

Lemma Number_digits dl : dl <> [] -> Forall isDigit dl ->
  exists q, Number (charsOf dl EmptyString) = Finite q /\
            Qeq q (inject_Z (valueOfDigits 10 dl)).
Proof.
  intros Hne Hall. unfold Number. rewrite (trim_digits dl Hall).
  rewrite (nonDecimal_digits dl Hall).
  destruct dl as [| d r]; [congruence |].
  inversion Hall as [| ? ? Hd Hr]; subst.
  cbn [charsOf]. rewrite (digitChar_not_sign d _ Hd), (not_Infinity d _ Hd).
  change (String (digitChar d) (charsOf r EmptyString))
    with (charsOf (d :: r) EmptyString).
  unfold unsignedDecimal. rewrite (digitsPrefix_charsOf (d :: r) Hall).
  cbn [exponentPart negNum].
  eexists. split; [reflexivity |].
  unfold Qeq. cbn. lia.
Qed.

Lemma Number_stringOfNat n : 0 <= n ->
  exists q, Number (stringOfNat n) = Finite q /\ Qeq q (inject_Z n).
Proof.
  intros Hn. destruct (stringOfNat_chars n Hn) as (dl & Hne & Hall & -> & Hval).
  rewrite <- Hval. now apply Number_digits.
Qed.

Lemma ltNum_Finite q1 q2 (a b : Z) :
  Qeq q1 (inject_Z a) -> Qeq q2 (inject_Z b) ->
  ltNum (Finite q1) (Finite q2) = (a <? b).
Proof.
  intros H1 H2. cbn. rewrite (Qcompare_comp _ _ H1 _ _ H2).
  unfold Qcompare. cbn. rewrite !Z.mul_1_r.
  unfold Z.ltb. reflexivity.
Qed.

Lemma parts_versionText a b c : 0 <= a -> 0 <= b -> 0 <= c ->
  parts (versionText a b c) =
    [Number (stringOfNat a); Number (stringOfNat b); Number (stringOfNat c)].
Proof.
  intros Ha Hb Hc. unfold parts, versionText.
  destruct (stringOfNat_chars a Ha) as (da & _ & Hda & -> & _).
  destruct (stringOfNat_chars b Hb) as (db & _ & Hdb & -> & _).
  destruct (stringOfNat_chars c Hc) as (dc & _ & Hdc & -> & _).
  rewrite <- !charsOf_append.
  rewrite (split_digits_dot da _ Hda), (split_digits_dot db _ Hdb),
          (split_digits dc Hdc).
  reflexivity.
Qed.

(** X2: on two versions written as three natural numbers separated by
    dots, none of them above [Number.MAX_SAFE_INTEGER], [compareSemver]
    is the numeric order of the triples, first difference first: 1.12.3
    is above 1.9.30.  Within that bound [Number] gives each segment
    exactly; above it two different segments can round to one double. *)
Theorem compareSemver_lexicographic (a1 a2 a3 b1 b2 b3 : Z) :
  isSafeNatural a1 -> isSafeNatural a2 -> isSafeNatural a3 ->
  isSafeNatural b1 -> isSafeNatural b2 -> isSafeNatural b3 ->
  compareSemver (versionText a1 a2 a3) (versionText b1 b2 b3) =
    compareTriple a1 a2 a3 b1 b2 b3.
Proof.
  intros [Ha1 _] [Ha2 _] [Ha3 _] [Hb1 _] [Hb2 _] [Hb3 _]. unfold compareSemver.
  rewrite !parts_versionText by assumption.
  destruct (Number_stringOfNat a1 Ha1) as (qa1 & -> & Ea1).
  destruct (Number_stringOfNat a2 Ha2) as (qa2 & -> & Ea2).
  destruct (Number_stringOfNat a3 Ha3) as (qa3 & -> & Ea3).
  destruct (Number_stringOfNat b1 Hb1) as (qb1 & -> & Eb1).
  destruct (Number_stringOfNat b2 Hb2) as (qb2 & -> & Eb2).
  destruct (Number_stringOfNat b3 Hb3) as (qb3 & -> & Eb3).
  unfold compareTriple. cbn [compareFrom partAt lookup list_lookup]. unfold gtNum.
  rewrite (ltNum_Finite qb1 qa1 b1 a1 Eb1 Ea1), (ltNum_Finite qa1 qb1 a1 b1 Ea1 Eb1).
  rewrite (ltNum_Finite qb2 qa2 b2 a2 Eb2 Ea2), (ltNum_Finite qa2 qb2 a2 b2 Ea2 Eb2).
  rewrite (ltNum_Finite qb3 qa3 b3 a3 Eb3 Ea3), (ltNum_Finite qa3 qb3 a3 b3 Ea3 Eb3).
  reflexivity.
Qed.

Lemma compareSemver_lexicographic_witness :
  isSafeNatural 1 /\ isSafeNatural 12 /\ isSafeNatural 3 /\
  isSafeNatural 1 /\ isSafeNatural 9 /\ isSafeNatural 30 /\
  versionText 1 12 3 = "1.12.3" /\
  compareSemver (versionText 1 12 3) (versionText 1 9 30) = 1.
Proof.
  assert (Hsafe : forall n, 0 <= n <= 30 -> isSafeNatural n)
    by (unfold isSafeNatural, MAX_SAFE_INTEGER; lia).
  repeat (split; [apply Hsafe; lia |]). split; [reflexivity |].
  rewrite (compareSemver_lexicographic 1 12 3 1 9 30)
    by (apply Hsafe; lia).
  reflexivity.
Defined.

End SemverMore.

(* ===================================================================== *)
(** * Further facts about the failure counters and the decision *)
(* ===================================================================== *)

Module CounterFacts.
Import LocalStorage Shell ShellFacts Counters Doubles.

Lemma recordFailure_readable now st :
  denied st = false -> recordFailure now st = (Return tt, recorded now st).
Proof.
  intros Hd. destruct st as [it d j]. cbn in Hd. subst d.
  unfold recordFailure, recorded, failCount. run_storage. reflexivity.
Qed.

Lemma recordFailure_denied now st :
  denied st = true -> recordFailure now st = (Return tt, st).
Proof.
  intros Hd. unfold recordFailure. storage_unfold. now rewrite Hd.
Qed.

Lemma clearFailures_readable st :
  denied st = false -> clearFailures st = (Return tt, cleared st).
Proof.
  intros Hd. destruct st as [it d j]. cbn in Hd. subst d.
  unfold clearFailures, cleared. run_storage. reflexivity.
Qed.

Lemma clearFailures_denied st :
  denied st = true -> clearFailures st = (Return tt, st).
Proof.
  intros Hd. unfold clearFailures. storage_unfold. now rewrite Hd.
Qed.

Lemma recorded_counts now st c :
  failCount st = Some c ->
  failCount (recorded now st) = Some (c + 1) /\
  failTimestamp (recorded now st) = Some now /\
  denied (recorded now st) = false.
Proof.
  intros Hc.
  assert (Hit : items (recorded now st) =
            <[OTA_FAIL_TS := JS.stringOfInt now]>
              (<[OTA_FAIL_COUNT := JS.stringOfInt (c + 1)]> (items st))).
  { unfold recorded. rewrite Hc. reflexivity. }
  unfold failCount at 1, failTimestamp. rewrite Hit.
  split; [| split; [| reflexivity]].
  - rewrite lookup_insert_ne by discriminate.
    rewrite lookup_insert_eq, orElse_stringOfInt.
    apply JSFacts.parseInt_stringOfInt.
  - rewrite lookup_insert_eq, orElse_stringOfInt.
    apply JSFacts.parseInt_stringOfInt.
Qed.

Lemma recorded_other now st k :
  k <> OTA_FAIL_COUNT -> k <> OTA_FAIL_TS ->
  items (recorded now st) !! k = items st !! k.
Proof.
  intros H1 H2. unfold recorded. cbn [items].
  now rewrite !lookup_insert_ne by congruence.
Qed.

Lemma recordAll_snoc times now st :
  recordAll (times ++ [now]) st = snd (recordFailure now (recordAll times st)).
Proof. unfold recordAll. now rewrite fold_left_app. Qed.

Lemma recordAll_counts times : forall st c,
  denied st = false -> failCount st = Some c ->
  failCount (recordAll times st) = Some (c + Z.of_nat (length times)) /\
  denied (recordAll times st) = false /\
  (forall k, k <> OTA_FAIL_COUNT -> k <> OTA_FAIL_TS ->
     items (recordAll times st) !! k = items st !! k).
Proof.
  induction times as [| t rest IH] using rev_ind; intros st c Hd Hc.
  - cbn. rewrite Z.add_0_r. auto.
  - destruct (IH st c Hd Hc) as (Hc' & Hd' & Hk').
    rewrite recordAll_snoc, (recordFailure_readable t _ Hd'). cbn [snd].
    destruct (recorded_counts t _ _ Hc') as (Hc2 & _ & Hd2).
    split; [| split; [exact Hd2 |]].
    + rewrite Hc2, length_app. cbn [length]. f_equal. lia.
    + intros k H1 H2. now rewrite recorded_other, Hk' by assumption.
Qed.

(** X3: starting from a readable store whose fail count is the integer
    [c], recording failures at the times [times ++ [last]] leaves the
    count at [c] plus their number and the timestamp at [last], and
    touches no other key; once the count has reached three,
    [isInBackoff] answers true exactly until 300000 ms after [last].
    The counts, from [c] to the last one, and the times are safe
    integers, so that the sums and the difference the code computes on
    doubles are exact. *)
Theorem failures_open_the_window (st : LocalStorage.t) (c last now : Z)
    (times : list Z) :
  denied st = false ->
  failCount st = Some c ->
  isSafeInteger c ->
  isSafeInteger (c + Z.of_nat (length times) + 1) ->
  Forall isSafeNatural (times ++ [last]) ->
  isSafeNatural now ->
  3 <= c + Z.of_nat (length times) + 1 ->
  let st' := recordAll (times ++ [last]) st in
  failCount st' = Some (c + Z.of_nat (length times) + 1) /\
  failTimestamp st' = Some last /\
  (forall k, k <> OTA_FAIL_COUNT -> k <> OTA_FAIL_TS ->
     items st' !! k = items st !! k) /\
  (fst (isInBackoff now st') = Return true <-> now - last <= 300000).
Proof.
  intros Hd Hc _ _ _ _ Hthree st'. subst st'.
  destruct (recordAll_counts times st c Hd Hc) as (Hc1 & Hd1 & Hk1).
  rewrite recordAll_snoc, (recordFailure_readable last _ Hd1). cbn [snd].
  destruct (recorded_counts last _ _ Hc1) as (Hc2 & Ht2 & Hd2).
  split; [exact Hc2 |]. split; [exact Ht2 |]. split.
  { intros k H1 H2. now rewrite recorded_other, Hk1 by assumption. }
  rewrite (isInBackoff_readable now _ Hd2), Hc2, Ht2.
  unfold JS.gtInt, JS.ltInt, JS.subInt, MAX_FAILURES, BACKOFF_MS.
  destruct (Z.ltb_spec (c + Z.of_nat (length times) + 1) 3) as [Hlt | _];
    [lia |].
  destruct (Z.ltb_spec (5 * 60 * 1000) (now - last)) as [Hw | Hw]; cbn [fst];
    split; intros Hx; try discriminate Hx; try lia; reflexivity.
Qed.

Lemma failures_open_the_window_witness :
  denied emptyStore = false /\
  failCount emptyStore = Some 0 /\
  isSafeInteger 0 /\
  isSafeInteger (0 + Z.of_nat (length [10; 20]) + 1) /\
  Forall isSafeNatural ([10; 20] ++ [30]) /\
  isSafeNatural 300030 /\
  3 <= 0 + Z.of_nat (length [10; 20]) + 1 /\
  failCount (recordAll ([10; 20] ++ [30]) emptyStore) = Some 3 /\
  (fst (isInBackoff 300030 (recordAll ([10; 20] ++ [30]) emptyStore))
     = Return true <-> 300030 - 30 <= 300000).
Proof.
  assert (Hnat : forall n, 0 <= n <= 300030 -> isSafeNatural n)
    by (unfold isSafeNatural, MAX_SAFE_INTEGER; lia).
  assert (Hint : forall n, 0 <= n <= 3 -> isSafeInteger n)
    by (unfold isSafeInteger, MAX_SAFE_INTEGER; lia).
  assert (Htimes : Forall isSafeNatural ([10; 20] ++ [30]))
    by (repeat constructor; apply Hnat; lia).
  assert (Hfirst : isSafeInteger 0) by (apply Hint; lia).
  assert (Hlast : isSafeInteger (0 + Z.of_nat (length [10; 20]) + 1))
    by (apply Hint; cbn; lia).
  assert (Hnow : isSafeNatural 300030) by (apply Hnat; lia).
  assert (Hthird : 3 <= 0 + Z.of_nat (length [10; 20]) + 1) by (cbn; lia).
  split; [reflexivity |]. split; [reflexivity |].
  split; [exact Hfirst |]. split; [exact Hlast |].
  split; [exact Htimes |]. split; [exact Hnow |]. split; [exact Hthird |].
  pose proof (failures_open_the_window emptyStore 0 30 300030 [10; 20]
                eq_refl eq_refl Hfirst Hlast Htimes Hnow Hthird) as Hthree.
  cbv zeta in Hthree. destruct Hthree as (Hcount & _ & _ & Hiff).
  split; [exact Hcount | exact Hiff].
Defined.

(** X4: a fail count that does not parse as a number never passes the
    test [count < 3], so with an unreadable timestamp as well the shell
    stays in backoff at every time; with an integer timestamp the window
    applies as if there were three failures; and [recordFailure] does not
    repair the count: it stays not a number. *)
Theorem corrupt_count_blocks (now : Z) (st : LocalStorage.t) :
  denied st = false ->
  failCount st = None ->
  (failTimestamp st = None -> isInBackoff now st = (Return true, st)) /\
  (forall t, failTimestamp st = Some t ->
     (fst (isInBackoff now st) = Return true <-> now - t <= 300000)) /\
  failCount (snd (recordFailure now st)) = None.
Proof.
  intros Hd Hc. rewrite (isInBackoff_readable now st Hd), Hc.
  split; [| split].
  - intros ->. reflexivity.
  - intros t ->. cbn. unfold BACKOFF_MS.
    destruct (Z.ltb_spec (5 * 60 * 1000) (now - t)); cbn; split;
      intros; try lia; try discriminate; reflexivity.
  - rewrite (recordFailure_readable now st Hd). cbn [snd].
    unfold failCount at 1, recorded. rewrite Hc. cbn [items].
    rewrite lookup_insert_ne by discriminate. rewrite lookup_insert_eq.
    reflexivity.
Qed.

Lemma corrupt_count_blocks_witness :
  denied corruptCounters = false /\
  failCount corruptCounters = None /\
  isInBackoff 999999999 corruptCounters = (Return true, corruptCounters).
Proof.
  split; [reflexivity |]. split; [reflexivity |].
  destruct (corrupt_count_blocks 999999999 corruptCounters eq_refl eq_refl)
    as (Hblocked & _).
  apply Hblocked. reflexivity.
Defined.

(** X5: after the reset branch of [isInBackoff], and after
    [clearFailures], whatever the store was, [isInBackoff] answers false
    at every time and writes nothing. *)
Theorem reset_or_clear_unblocks (now now' : Z) (st : LocalStorage.t) :
  isInBackoff now' (resetCount st) = (Return false, resetCount st) /\
  isInBackoff now (snd (clearFailures st)) =
    (Return false, snd (clearFailures st)).
Proof.
  split.
  - rewrite isInBackoff_readable by reflexivity.
    assert (Hc : failCount (resetCount st) = Some 0).
    { unfold failCount, resetCount. cbn [items]. now rewrite lookup_insert_eq. }
    rewrite Hc. reflexivity.
  - destruct (denied st) eqn:Hd.
    + rewrite (clearFailures_denied st Hd). cbn [snd].
      now apply isInBackoff_denied.
    + rewrite (clearFailures_readable st Hd). cbn [snd].
      rewrite isInBackoff_readable by reflexivity.
      assert (Hc : failCount (cleared st) = Some 0).
      { unfold failCount, cleared. cbn [items].
        rewrite lookup_delete_ne by discriminate.
        now rewrite lookup_delete_eq. }
      rewrite Hc. reflexivity.
Qed.

(** X6: the routing decision never throws; it writes nothing, or only
    ["0"] to the fail count, and in that case it chooses the remote
    path; when the flag is not set or the browser is offline it leaves
    the store as it was and does not run [isInBackoff]. *)
Theorem decision_writes_at_most_the_reset (onLine : option bool) (now : Z)
    (st : LocalStorage.t) :
  fst (decideRoute onLine now st) <> Throw /\
  (written (decideRoute onLine now) st = [] \/
   (written (decideRoute onLine now) st = [SetItem OTA_FAIL_COUNT "0"] /\
    fst (decideRoute onLine now st) = Return RemotePath)) /\
  (useRemoteFlag st = false \/ onLine = Some false ->
   decideRoute onLine now st = (Return FastPath, st)).
Proof.
  unfold written. rewrite decideRoute_eq.
  split; [| split].
  - destruct (negb (useRemoteFlag st) || negb (isOnline onLine));
      [discriminate |].
    destruct (denied st) eqn:Hd.
    + rewrite (isInBackoff_denied now st Hd). discriminate.
    + rewrite (isInBackoff_readable now st Hd).
      destruct (JS.ltInt _ _); [discriminate |].
      destruct (JS.gtInt _ _); discriminate.
  - destruct (negb (useRemoteFlag st) || negb (isOnline onLine));
      [left; apply drop_all |].
    destruct (denied st) eqn:Hd.
    + rewrite (isInBackoff_denied now st Hd). left. apply drop_all.
    + rewrite (isInBackoff_readable now st Hd).
      destruct (JS.ltInt _ _); [left; apply drop_all |].
      destruct (JS.gtInt _ _); [right | left; apply drop_all].
      split; [| reflexivity].
      unfold resetCount. cbn [snd journal]. apply drop_app_length.
  - intros [Hf | ->]; [rewrite Hf; reflexivity |].
    cbn [isOnline negb]. now rewrite orb_true_r.
Qed.

(** X7: when the browser denies access to [localStorage], the shell goes
    to the bundled page at once, whatever the network and the time, and
    [isInBackoff], [recordFailure] and [clearFailures] return without
    changing anything. *)
Theorem denied_storage_goes_bundled (onLine : option bool) (now : Z) (p : Page) :
  denied (storage p) = true ->
  start onLine now p = goToBundled p /\
  isInBackoff now (storage p) = (Return false, storage p) /\
  recordFailure now (storage p) = (Return tt, storage p) /\
  clearFailures (storage p) = (Return tt, storage p).
Proof.
  intros Hd. split.
  - unfold start. rewrite decideRoute_eq.
    assert (Hf : useRemoteFlag (storage p) = false)
      by (unfold useRemoteFlag; now rewrite Hd).
    rewrite Hf. cbn. destruct p; reflexivity.
  - rewrite isInBackoff_denied, recordFailure_denied, clearFailures_denied
      by assumption. auto.
Qed.

Lemma denied_storage_goes_bundled_witness :
  denied (storage deniedPage) = true /\
  start (Some true) 0 deniedPage = goToBundled deniedPage.
Proof.
  split; [reflexivity |].
  destruct (denied_storage_goes_bundled (Some true) 0 deniedPage eq_refl)
    as (Hstart & _).
  exact Hstart.
Defined.

End CounterFacts.

(* ===================================================================== *)
(** * Further facts about the background check *)
(* ===================================================================== *)

Module CheckerFacts.
Import LocalStorage OtaConfig OtaUpdater ShellFacts SemverFacts Checker.

Lemma runCheck_cases ch rest success st :
  denied st = false ->
  let version := String ch rest in
  runCheck (Response true (Manifest (Some version))) success st =
    (Return tt,
     if newer version then
       if bool_decide (items st !! LS_REMOTE_VERSION = Some version)
       then flagSet st
       else if success then precached version st else st
     else flagRemoved st).
Proof.
  intros Hd version. subst version. destruct st as [it d j]. cbn in Hd. subst d.
  unfold runCheck, checkVersion, afterPrecache, newer, flagSet, flagRemoved,
         precached.
  destruct (compareSemver (String ch rest) BUNDLED_VERSION <=? 0); cbn [negb];
    run_storage; [reflexivity |].
  case_bool_decide; run_storage; [reflexivity |].
  destruct success; run_storage; reflexivity.
Qed.

Lemma runCheck_returns f success st : fst (runCheck f success st) = Return tt.
Proof.
  unfold runCheck, checkVersion, afterPrecache. destruct st as [it d j].
  destruct f as [| [|] [| [[| ch v] |]]]; destruct d;
    try (run_storage; reflexivity).
  - destruct (_ <=? 0); run_storage; reflexivity.
  - destruct (_ <=? 0); run_storage; [reflexivity |].
    case_bool_decide; run_storage; [reflexivity |].
    destruct success; run_storage; reflexivity.
Qed.

Lemma newer_is_greater version :
  newer version = true -> compareSemver version BUNDLED_VERSION = 1.
Proof.
  unfold newer. intros Hn. apply negb_true_iff, Z.leb_gt in Hn.
  unfold compareSemver in *.
  destruct (compareFrom_range (parts version) (parts BUNDLED_VERSION) 3 0)
    as [H1 | [H0 | Hm]]; [exact H1 | lia | lia].
Qed.

(** X8: [runCheck] never throws.  When the fetch is rejected, the
    response is not ok, the body is not JSON or the version is missing
    or empty, it leaves the store exactly as it was; so it does when the
    version is newer, is not the recorded one and the pre-cache fails. *)
Theorem runCheck_unusable_manifest (f : Fetched) (success : bool)
    (st : LocalStorage.t) :
  fst (runCheck f success st) = Return tt /\
  (~ usable f -> runCheck f success st = (Return tt, st)) /\
  (forall ch rest,
     f = Response true (Manifest (Some (String ch rest))) ->
     denied st = false -> newer (String ch rest) = true ->
     items st !! LS_REMOTE_VERSION <> Some (String ch rest) ->
     success = false ->
     runCheck f success st = (Return tt, st)).
Proof.
  split; [apply runCheck_returns |]. split.
  - intros Hun. unfold runCheck, checkVersion. destruct st as [it d j].
    destruct f as [| [|] [| [[| ch v] |]]];
      try (run_storage; reflexivity).
    exfalso. apply Hun. now exists ch, v.
  - intros ch rest -> Hd Hnew Hcache ->.
    rewrite (runCheck_cases ch rest false st Hd). cbv zeta. rewrite Hnew.
    now rewrite bool_decide_eq_false_2.
Qed.

(** X9: on a readable store, [runCheck] writes ["true"] to the flag only
    for a manifest whose version compares above the bundled one, and
    when it returns the store records that very version as the cached
    one and the flag reads ["true"]. *)
Theorem flag_set_only_for_recorded_newer_version (f : Fetched)
    (success : bool) (st : LocalStorage.t) :
  denied st = false ->
  In (SetItem LS_USE_REMOTE "true") (written (runCheck f success) st) ->
  exists version,
    f = Response true (Manifest (Some version)) /\
    compareSemver version BUNDLED_VERSION = 1 /\
    items (snd (runCheck f success st)) !! LS_REMOTE_VERSION = Some version /\
    items (snd (runCheck f success st)) !! LS_USE_REMOTE = Some "true".
Proof.
  intros Hd Hin.
  assert (Hus : usable f).
  { destruct f as [| [|] [| [[| ch v] |]]]; try (now exists ch, v);
      exfalso; unfold written, runCheck, checkVersion in Hin;
      destruct st as [it d j]; cbn in Hd; subst d;
      run_storage; cbn in Hin; rewrite ?drop_all in Hin; inversion Hin. }
  destruct Hus as (ch & rest & ->). exists (String ch rest).
  split; [reflexivity |].
  unfold written in Hin.
  rewrite (runCheck_cases ch rest success st Hd) in *. cbv zeta in *. cbn [snd] in *.
  destruct (newer (String ch rest)) eqn:Hnew.
  - split; [now apply newer_is_greater |].
    case_bool_decide as Hc.
    + unfold flagSet. cbn [items]. split.
      * now rewrite lookup_insert_ne by discriminate.
      * apply lookup_insert_eq.
    + destruct success.
      * unfold precached. cbn [items]. split.
        -- rewrite !lookup_delete_ne by discriminate. apply lookup_insert_eq.
        -- rewrite !lookup_delete_ne by discriminate.
           rewrite lookup_insert_ne by discriminate. apply lookup_insert_eq.
      * rewrite drop_all in Hin. inversion Hin.
  - unfold flagRemoved in Hin. cbn [journal] in Hin.
    rewrite drop_app_length in Hin.
    destruct Hin as [Hin | []]. discriminate.
Qed.

Lemma flag_set_only_for_recorded_newer_version_witness :
  denied Counters.emptyStore = false /\
  In (SetItem LS_USE_REMOTE "true")
     (written (runCheck manifest120 true) Counters.emptyStore) /\
  exists version,
    manifest120 = Response true (Manifest (Some version)) /\
    compareSemver version BUNDLED_VERSION = 1 /\
    items (snd (runCheck manifest120 true Counters.emptyStore))
      !! LS_REMOTE_VERSION = Some version /\
    items (snd (runCheck manifest120 true Counters.emptyStore))
      !! LS_USE_REMOTE = Some "true".
Proof.
  assert (Hin : In (SetItem LS_USE_REMOTE "true")
                   (written (runCheck manifest120 true) Counters.emptyStore))
    by (vm_compute; left; reflexivity).
  split; [reflexivity |]. split; [exact Hin |].
  exact (flag_set_only_for_recorded_newer_version manifest120 true
           Counters.emptyStore eq_refl Hin).
Defined.

(** X10: on a readable store, a manifest whose version is not above the
    bundled one makes [runCheck] remove the flag and do nothing else:
    every other key keeps its value, the failure counters included, and
    the one write is the removal. *)
Theorem runCheck_rollback_removes_flag (ch : ascii) (rest : string)
    (success : bool) (st : LocalStorage.t) :
  denied st = false ->
  newer (String ch rest) = false ->
  let st' := snd (runCheck (Response true (Manifest (Some (String ch rest))))
                    success st) in
  items st' !! LS_USE_REMOTE = None /\
  (forall k, k <> LS_USE_REMOTE -> items st' !! k = items st !! k) /\
  journal st' = (journal st ++ [RemoveItem LS_USE_REMOTE])%list.
Proof.
  intros Hd Hnew st'. subst st'.
  rewrite (runCheck_cases ch rest success st Hd). cbv zeta. rewrite Hnew.
  unfold flagRemoved. cbn [snd items journal].
  split; [apply lookup_delete_eq |].
  split; [| reflexivity].
  intros k Hk. now rewrite lookup_delete_ne by congruence.
Qed.

Lemma runCheck_rollback_removes_flag_witness :
  denied Shell.threeFailures = false /\
  newer "0.9.0" = false /\
  items (snd (runCheck (Response true (Manifest (Some "0.9.0"))) true
                       Shell.threeFailures)) !! LS_USE_REMOTE = None.
Proof.
  assert (Hold : newer "0.9.0" = false) by (vm_compute; reflexivity).
  split; [reflexivity |]. split; [exact Hold |].
  pose proof (runCheck_rollback_removes_flag "0" ".9.0" true
                Shell.threeFailures eq_refl Hold) as Hroll.
  cbv zeta in Hroll. destruct Hroll as (Hflag & _). exact Hflag.
Defined.

(** X11: how the checker meets the shell's backoff.  For a newer
    version on a readable store: when that version is already the
    recorded one, [runCheck] sets the flag and leaves the answer of
    [isInBackoff] as it was; when it is not and the pre-cache succeeds,
    the counters are removed, so [isInBackoff] answers false and an
    online shell takes the remote path on the next open. *)
Theorem runCheck_and_backoff (ch : ascii) (rest : string) (success : bool)
    (now : Z) (st : LocalStorage.t) :
  denied st = false ->
  newer (String ch rest) = true ->
  let version := String ch rest in
  let st' := snd (runCheck (Response true (Manifest (Some version))) success st) in
  (items st !! LS_REMOTE_VERSION = Some version ->
     fst (Shell.isInBackoff now st') = fst (Shell.isInBackoff now st)) /\
  (items st !! LS_REMOTE_VERSION <> Some version -> success = true ->
     Shell.isInBackoff now st' = (Return false, st') /\
     fst (Shell.decideRoute (Some true) now st') = Return Shell.RemotePath).
Proof.
  intros Hd Hnew version st'. subst st' version.
  rewrite (runCheck_cases ch rest success st Hd). cbv zeta. rewrite Hnew.
  split.
  - intros Hc. rewrite bool_decide_eq_true_2 by assumption. cbn [snd].
    rewrite !isInBackoff_readable by (reflexivity || assumption).
    assert (Hcount : Shell.failCount (flagSet st) = Shell.failCount st).
    { unfold Shell.failCount, flagSet. cbn [items].
      now rewrite lookup_insert_ne by discriminate. }
    assert (Hts : Shell.failTimestamp (flagSet st) = Shell.failTimestamp st).
    { unfold Shell.failTimestamp, flagSet. cbn [items].
      now rewrite lookup_insert_ne by discriminate. }
    rewrite Hcount, Hts.
    destruct (JS.ltInt _ _); [reflexivity |].
    destruct (JS.gtInt _ _); reflexivity.
  - intros Hc ->. rewrite bool_decide_eq_false_2 by assumption. cbn [snd].
    assert (Hcount : Shell.failCount (precached (String ch rest) st) = Some 0).
    { unfold Shell.failCount, precached. cbn [items].
      rewrite lookup_delete_ne by discriminate.
      now rewrite lookup_delete_eq. }
    assert (Hback : Shell.isInBackoff now (precached (String ch rest) st) =
                    (Return false, precached (String ch rest) st)).
    { rewrite isInBackoff_readable by reflexivity. now rewrite Hcount. }
    split; [exact Hback |].
    rewrite decideRoute_eq, Hback.
    assert (Hflag : Shell.useRemoteFlag (precached (String ch rest) st) = true).
    { unfold Shell.useRemoteFlag, precached. cbn [denied items].
      apply bool_decide_eq_true_2.
      rewrite !lookup_delete_ne by discriminate.
      rewrite lookup_insert_ne by discriminate. apply lookup_insert_eq. }
    rewrite Hflag. reflexivity.
Qed.

Lemma runCheck_and_backoff_witness :
  denied Shell.threeFailures = false /\
  newer "1.2.0" = true /\
  fst (Shell.isInBackoff 1000 Shell.threeFailures) = Return true /\
  fst (Shell.decideRoute (Some true) 1000
         (snd (runCheck (Response true (Manifest (Some "1.2.0"))) true
                        Shell.threeFailures))) = Return Shell.RemotePath.
Proof.
  assert (Hnew : newer "1.2.0" = true) by (vm_compute; reflexivity).
  assert (Hblocked : fst (Shell.isInBackoff 1000 Shell.threeFailures) =
                     Return true) by (vm_compute; reflexivity).
  assert (Hmiss : items Shell.threeFailures !! LS_REMOTE_VERSION <>
                  Some "1.2.0") by (vm_compute; discriminate).
  split; [reflexivity |]. split; [exact Hnew |]. split; [exact Hblocked |].
  pose proof (runCheck_and_backoff "1" ".2.0" true 1000 Shell.threeFailures
                eq_refl Hnew) as Hrun.
  cbv zeta in Hrun. destruct Hrun as (_ & Hfresh).
  destruct (Hfresh Hmiss eq_refl) as (_ & Hroute). exact Hroute.
Defined.

End CheckerFacts.

(* ===================================================================== *)
(** * Facts about precacheRemoteApp *)
(* ===================================================================== *)

Module PrecacheFacts.
Import Precache.

(** After the first signal: settled, no timeout; the promise keeps its
    value; the iframe is attached exactly as long as the cleanup timer
    is pending. *)
Lemma run_after_first sigs : forall s,
  settled s = true -> timeout s = None ->
  (cleanupTimer s = None <-> attached s = false) ->
  promise (run sigs s) = promise s /\
  attached (run sigs s) = attached s && negb (existsb isCleanup sigs).
Proof.
  induction sigs as [| sig rest IH]; intros [st to ct at' sr pr] Hs Ht Hc;
    cbn in Hs, Ht, Hc; subst st to.
  - cbn. now rewrite andb_true_r.
  - cbn [run fold_left]. fold (run rest (onSignal sig (mk true None ct at' sr pr))).
    destruct sig; cbn [existsb orb negb isCleanup].
    + apply (IH (mk true None ct at' sr pr)); cbn; auto.
    + apply (IH (mk true None ct at' sr pr)); cbn; auto.
    + apply (IH (mk true None ct at' sr pr)); cbn; auto.
    + destruct ct as [d |].
      * assert (Ha : at' = true).
        { destruct at'; [reflexivity |]. destruct Hc as [_ Hc].
          now specialize (Hc eq_refl). }
        subst at'.
        change (onSignal CleanupFires (mk true None (Some d) true sr pr))
          with (mk true None None false sr pr).
        destruct (IH (mk true None None false sr pr)) as [Hp Hat];
          [reflexivity | reflexivity | cbn; tauto |].
        rewrite Hp, Hat. split; reflexivity.
      * assert (Ha : at' = false) by (now apply Hc). subst at'.
        change (onSignal CleanupFires (mk true None None false sr pr))
          with (mk true None None false sr pr).
        destruct (IH (mk true None None false sr pr)) as [Hp Hat];
          [reflexivity | reflexivity | cbn; tauto |].
        rewrite Hp, Hat. split; reflexivity.
Qed.

Lemma run_decided rest r :
  let s := mk true None (Some CLEANUP_DELAY_MS) true (Some Shell.REMOTE_APP_URL)
              (Some r) in
  promise (run rest s) = Some r /\
  attached (run rest s) = negb (existsb isCleanup rest).
Proof.
  intros s. destruct (run_after_first rest s) as [Hp Ha]; try reflexivity.
  - cbn. split; intros; discriminate.
  - split; [exact Hp | exact Ha].
Qed.

Lemma settled_run rest : forall s, settled s = true -> settled (run rest s) = true.
Proof.
  induction rest as [| sig rest IH]; intros [st to ct at' sr pr] Hs;
    cbn in Hs; subst st; [reflexivity |].
  cbn [run fold_left].
  fold (run rest (onSignal sig (mk true to ct at' sr pr))). apply IH.
  destruct sig; cbn; try reflexivity.
  - now destruct to.
  - destruct ct; [| reflexivity]. now destruct at'.
Qed.

(** X12: whatever load, error, timeout and cleanup signals arrive, in
    whatever order, the promise of [precacheRemoteApp] resolves with
    what the first load, error or timeout stands for (true for a load
    only) and never changes afterwards; it is unresolved exactly while
    none of them has arrived; and the hidden iframe stays in the
    document until the cleanup timer started by that first signal
    fires. *)
Theorem precache_first_signal_decides (sigs : list Signal) :
  promise (run sigs start) = verdict sigs /\
  attached (run sigs start) = negb (cleaned sigs) /\
  settled (run sigs start) = bool_decide (verdict sigs <> None).
Proof.
  induction sigs as [| sig rest IH]; [repeat split |].
  cbn [run fold_left]. fold (run rest (onSignal sig start)).
  destruct sig; cbn [verdict cleaned].
  - change (onSignal Load start) with
      (mk true None (Some CLEANUP_DELAY_MS) true (Some Shell.REMOTE_APP_URL) (Some true)).
    destruct (run_decided rest true) as [Hp Ha]. cbv zeta in Hp, Ha.
    split; [exact Hp |]. split; [exact Ha |]. now apply settled_run.
  - change (onSignal Error start) with
      (mk true None (Some CLEANUP_DELAY_MS) true (Some Shell.REMOTE_APP_URL) (Some false)).
    destruct (run_decided rest false) as [Hp Ha]. cbv zeta in Hp, Ha.
    split; [exact Hp |]. split; [exact Ha |]. now apply settled_run.
  - change (onSignal TimeoutFires start) with
      (mk true None (Some CLEANUP_DELAY_MS) true (Some Shell.REMOTE_APP_URL) (Some false)).
    destruct (run_decided rest false) as [Hp Ha]. cbv zeta in Hp, Ha.
    split; [exact Hp |]. split; [exact Ha |]. now apply settled_run.
  - exact IH.
Qed.

End PrecacheFacts.

(* ===================================================================== *)
(** * Further facts about the bridge *)
(* ===================================================================== *)

Module ChannelFacts.
Import Wire Channel ClientCalls.

Section HostMore.
Context `{Json V}.
Import LocalStorage ShellFacts.





Lemma writeKeys_denied (kvs : list (string * V)) st :
  denied st = true -> Host.writeKeys kvs st = (Return tt, st).
Proof.
  intros Hd. induction kvs as [| [k v] r IH]; [reflexivity |].
  cbn [Host.writeKeys]. storage_unfold. rewrite Hd. apply IH.
Qed.

Lemma writeKeys_readable (kvs : list (string * V)) : forall st,
  denied st = false ->
  NoDup (kvs.*1) ->
  exists st', Host.writeKeys kvs st = (Return tt, st') /\
    denied st' = false /\
    forall k, items st' !! k =
      match (list_to_map kvs : gmap string V) !! k with
      | Some v => Some (JSON_stringify v)
      | None => items st !! k
      end.
Proof.
  induction kvs as [| [k0 v0] r IH]; intros st Hd Hnd.
  - exists st. split; [reflexivity |]. split; [exact Hd |].
    intros k. cbn [list_to_map foldr]. now rewrite lookup_empty.
  - cbn [Host.writeKeys]. storage_unfold. rewrite Hd.
    rewrite fmap_cons in Hnd. apply NoDup_cons in Hnd as [Hnot Hnd].
    cbn [fst] in Hnot.
    destruct (IH (mk (<[k0 := JSON_stringify v0]> (items st)) false
                     (journal st ++ [SetItem k0 (JSON_stringify v0)]))
                 eq_refl Hnd) as (st' & Hrun & Hd' & Hit).
    exists st'. split; [exact Hrun |]. split; [exact Hd' |].
    intros k. rewrite Hit. cbn [items].
    change (list_to_map ((k0, v0) :: r) : gmap string V)
      with (<[k0 := v0]> (list_to_map r : gmap string V)).
    destruct (decide (k = k0)) as [-> | Hne].
    + rewrite (not_elem_of_list_to_map_1 r k0 Hnot).
      now rewrite !lookup_insert_eq.
    + rewrite (lookup_insert_ne (list_to_map r) k0 k) by congruence.
      destruct (list_to_map r !! k); [reflexivity |].
      now rewrite lookup_insert_ne by congruence.
Qed.


(** The SET branch. *)
Lemma host_set_eq o (msg : Message V) (h : Host.t V) :
  type msg = "daybound-storage-set" -> Host.chromeSync h = false ->
  Host.onMessage (mkEvent FrameWindow o (Some msg)) h =
    Host.post (Host.ackMessage (id msg))
      (Host.mk (snd (Host.writeKeys (map_to_list (default ∅ (data msg)))
                                    (Host.storage h)))
               false (Host.sent h) (Host.calls h)).
Proof.
  intros Hty Hch. unfold Host.onMessage.
  rewrite bool_decide_eq_false_2 by (cbn; auto).
  cbn [payload]. rewrite Hty, Hch. reflexivity.
Qed.

Lemma host_set_readable (o : string) (msg : Message V) (h : Host.t V) :
  type msg = "daybound-storage-set" ->
  Host.chromeSync h = false ->
  denied (Host.storage h) = false ->
  denied (Host.storage (Host.onMessage (mkEvent FrameWindow o (Some msg)) h))
    = false /\
  forall k,
    items (Host.storage (Host.onMessage (mkEvent FrameWindow o (Some msg)) h))
      !! k =
    match default ∅ (data msg) !! k with
    | Some v => Some (JSON_stringify v)
    | None => items (Host.storage h) !! k
    end.
Proof.
  intros Hty Hch Hd. rewrite (host_set_eq o msg h Hty Hch).
  cbn [Host.post Host.storage].
  destruct (writeKeys_readable (map_to_list (default ∅ (data msg))) _ Hd)
    as (st' & Hrun & Hd' & Hit); [apply NoDup_fst_map_to_list |].
  rewrite Hrun. cbn [snd]. split; [exact Hd' |].
  intros k. rewrite Hit, list_to_map_to_list. reflexivity.
Qed.


(** X14: without [chrome.storage], the shell answers a set request of
    the frame with exactly one acknowledgment that carries the id of the
    request, whether or not the write went through: on a readable store
    every key of the data then holds the JSON text of its value and the
    other keys are untouched; when [localStorage] is denied the store is
    unchanged and the acknowledgment is sent all the same. *)
Theorem host_set_writes_and_acks (o : string) (msg : Message V)
    (h : Host.t V) :
  type msg = "daybound-storage-set" ->
  Host.chromeSync h = false ->
  let e := mkEvent FrameWindow o (Some msg) in
  let d := default ∅ (data msg) in
  Host.sent (Host.onMessage e h) =
    (Host.sent h ++ [Host.ackMessage (id msg)])%list /\
  (denied (Host.storage h) = true ->
     Host.storage (Host.onMessage e h) = Host.storage h) /\
  (denied (Host.storage h) = false ->
     forall k, items (Host.storage (Host.onMessage e h)) !! k =
       match d !! k with
       | Some v => Some (JSON_stringify v)
       | None => items (Host.storage h) !! k
       end).
Proof.
  intros Hty Hch e d. subst e d.
  split; [now rewrite (host_set_eq o msg h Hty Hch) |]. split.
  - intros Hd. rewrite (host_set_eq o msg h Hty Hch).
    cbn [Host.post Host.storage]. now rewrite (writeKeys_denied _ _ Hd).
  - intros Hd. now apply host_set_readable.
Qed.

(** X16: a message without a string [type], or whose type is none of
    those a side handles, changes nothing on that side: the shell has
    three request types, the client four. *)
Theorem unknown_messages_are_ignored (e : MessageEvent V) (h : Host.t V)
    (c : Client.t V) :
  (payload e = None -> Host.onMessage e h = h /\ Client.handleMessage e c = c) /\
  (forall msg, payload e = Some msg ->
     type msg <> "daybound-iframe-ready" ->
     type msg <> "daybound-storage-get" ->
     type msg <> "daybound-storage-set" ->
     Host.onMessage e h = h) /\
  (forall msg, payload e = Some msg ->
     type msg <> "daybound-bridge-ready" ->
     type msg <> "daybound-storage-result" ->
     type msg <> "daybound-storage-set-ack" ->
     type msg <> "daybound-storage-changed" ->
     Client.handleMessage e c = c).
Proof.
  split; [| split].
  - intros Hp. unfold Host.onMessage, Client.handleMessage. rewrite Hp.
    split; now destruct (bool_decide _).
  - intros msg Hp H1 H2 H3. unfold Host.onMessage. rewrite Hp.
    destruct (bool_decide _); [reflexivity |].
    apply String.eqb_neq in H1, H2, H3. now rewrite H1, H2, H3.
  - intros msg Hp H1 H2 H3 H4. unfold Client.handleMessage. rewrite Hp.
    destruct (bool_decide _); [reflexivity |].
    apply String.eqb_neq in H1, H2, H3, H4. now rewrite H1, H2, H3, H4.
Qed.




(** X17: with [chrome.storage], the shell hands a get request to
    [chrome.storage.sync.get] and posts nothing until the callback
    runs; the callback posts one result with the id of the request, and
    the client resolves the promise of that [get] with its data (the
    empty object when the result is missing). *)
Theorem chrome_host_round_trip (c : Client.t V) (h : Host.t V) (u : string)
    (ks : list string) (result : option (gmap string V)) :
  Client.wellFormed c ->
  Host.chromeSync h = true ->
  let p := fst (Client.get u ks c) in
  let c1 := snd (Client.get u ks c) in
  let h1 := Host.onMessage (fromFrame (getRequest u ks)) h in
  let h2 := Host.onSyncGetDone (Some u) result h1 in
  h1 = Host.call (Host.SyncGet ks (Some u)) h /\
  Client.resolved c1 !! p = None /\
  Host.sent h2 =
    (Host.sent h ++ [Host.resultMessage (Some u) (default ∅ result)])%list /\
  Client.resolved
    (Client.handleMessage
       (fromShell (Host.resultMessage (Some u) (default ∅ result))) c1) !! p =
    Some (Some (default ∅ result)).
Proof.
  intros Hw Hch p c1 h1 h2. subst p c1 h1 h2.
  assert (Hh1 : Host.onMessage (fromFrame (getRequest u ks)) h =
                Host.call (Host.SyncGet ks (Some u)) h).
  { unfold Host.onMessage, fromFrame.
    rewrite bool_decide_eq_false_2 by (cbn; auto).
    cbn [payload]. change (type (getRequest u ks)) with "daybound-storage-get".
    cbn [String.eqb Ascii.eqb Bool.eqb]. now rewrite Hch. }
  rewrite Hh1. split; [reflexivity |].
  split; [apply (Client.fresh_open c Hw); cbn; lia |].
  split; [reflexivity |].
  assert (Hw1 : Client.wellFormed (snd (Client.get u ks c)))
    by (now apply BridgeFacts.wellFormed_get).
  rewrite (BridgeFacts.handleMessage_response _
             (fromShell (Host.resultMessage (Some u) (default ∅ result)))
             (Host.resultMessage (Some u) (default ∅ result))
             (Some (default ∅ result)) eq_refl eq_refl
             (or_introl (conj eq_refl eq_refl))).
  rewrite (BridgeFacts.respond_known _ u (Client.Resolve (Client.nextPromise c))
             _ Hw1 (lookup_insert_eq _ _ _)).
  cbn [Client.resolved]. apply lookup_insert_eq.
Qed.

End HostMore.

Section ClientMore.
Context {V : Type}.

Lemma performAll_deaf (ops : list (Call V)) : forall c : Client.t V,
  Client.listening c = false ->
  Client.listening (performAll ops c) = false /\
  Client.resolved (performAll ops c) = Client.resolved c /\
  Client.delivered (performAll ops c) = Client.delivered c.
Proof.
  induction ops as [| op ops IH]; intros c Hl; [auto |].
  cbn [performAll fold_left]. fold (performAll ops (perform op c)).
  assert (Hstep : Client.listening (perform op c) = false /\
                  Client.resolved (perform op c) = Client.resolved c /\
                  Client.delivered (perform op c) = Client.delivered c).
  { destruct op; cbn; try (repeat split; assumption).
    unfold Client.dispatch. rewrite Hl. auto. }
  destruct Hstep as (H1 & H2 & H3).
  destruct (IH _ H1) as (I1 & I2 & I3).
  rewrite I2, I3, H2, H3. auto.
Qed.

(** X18: after [destroy()] the pending table is empty and the client no
    longer listens; whatever is called on it or delivered to its window
    afterwards, no promise is settled and no change listener is called
    any more, so a request made after [destroy()] is never answered. *)
Theorem destroyed_client_is_deaf (ops : list (Call V)) (c : Client.t V) :
  let c' := performAll ops (Client.destroy c) in
  Client.listening c' = false /\
  Client.resolved c' = Client.resolved c /\
  Client.delivered c' = Client.delivered c /\
  Client.pending (Client.destroy c) = ∅.
Proof.
  intros c'. subst c'.
  destruct (performAll_deaf ops (Client.destroy c) eq_refl) as (H1 & H2 & H3).
  repeat split; assumption.
Qed.

End ClientMore.


Lemma host_set_writes_and_acks_witness :
  type (setRequest (V := option Z) "1" {["settings" := Some 7]}) =
    "daybound-storage-set" /\
  Host.chromeSync Sample.plainHost = false /\
  Host.sent (Host.onMessage
               (fromFrame (setRequest "1" {["settings" := Some 7]}))
               Sample.plainHost) =
    (Host.sent Sample.plainHost ++ [Host.ackMessage (Some "1")])%list.
Proof.
  split; [reflexivity |]. split; [reflexivity |].
  pose proof (host_set_writes_and_acks Shell.REMOTE_APP_URL
                (setRequest "1" {["settings" := Some 7]}) Sample.plainHost
                eq_refl eq_refl) as Hset.
  cbv zeta in Hset. destruct Hset as (Hsent & _). exact Hsent.
Defined.


Lemma chrome_host_round_trip_witness :
  Client.wellFormed (@Client.create (option Z)) /\
  Host.chromeSync Handshake.chromeHost = true /\
  Host.onMessage (fromFrame (getRequest "a" ["settings"])) Handshake.chromeHost =
    Host.call (Host.SyncGet ["settings"] (Some "a")) Handshake.chromeHost.
Proof.
  split; [apply BridgeFacts.wellFormed_create |]. split; [reflexivity |].
  pose proof (chrome_host_round_trip Client.create Handshake.chromeHost "a"
                ["settings"] None BridgeFacts.wellFormed_create eq_refl)
    as Htrip.
  cbv zeta in Htrip. destruct Htrip as (Hcall & _). exact Hcall.
Defined.

End ChannelFacts.

(* ===================================================================== *)
(** * Further facts about the storage layer *)
(* ===================================================================== *)

Module HookFacts.
Import Wire UseStorage StorageFacts Handshake.

Section WithJson.
Context `{Json V}.
Implicit Types (p q : Process V).

Lemma env_apply (o : Op V) q : env (apply o q) = env q.
Proof.
  destruct o; cbn [apply].
  - unfold getStrategy. now destruct (_strategy q).
  - unfold ensureBridge. destruct (_bridgeReady q); [reflexivity |].
    unfold getStorageBridgeClient. now destruct (_client q).
  - unfold onMessage. now destruct (_client q).
  - unfold onHandshakeTimer. destruct (handshakeTimer q); [| reflexivity].
    now destruct (_bridgeReady q) as [[|] |].
  - unfold storageGet, getStorageBridgeClient. destruct strategy; cbn.
    + reflexivity.
    + now destruct (_client q).
    + now destruct (readLocal key (localStorage q)).
  - unfold storageSet, getStorageBridgeClient. destruct strategy; cbn.
    + reflexivity.
    + now destruct (_client q).
    + reflexivity.
Qed.

Lemma strategy_apply (o : Op V) q :
  _strategy (apply o q) = _strategy q \/
  (_strategy q = None /\
   _strategy (apply o q) = Some (detectStorageStrategy (env q))) \/
  (_bridgeReady q = Some Waiting /\ o = OpHandshakeTimer /\
   _strategy (apply o q) = Some Local).
Proof.
  destruct o; cbn [apply].
  - unfold getStrategy. destruct (_strategy q) eqn:Hs; cbn; auto.
  - left. unfold ensureBridge. destruct (_bridgeReady q); [reflexivity |].
    unfold getStorageBridgeClient. now destruct (_client q).
  - left. unfold onMessage. now destruct (_client q).
  - unfold onHandshakeTimer. destruct (handshakeTimer q); [| auto].
    destruct (_bridgeReady q) as [[|] |]; cbn; auto.
  - left. unfold storageGet, getStorageBridgeClient. destruct strategy; cbn.
    + reflexivity.
    + now destruct (_client q).
    + now destruct (readLocal key (localStorage q)).
  - left. unfold storageSet, getStorageBridgeClient. destruct strategy; cbn.
    + reflexivity.
    + now destruct (_client q).
    + reflexivity.
Qed.

(** X19: whatever runs in the process, the detected environment does
    not change, and the cached strategy changes in two ways only: from
    unset to what [detectStorageStrategy] finds, and to ["local"] when
    the handshake timer fires; nothing ever sets it to ["chrome"] or
    ["bridge"] afterwards. *)
Theorem strategy_only_downgrades (ops : list (Op V)) p :
  env (applyAll ops p) = env p /\
  (_strategy (applyAll ops p) = _strategy p \/
   (_strategy p = None /\
    _strategy (applyAll ops p) = Some (detectStorageStrategy (env p))) \/
   (In OpHandshakeTimer ops /\ _strategy (applyAll ops p) = Some Local)).
Proof.
  revert p. induction ops as [| o ops IH]; intros p; [cbn; auto |].
  cbn [applyAll fold_left]. fold (applyAll ops (apply o p)).
  destruct (IH (apply o p)) as [Henv Hcases].
  rewrite env_apply in Henv. split; [exact Henv |].
  destruct Hcases as [Hsame | [[Hnone Hdet] | [Hin Hloc]]].
  - rewrite Hsame.
    destruct (strategy_apply o p) as [Hs | [[Hn Hd] | (_ & -> & Hl)]].
    + now left.
    + right. left. now split.
    + right. right. split; [now left | exact Hl].
  - rewrite env_apply in Hdet.
    destruct (strategy_apply o p) as [Hs | [[Hn Hd] | (_ & -> & Hl)]].
    + right. left. split; [congruence | exact Hdet].
    + congruence.
    + congruence.
  - right. right. split; [now right | exact Hloc].
Qed.

Lemma won_apply (o : Op V) q :
  won q -> won (apply o q) /\
           (forall s, _strategy q = Some s -> _strategy (apply o q) = Some s).
Proof.
  unfold won. intros Hb. destruct o; cbn [apply].
  - unfold getStrategy. destruct (_strategy q) eqn:Hs; cbn.
    + split; [exact Hb | intros s' Hx; congruence].
    + split; [exact Hb | intros s' Hx; congruence].
  - unfold ensureBridge. rewrite Hb. auto.
  - unfold onMessage. destruct (_client q); cbn; rewrite ?Hb; auto.
  - unfold onHandshakeTimer. destruct (handshakeTimer q); [| auto].
    rewrite Hb. cbn. auto.
  - unfold storageGet, getStorageBridgeClient. destruct strategy; cbn; auto.
    + destruct (_client q); cbn; auto.
    + destruct (readLocal key (localStorage q)); cbn; auto.
  - unfold storageSet, getStorageBridgeClient. destruct strategy; cbn; auto.
    destruct (_client q); cbn; auto.
Qed.

Lemma won_applyAll (ops : list (Op V)) : forall q s,
  won q -> _strategy q = Some s ->
  won (applyAll ops q) /\ _strategy (applyAll ops q) = Some s.
Proof.
  induction ops as [| o ops IH]; intros q s Hw Hs; [auto |].
  cbn [applyAll fold_left]. fold (applyAll ops (apply o q)).
  destruct (won_apply o q Hw) as [Hw' Hs']. apply IH; auto.
Qed.

(** X20: when the shell's acknowledgment reaches a listening client
    after the first [ensureBridge()], the memoized promise is resolved
    with true, and nothing that runs afterwards, the handshake timer
    included, changes it or the strategy. *)
Theorem handshake_success_is_permanent p (e : MessageEvent V)
    (msg : Wire.Message V) (ops : list (Op V)) (s : StorageStrategy) :
  _bridgeReady p = None ->
  clientListening p = true ->
  _strategy p = Some s ->
  source e = ParentWindow ->
  payload e = Some msg ->
  type msg = "daybound-bridge-ready" ->
  let q := onMessage e (ensureBridge p) in
  _bridgeReady q = Some (Resolved true) /\
  _bridgeReady (applyAll ops q) = Some (Resolved true) /\
  _strategy (applyAll ops q) = Some s.
Proof.
  intros Hb Hl Hs Hsrc Hp Hty q.
  assert (Hq : won q /\ _strategy q = Some s).
  { subst q. unfold won, ensureBridge, getStorageBridgeClient. rewrite Hb.
    assert (Hready : forall c, Client.listening c = true ->
              Client.readyPromise (Client.dispatch e c) = true).
    { intros c Hc. unfold Client.dispatch, Client.handleMessage.
      rewrite Hc, bool_decide_eq_false_2 by (rewrite Hsrc; auto).
      rewrite Hp, Hty. reflexivity. }
    unfold clientListening in Hl.
    destruct (_client p) as [c |] eqn:Hc.
    - unfold onMessage. cbn -[Client.dispatch]. rewrite Hc.
      cbn -[Client.dispatch]. rewrite (Hready c Hl).
      destruct (Client.readyPromise c); auto.
    - unfold onMessage. cbn -[Client.dispatch].
      rewrite (Hready Client.create eq_refl). auto. }
  destruct Hq as [Hw Hs'].
  split; [exact Hw |]. now apply won_applyAll.
Qed.

(** X21: a load that starts with the bridge strategy and no
    acknowledgment waits on [ensureBridge()], and waking it does
    nothing while the race is open; once the handshake timer has fired
    it reads [localStorage] instead, finishes with what that read gave,
    and the strategy of the process is ["local"] from then on. *)
Theorem load_falls_back_to_local key (init : V) (u u2 u3 : string) p :
  _strategy p = Some Bridge ->
  _bridgeReady p = None ->
  acknowledged p = false ->
  let x0 := usePersistentState key init u p in
  let x := steps key [HandshakeTimer; Woken PromiseSettled u2;
                      Woken PromiseSettled u3] x0 in
  stage (runOf x0) = AwaitEnsureBridge /\
  step key (Woken PromiseSettled u2) x0 = x0 /\
  stage (runOf x) = Finished /\
  hookOf x = complete (fst (readLocal key (localStorage p))) false (render init) /\
  _strategy (processOf x) = Some Local.
Proof.
  intros Hs Hb Hack x0 x. subst x x0.
  unfold usePersistentState, loadStart, getStrategy. rewrite Hs.
  rewrite bool_decide_eq_true_2 by reflexivity.
  unfold ensureBridge, getStorageBridgeClient. rewrite Hb.
  unfold acknowledged in Hack.
  destruct p as [en cl sg br tm ls ss]. cbn in Hs, Hb, Hack. subst sg br.
  destruct cl as [c |]; cbn in Hack |- *.
  - rewrite Hack. cbn.
    destruct (readLocal key ls) as [o st]. cbn. repeat split.
  - destruct (readLocal key ls) as [o st]. cbn. repeat split.
Qed.



(** X24: [setValue] changes the React state before it persists and
    never takes it back: with the local strategy and a browser that
    denies [localStorage], the state is the new value, the store is
    unchanged, and a later load falls back to the initial value. *)
Theorem failed_write_is_not_rolled_back key (v init : V) (u1 u2 : string)
    p (h : Hook V) :
  _strategy p = Some Local ->
  LocalStorage.denied (localStorage p) = true ->
  setValue key v u1 (p, h) = (p, mkHook v (loading h) (isLoaded h)) /\
  hookOf (freshLoad key init u2 p) = mkHook init false true.
Proof.
  intros Hs Hd. split.
  - unfold setValue, getStrategy. rewrite Hs. unfold storageSet.
    unfold LocalStorage.setItem. rewrite Hd. cbn. now destruct p.
  - rewrite (freshLoad_local key init u2 p Hs).
    unfold readLocal, LocalStorage.getItem. rewrite Hd. reflexivity.
Qed.

(** X25: with the local strategy and a readable store, two calls of
    [setValue] on one key leave in the store what the second alone
    would have left, the state is the second value, and a later load
    sees the same thing either way. *)
Theorem last_write_wins key (v1 v2 init : V) (u1 u2 u3 : string) p
    (h : Hook V) :
  _strategy p = Some Local ->
  LocalStorage.denied (localStorage p) = false ->
  let once := fst (setValue key v2 u2 (p, h)) in
  let twice := fst (setValue key v2 u2 (setValue key v1 u1 (p, h))) in
  LocalStorage.items (localStorage twice) = LocalStorage.items (localStorage once) /\
  state (snd (setValue key v2 u2 (setValue key v1 u1 (p, h)))) = v2 /\
  hookOf (freshLoad key init u3 twice) = hookOf (freshLoad key init u3 once).
Proof.
  intros Hs Hd once twice.
  assert (Hset : forall w uu q hh, _strategy q = Some Local ->
            LocalStorage.denied (localStorage q) = false ->
            setValue key w uu (q, hh) =
              (setLocalStorage
                 (LocalStorage.mk
                    (<[key := JSON_stringify w]> (LocalStorage.items (localStorage q)))
                    false
                    (LocalStorage.journal (localStorage q) ++
                     [LocalStorage.SetItem key (JSON_stringify w)])) q,
               mkHook w (loading hh) (isLoaded hh))).
  { intros w uu q hh Hq Hdq. unfold setValue, getStrategy. rewrite Hq.
    unfold storageSet, LocalStorage.setItem. now rewrite Hdq. }
  subst once twice. rewrite (Hset v1 u1 p h Hs Hd).
  rewrite !Hset by (assumption || reflexivity). cbn [fst snd state].
  assert (Hitems : forall it : gmap string string,
            <[key := JSON_stringify v2]> (<[key := JSON_stringify v1]> it) =
            <[key := JSON_stringify v2]> it) by (intros; apply insert_insert_eq).
  split; [cbn; apply Hitems |]. split; [reflexivity |].
  rewrite !freshLoad_local by exact Hs.
  unfold readLocal, LocalStorage.getItem. cbn. rewrite !lookup_insert_eq.
  destruct (JSON_stringify v2); [reflexivity |].
  destruct (JSON_parse _); reflexivity.
Qed.

Lemma cancelled_step key (ev : Event V) (x : Process V * Run V * Hook V) :
  cancelled (runOf x) = true ->
  cancelled (runOf (step key ev x)) = true /\ hookOf (step key ev x) = hookOf x.
Proof.
  destruct x as [[p r] h]. unfold runOf, hookOf. cbn [fst snd]. intros Hc.
  destruct ev as [e | | w uu |]; cbn [step]; try (split; [assumption | reflexivity]).
  - unfold resume.
    destruct (stage r) eqn:Hst, w; cbn [fst snd];
      try (split; [assumption | reflexivity]).
    + destruct (_bridgeReady p) as [[| ok] |]; cbn [fst snd];
        try (split; [assumption | reflexivity]).
      destruct (storageGet key _ uu p) as [stg p']. cbn. split; [assumption | reflexivity].
    + unfold finish. rewrite Hc. cbn [fst snd cancelled].
      split; [reflexivity | apply complete_cancelled].
    + destruct (_client p ≫= _) as [d |]; cbn [fst snd];
        [| split; [assumption | reflexivity]].
      unfold finish. rewrite Hc. cbn [fst snd cancelled].
      split; [reflexivity | apply complete_cancelled].
    + unfold finish. rewrite Hc. cbn [fst snd cancelled].
      split; [reflexivity | apply complete_cancelled].
  - split; reflexivity.
Qed.

Lemma cancelled_steps key (evs : list (Event V)) : forall x,
  cancelled (runOf x) = true -> hookOf (steps key evs x) = hookOf x.
Proof.
  induction evs as [| ev evs IH]; intros x Hc; [reflexivity |].
  cbn [steps fold_left]. fold (steps key evs (step key ev x)).
  destruct (cancelled_step key ev x Hc) as [Hc' Hh]. now rewrite IH.
Qed.

(** X26: the cleanup of the effect cancels the load for good: if it
    runs before the load has finished, the hook keeps its first render
    (the initial value, still loading), whatever happens before and
    after it. *)
Theorem cancelled_load_leaves_hook key (init : V) (u : string) p
    (before after : list (Event V)) :
  let x0 := usePersistentState key init u p in
  stage (runOf (steps key before x0)) <> Finished ->
  hookOf (steps key (before ++ Teardown :: after) x0) = render init.
Proof.
  intros x0 Hst. unfold steps. rewrite fold_left_app. cbn [fold_left].
  fold (steps key before x0).
  fold (steps key after (step key Teardown (steps key before x0))).
  rewrite cancelled_steps.
  - pose proof (consistent_steps key init before x0
                  (consistent_usePersistentState key init u p)) as Hcons.
    destruct (steps key before x0) as [[p1 r1] h1].
    unfold runOf, hookOf in *. cbn [fst snd step] in *.
    unfold consistent in Hcons. destruct (stage r1); try tauto.
  - destruct (steps key before x0) as [[p1 r1] h1]. reflexivity.
Qed.

End WithJson.

Lemma handshake_success_is_permanent_witness :
  _bridgeReady Sample.framedBridge = None /\
  clientListening Sample.framedBridge = true /\
  _strategy Sample.framedBridge = Some Bridge /\
  source Sample.readyAck = ParentWindow /\
  _strategy (applyAll [OpHandshakeTimer; OpGetStrategy]
               (onMessage Sample.readyAck (ensureBridge Sample.framedBridge)))
    = Some Bridge.
Proof.
  split; [reflexivity |]. split; [reflexivity |]. split; [reflexivity |].
  split; [reflexivity |].
  pose proof (handshake_success_is_permanent Sample.framedBridge
                Sample.readyAck (tagged "daybound-bridge-ready")
                [OpHandshakeTimer; OpGetStrategy] Bridge
                eq_refl eq_refl eq_refl eq_refl eq_refl eq_refl) as Hwon.
  cbv zeta in Hwon. destruct Hwon as (_ & _ & Hstrategy). exact Hstrategy.
Defined.

Lemma load_falls_back_to_local_witness :
  _strategy Sample.framedBridge = Some Bridge /\
  _bridgeReady Sample.framedBridge = None /\
  acknowledged Sample.framedBridge = false /\
  _strategy (processOf
               (steps "settings"
                  [HandshakeTimer; Woken PromiseSettled "b";
                   Woken PromiseSettled "c"]
                  (usePersistentState "settings" (Some 1) "a"
                                      Sample.framedBridge))) = Some Local.
Proof.
  split; [reflexivity |]. split; [reflexivity |]. split; [reflexivity |].
  pose proof (load_falls_back_to_local "settings" (Some 1) "a" "b" "c"
                Sample.framedBridge eq_refl eq_refl eq_refl) as Hload.
  cbv zeta in Hload. destruct Hload as (_ & _ & _ & _ & Hlocal). exact Hlocal.
Defined.



Lemma failed_write_is_not_rolled_back_witness :
  _strategy deniedTab = Some Local /\
  LocalStorage.denied (localStorage deniedTab) = true /\
  setValue "settings" (Some 9) "a" (deniedTab, render (Some 1)) =
    (deniedTab, mkHook (Some 9) true false).
Proof.
  split; [reflexivity |]. split; [reflexivity |].
  destruct (failed_write_is_not_rolled_back "settings" (Some 9) (Some 1)
              "a" "b" deniedTab (render (Some 1)) eq_refl eq_refl)
    as (Hset & _).
  exact Hset.
Defined.

Lemma last_write_wins_witness :
  _strategy Sample.plainTab = Some Local /\
  LocalStorage.denied (localStorage Sample.plainTab) = false /\
  state (snd (setValue "settings" (Some 9) "b"
                (setValue "settings" (Some 8) "a"
                   (Sample.plainTab, render (Some 1))))) = Some 9.
Proof.
  split; [reflexivity |]. split; [reflexivity |].
  pose proof (last_write_wins "settings" (Some 8) (Some 9) (Some 1)
                "a" "b" "c" Sample.plainTab (render (Some 1))
                eq_refl eq_refl) as Hlast.
  cbv zeta in Hlast. destruct Hlast as (_ & Hstate & _). exact Hstate.
Defined.

Lemma cancelled_load_leaves_hook_witness :
  stage (runOf (steps "settings" [HandshakeTimer]
                  (usePersistentState "settings" (Some 1) "a"
                                      Sample.framedBridge))) <> Finished /\
  hookOf (steps "settings"
            ([HandshakeTimer] ++ Teardown :: [Woken PromiseSettled "b";
                                              Woken PromiseSettled "c"])
            (usePersistentState "settings" (Some 1) "a" Sample.framedBridge))
    = render (Some 1).
Proof.
  assert (Hopen : stage (runOf (steps "settings" [HandshakeTimer]
                    (usePersistentState "settings" (Some 1) "a"
                                        Sample.framedBridge))) <> Finished)
    by (vm_compute; discriminate).
  split; [exact Hopen |].
  exact (cancelled_load_leaves_hook "settings" (Some 1) "a" Sample.framedBridge
           [HandshakeTimer] [Woken PromiseSettled "b"; Woken PromiseSettled "c"]
           Hopen).
Defined.

End HookFacts.

(* ===================================================================== *)
(** * Change notifications *)
(* ===================================================================== *)

Module ChangeFacts.
Import Wire Channel ClientCalls.

Section WithJson.
Context `{Json V}.

(** X27: a change that [chrome.storage] reports for the sync area is
    forwarded by the shell as one message, and the client then calls
    every registered listener once with these changes, in the order of
    registration, those that throw included; a change of any other area
    is not forwarded.  Neither touches the pending requests or the
    settled promises. *)
Theorem sync_change_reaches_every_listener (chg : gmap string (Change V))
    (area : string) (h : Host.t V) (c : Client.t V) :
  let h' := Host.onChanged chg area h in
  let forwarded := drop (length (Host.sent h)) (Host.sent h') in
  let c' := fold_left (fun acc m => Client.handleMessage (fromShell m) acc)
                      forwarded c in
  (area = "sync" ->
     Client.delivered c' =
       (Client.delivered c ++
        map (fun l => (Client.listenerId l, Some chg))
            (Client.changeListeners c))%list) /\
  (area <> "sync" -> h' = h /\ c' = c) /\
  Client.pending c' = Client.pending c /\
  Client.resolved c' = Client.resolved c.
Proof.
  intros h' forwarded c'. subst c' forwarded h'. unfold Host.onChanged.
  destruct (String.eqb_spec area "sync") as [-> | Hne]; cbn [negb].
  - cbn [Host.post Host.sent]. rewrite drop_app_length. cbn [fold_left].
    unfold Client.handleMessage, fromShell.
    rewrite bool_decide_eq_false_2 by (cbn; auto). cbn.
    split; [reflexivity |]. split; [congruence |]. split; reflexivity.
  - rewrite drop_all. cbn [fold_left].
    split; [congruence |]. split; [auto |]. split; reflexivity.
Qed.

End WithJson.

Section WithValues.
Context {V : Type}.





End WithValues.


End ChangeFacts.

(* ===================================================================== *)
(** * A failed attempt and the next check *)
(* ===================================================================== *)

Module RetryFacts.
Import LocalStorage Shell ShellFacts OtaUpdater Checker.

(** X29: when the remote attempt fails on a readable store, the flag is
    gone, so the next open takes the bundled page whatever the network
    and the time; the recorded version is kept, so the next background
    check that finds that same newer version sets the flag again
    without pre-caching and leaves the failure counters as the failed
    attempt wrote them. *)
Theorem failed_attempt_disables_remote_until_next_check
    (onLine : option bool) (now now' : Z) (p : Page) (ch : ascii)
    (rest : string) (success : bool) :
  settled p = false ->
  denied (storage p) = false ->
  newer (String ch rest) = true ->
  items (storage p) !! OTA_REMOTE_VER = Some (String ch rest) ->
  let st := storage (settle false now p) in
  let st' := snd (runCheck (Response true (Manifest (Some (String ch rest))))
                    success st) in
  decideRoute onLine now' st = (Return FastPath, st) /\
  useRemoteFlag st' = true /\
  failCount st' = failCount st /\
  failTimestamp st' = failTimestamp st /\
  written (runCheck (Response true (Manifest (Some (String ch rest)))) success)
          st = [SetItem OTA_USE_REMOTE "true"].
Proof.
  intros Hs Hd Hnew Hver st st'. subst st' st.
  rewrite (settle_failure now p Hs Hd). cbn [storage].
  assert (Hflag : useRemoteFlag (failed now (storage p)) = false).
  { unfold useRemoteFlag, failed. cbn [denied items].
    rewrite lookup_delete_eq. reflexivity. }
  split.
  { rewrite decideRoute_eq, Hflag. reflexivity. }
  assert (Hkept : items (failed now (storage p)) !! OtaConfig.LS_REMOTE_VERSION =
                  Some (String ch rest)).
  { unfold failed. cbn [items].
    rewrite lookup_delete_ne by discriminate.
    rewrite !lookup_insert_ne by discriminate. exact Hver. }
  unfold written.
  rewrite (CheckerFacts.runCheck_cases ch rest success
             (failed now (storage p)) eq_refl).
  cbv zeta. rewrite Hnew, (bool_decide_eq_true_2 _ Hkept). cbn [snd].
  split; [| split; [| split]].
  - unfold useRemoteFlag, flagSet. cbn [denied items].
    apply bool_decide_eq_true_2, lookup_insert_eq.
  - unfold failCount, flagSet. cbn [items].
    now rewrite lookup_insert_ne by discriminate.
  - unfold failTimestamp, flagSet. cbn [items].
    now rewrite lookup_insert_ne by discriminate.
  - unfold flagSet. cbn [journal]. apply drop_app_length.
Qed.

Lemma failed_attempt_disables_remote_until_next_check_witness :
  settled Fixtures.cachedPage = false /\
  denied (storage Fixtures.cachedPage) = false /\
  newer "1.2.0" = true /\
  items (storage Fixtures.cachedPage) !! OTA_REMOTE_VER = Some "1.2.0" /\
  decideRoute (Some true) 5 (storage (settle false 1 Fixtures.cachedPage)) =
    (Return FastPath, storage (settle false 1 Fixtures.cachedPage)).
Proof.
  assert (Hnew : newer "1.2.0" = true) by (vm_compute; reflexivity).
  assert (Hver : items (storage Fixtures.cachedPage) !! OTA_REMOTE_VER =
                 Some "1.2.0") by (vm_compute; reflexivity).
  split; [reflexivity |]. split; [reflexivity |]. split; [exact Hnew |].
  split; [exact Hver |].
  pose proof (failed_attempt_disables_remote_until_next_check (Some true) 1 5
                Fixtures.cachedPage "1" ".2.0" false eq_refl eq_refl Hnew Hver)
    as Hnext.
  cbv zeta in Hnext. destruct Hnext as (Hroute & _). exact Hroute.
Defined.

End RetryFacts.

(* ===================================================================== *)
(** * Facts about zone names *)
(* ===================================================================== *)

Module TimezoneFacts.
Import JS TimezoneUtils.

Lemma split_nonempty sep s : split sep s <> [].
Proof.
  destruct s as [| a r]; cbn; [discriminate |].
  destruct (Ascii.eqb a sep); [discriminate |].
  destruct (split sep r); discriminate.
Qed.

Lemma split_clean sep s : Forall (fun x => contains sep x = false) (split sep s).
Proof.
  induction s as [| a r IH]; cbn [split].
  - constructor; [reflexivity | constructor].
  - destruct (Ascii.eqb a sep) eqn:Ea.
    + constructor; [reflexivity | exact IH].
    + destruct (split sep r) as [| h t].
      * constructor; [cbn; now rewrite Ea | constructor].
      * inversion IH as [| ? ? Hh Ht]; subst.
        constructor; [cbn; now rewrite Ea | exact Ht].
Qed.

Lemma replaceUnderscores_clean s :
  contains "_" (replaceUnderscores s) = false /\
  (contains "/" s = false -> contains "/" (replaceUnderscores s) = false).
Proof.
  induction s as [| a r [IH1 IH2]]; [split; reflexivity |].
  cbn [replaceUnderscores contains].
  destruct (Ascii.eqb a "_") eqn:Ea.
  - split; [exact IH1 |]. intros Hs. apply orb_false_iff in Hs as [_ Hs].
    cbn. now apply IH2.
  - rewrite Ea. split; [exact IH1 |]. intros Hs.
    apply orb_false_iff in Hs as [Ha Hs]. rewrite Ha. now apply IH2.
Qed.

Lemma split_without sep s : contains sep s = false -> split sep s = [s].
Proof.
  induction s as [| a r IH]; [reflexivity |]. cbn [contains split]. intros Hs.
  apply orb_false_iff in Hs as [Ha Hs]. now rewrite Ha, (IH Hs).
Qed.

Lemma split_segment sep a rest :
  contains sep a = false ->
  split sep (a ++ String sep rest) = a :: split sep rest.
Proof.
  induction a as [| x r IH]; intros Hs.
  - change (EmptyString ++ String sep rest) with (String sep rest).
    cbn [split]. now rewrite Ascii.eqb_refl.
  - change (String x r ++ String sep rest)
      with (String x (r ++ String sep rest)).
    cbn [contains] in Hs. apply orb_false_iff in Hs as [Hx Hs].
    cbn [split]. now rewrite Hx, (IH Hs).
Qed.

Lemma split_join sep segs :
  segs <> [] -> Forall (fun x => contains sep x = false) segs ->
  split sep (join sep segs) = segs.
Proof.
  induction segs as [| a r IH]; [congruence |]. intros _ Hall.
  inversion Hall as [| ? ? Ha Hr]; subst.
  destruct r as [| b r'].
  - cbn [join]. now apply split_without.
  - change (join sep (a :: b :: r')) with (a ++ String sep (join sep (b :: r'))).
    rewrite (split_segment sep a _ Ha). f_equal. now apply IH.
Qed.

(** X30: [getCityName] never throws, and its result holds neither an
    underscore nor a slash.  On a zone name made of segments joined by
    slashes it gives the last segment with its underscores turned into
    spaces, and [getRegionName] gives the first segment when there are
    at least two, the empty string when there is one. *)
Theorem zone_name_segments (timezone : string) :
  (exists city,
     getCityName timezone = Some city /\
     contains "_" city = false /\ contains "/" city = false) /\
  (forall segs,
     segs <> [] -> Forall (fun x => contains "/" x = false) segs ->
     timezone = join "/" segs ->
     getCityName timezone = replaceUnderscores <$> last segs /\
     getRegionName timezone =
       match segs with
       | first :: _ :: _ => first
       | _ => EmptyString
       end).
Proof.
  split.
  - unfold getCityName. cbv zeta.
    pose proof (split_nonempty "/" timezone) as Hne.
    pose proof (split_clean "/" timezone) as Hall.
    rewrite Nat.sub_1_r, <- last_lookup.
    destruct (last (split "/" timezone)) as [seg |] eqn:Hlast.
    + exists (replaceUnderscores seg). split; [reflexivity |].
      destruct (replaceUnderscores_clean seg) as [Hu Hs].
      split; [exact Hu |]. apply Hs.
      rewrite Forall_forall in Hall. apply Hall.
      rewrite last_lookup in Hlast. now apply list_elem_of_lookup_2 in Hlast.
    + apply last_None in Hlast. contradiction.
  - intros segs Hne Hall ->. unfold getCityName, getRegionName. cbv zeta.
    rewrite (split_join "/" segs Hne Hall).
    now rewrite Nat.sub_1_r, <- last_lookup.
Qed.

Lemma zone_name_segments_witness :
  getCityName "America/Argentina/Buenos_Aires" = Some "Buenos Aires" /\
  getRegionName "America/Argentina/Buenos_Aires" = "America".
Proof.
  destruct (zone_name_segments "America/Argentina/Buenos_Aires") as [_ Hsegs].
  apply (Hsegs ["America"; "Argentina"; "Buenos_Aires"]);
    [discriminate | repeat constructor | reflexivity].
Defined.

End TimezoneFacts.
